(** * k-anonymity evaluation: a shallow embedding of [code/n.py]

    The development follows the pipeline of the program:
    [identify_quasi_identifiers] -> [compute_equivalence_classes] ->
    the metric functions -> [evaluate_k_anonymity].

    Modelling conventions.
    - A pandas [DataFrame] is a list of column names and a list of rows.
      The frames the program reads come from [pd.read_csv]: their column
      names are pairwise distinct and every row has one cell per column
      ([wf_df]).  Cells are strings, integers or the missing value NaN;
      floating-point columns are outside the model.
    - Python dictionaries ([dict], [Counter], [defaultdict]) keep insertion
      order, and the program iterates over [.values()]; they are association
      lists in which a key is stored at most once, updated in place or
      appended at the end.
    - Python exceptions are the [Raise] branch of [result].
    - Numbers that Python computes with [/] are exact rationals ([Q]): the
      rounding of binary floating point is not modelled.  Division by zero
      raises [ZeroDivisionError], as it does in Python. *)

From Stdlib Require Import String Ascii List Bool Arith ZArith QArith Lia.
From Stdlib Require Import Permutation DecimalString Sorted Lqa.
Import ListNotations.

Local Open Scope string_scope.
Local Open Scope list_scope.
Local Open Scope nat_scope.

(* ================================================================= *)
(** ** Exceptions *)

Inductive exn : Type :=
| KeyError
| ZeroDivisionError.

Inductive result (A : Type) : Type :=
| Ok (a : A)
| Raise (e : exn).

Arguments Ok {A} a.
Arguments Raise {A} e.

Definition bind {A B : Type} (m : result A) (f : A -> result B) : result B :=
  match m with
  | Ok a => f a
  | Raise e => Raise e
  end.

Notation "x <- m ;; f" := (bind m (fun x => f))
  (at level 61, m at next level, right associativity).
Notation "' p <- m ;; f" := (bind m (fun p => f))
  (at level 61, p pattern, m at next level, right associativity).

Fixpoint mapM {A B : Type} (f : A -> result B) (l : list A) : result (list B) :=
  match l with
  | [] => Ok []
  | a :: l' => b <- f a ;; bs <- mapM f l' ;; Ok (b :: bs)
  end.

(* ================================================================= *)
(** ** Numbers *)

(** A Python [int] that counts something, seen as a rational. *)
Definition Qn (n : nat) : Q := inject_Z (Z.of_nat n).

(** Python's true division [a / b]. *)
Definition pydiv (a b : Q) : result Q :=
  if Qeq_bool b 0 then Raise ZeroDivisionError else Ok (a / b)%Q.

(** [sum(l)] over numbers, starting from 0 and adding from the left. *)
Definition qsum (l : list Q) : Q := fold_left Qplus l 0%Q.

(** [max(x :: l)]: the first maximal item is kept. *)
Definition qmax (x : Q) (l : list Q) : Q :=
  fold_left (fun m y => if Qle_bool y m then m else y) l x.

(** [min(x :: l)] and [max(x :: l)] over sizes. *)
Definition nmin (x : nat) (l : list nat) : nat := fold_left Nat.min l x.
Definition nmax (x : nat) (l : list nat) : nat := fold_left Nat.max l x.

(* ================================================================= *)
(** ** Cells and data frames *)

Inductive cell : Type :=
| CStr (s : string)
| CInt (z : Z)
| CNaN.

(** [str(val)] *)
Definition str (v : cell) : string :=
  match v with
  | CStr s => s
  | CInt z => NilZero.string_of_int (Z.to_int z)
  | CNaN => "nan"
  end.

(** [val == '*'] *)
Definition eq_star (v : cell) : bool :=
  match v with
  | CStr s => String.eqb s "*"
  | _ => false
  end.

(** Equality of two present values; NaN is never equal to anything. *)
Definition cell_eqb (a b : cell) : bool :=
  match a, b with
  | CStr s, CStr t => String.eqb s t
  | CInt x, CInt y => Z.eqb x y
  | _, _ => false
  end.

Definition notna (v : cell) : bool :=
  match v with
  | CNaN => false
  | _ => true
  end.

(** [pat in s] on strings. *)
Fixpoint contains (pat s : string) : bool :=
  if String.prefix pat s then true
  else match s with
       | EmptyString => false
       | String _ s' => contains pat s'
       end.

(** ['_'.join(l)] *)
Fixpoint join (sep : string) (l : list string) : string :=
  match l with
  | [] => ""
  | [s] => s
  | s :: l' => (s ++ sep ++ join sep l')%string
  end.

Record DataFrame : Type := {
  columns : list string;
  rows : list (list cell)
}.

(** [len(df)] and [df.size] *)
Definition len (df : DataFrame) : nat := length (rows df).
Definition size (df : DataFrame) : nat := len df * length (columns df).

(** No label occurs twice. *)
Fixpoint distinctb (l : list string) : bool :=
  match l with
  | [] => true
  | c :: l' => negb (existsb (String.eqb c) l') && distinctb l'
  end.

(** The frames [read_csv] builds. *)
Definition wf_df (df : DataFrame) : bool :=
  distinctb (columns df)
  && forallb (fun r => length r =? length (columns df)) (rows df).

(** Position of a column label. *)
Fixpoint get_loc (col : string) (cols : list string) : result nat :=
  match cols with
  | [] => Raise KeyError
  | c :: cols' =>
      if String.eqb col c then Ok 0
      else j <- get_loc col cols' ;; Ok (S j)
  end.

(** The cell of a row at a position; a missing cell reads as NaN. *)
Definition iloc (j : nat) (r : list cell) : cell := nth j r CNaN.

(** [df[col]]: the values of one column, top to bottom. *)
Definition getitem (df : DataFrame) (col : string) : result (list cell) :=
  j <- get_loc col (columns df) ;;
  Ok (map (iloc j) (rows df)).

(** [df[cols]]: the rows restricted to the listed columns, in the order of
    the list. *)
Definition getitems (df : DataFrame) (cols : list string)
  : result (list (list cell)) :=
  js <- mapM (fun c => get_loc c (columns df)) cols ;;
  Ok (map (fun r => map (fun j => iloc j r) js) (rows df)).

(* ================================================================= *)
(** ** Insertion-ordered dictionaries *)

Section Dict.
Context {K V : Type}.
Variable eqb : K -> K -> bool.

Definition dict : Type := list (K * V).

(** [d.get(k)] *)
Fixpoint dict_get (k : K) (d : dict) : option V :=
  match d with
  | [] => None
  | (k', v) :: d' => if eqb k k' then Some v else dict_get k d'
  end.

(** [d.get(k, dflt)] *)
Definition dict_getd (dflt : V) (k : K) (d : dict) : V :=
  match dict_get k d with
  | Some v => v
  | None => dflt
  end.

(** [d[k] = v]: an existing key keeps its place, a new one goes last. *)
Fixpoint dict_set (k : K) (v : V) (d : dict) : dict :=
  match d with
  | [] => [(k, v)]
  | (k', v') :: d' =>
      if eqb k k' then (k', v) :: d' else (k', v') :: dict_set k v d'
  end.

Definition keys (d : dict) : list K := map fst d.
Definition values (d : dict) : list V := map snd d.
End Dict.

(** [Counter(items)]: each item in turn sets [c[k] = c.get(k, 0) + 1]. *)
Definition counter_step {K : Type} (eqb : K -> K -> bool)
    (c : list (K * nat)) (k : K) : list (K * nat) :=
  dict_set eqb k (dict_getd eqb 0 k c + 1) c.

Definition Counter {K : Type} (eqb : K -> K -> bool) (items : list K)
  : list (K * nat) :=
  fold_left (counter_step eqb) items [].

(** [enumerate(l)] *)
Definition enumerate {A : Type} (l : list A) : list (nat * A) :=
  combine (seq 0 (length l)) l.

(* ================================================================= *)
(** ** The program *)

(** [identify_quasi_identifiers(df)]: the loop over [df.columns], with the
    list [quasi_ids] built so far as accumulator. *)
Fixpoint identify_loop (df : DataFrame) (cols quasi_ids : list string)
  : result (list string) :=
  match cols with
  | [] => Ok quasi_ids
  | col :: cols' =>
      vals <- getitem df col ;;
      if negb (forallb eq_star vals)
      then identify_loop df cols' (quasi_ids ++ [col])
      else identify_loop df cols' quasi_ids
  end.

Definition identify_quasi_identifiers (df : DataFrame) : result (list string) :=
  identify_loop df (columns df) [].

(** The composite key of one row of [df[quasi_identifiers]]. *)
Definition ec_key (row : list cell) : string := join "_" (map str row).

(** The loop [for i, key in enumerate(ec_keys): ec_groups[key].append(i)]. *)
Definition group_step (g : list (string * list nat)) (ik : nat * string)
  : list (string * list nat) :=
  dict_set String.eqb (snd ik)
           (dict_getd String.eqb [] (snd ik) g ++ [fst ik]) g.

(** [compute_equivalence_classes(df, quasi_identifiers)] *)
Definition compute_equivalence_classes (df : DataFrame)
    (quasi_identifiers : list string)
  : result (list (string * nat) * list (string * list nat)) :=
  sub <- getitems df quasi_identifiers ;;
  let ec_keys := map ec_key sub in
  let ec_counts := Counter String.eqb ec_keys in
  let ec_groups := fold_left group_step (enumerate ec_keys) [] in
  Ok (ec_counts, ec_groups).

Record risk_report : Type := {
  max_risk : Q;
  avg_risk : Q;
  risks : list Q
}.

(** [calculate_reidentification_risks(ec_counts)] *)
Definition calculate_reidentification_risks (ec_counts : list (string * nat))
  : result risk_report :=
  risks <- mapM (fun ec_size => pydiv 1 (Qn ec_size)) (values ec_counts) ;;
  let max_risk := match risks with
                  | [] => 0%Q
                  | r :: rs => qmax r rs
                  end in
  avg_risk <- match risks with
              | [] => Ok 0%Q
              | _ :: _ => pydiv (qsum risks) (Qn (length risks))
              end ;;
  Ok {| max_risk := max_risk; avg_risk := avg_risk; risks := risks |}.

Record ec_metrics : Type := {
  num_equivalence_classes : nat;
  min_ec_size : nat;
  max_ec_size : nat;
  avg_ec_size : Q;
  unique_records : nat;
  unique_records_percentage : Q;
  ec_size_distribution : list (nat * nat)
}.

(** [calculate_equivalence_class_metrics(ec_counts, total_records)] *)
Definition calculate_equivalence_class_metrics
    (ec_counts : list (string * nat)) (total_records : nat)
  : result ec_metrics :=
  let ec_sizes := values ec_counts in
  let unique_records :=
    list_sum (map (fun _ => 1) (filter (fun size => size =? 1) ec_sizes)) in
  avg <- match ec_sizes with
         | [] => Ok 0%Q
         | _ :: _ => pydiv (Qn (list_sum ec_sizes)) (Qn (length ec_sizes))
         end ;;
  pct <- (if 0 <? total_records
          then q <- pydiv (Qn unique_records) (Qn total_records) ;;
               Ok (q * 100)%Q
          else Ok 0%Q) ;;
  Ok {| num_equivalence_classes := length ec_sizes;
        min_ec_size := match ec_sizes with [] => 0 | s :: ss => nmin s ss end;
        max_ec_size := match ec_sizes with [] => 0 | s :: ss => nmax s ss end;
        avg_ec_size := avg;
        unique_records := unique_records;
        unique_records_percentage := pct;
        ec_size_distribution := Counter Nat.eqb ec_sizes |}.

Record column_loss : Type := {
  distinct_values : nat;
  asterisk_percentage : Q;
  generalized_percentage : Q;
  total_loss_percentage : Q
}.

(** What the dictionary returned by [calculate_information_loss] holds: a
    record per column, and a number under ['average']. *)
Inductive loss_value : Type :=
| ColumnLoss (c : column_loss)
| AverageLoss (q : Q).

(** First occurrences of the values of a list. *)
Fixpoint unique (l : list cell) : list cell :=
  match l with
  | [] => []
  | v :: l' => v :: filter (fun w => negb (cell_eqb v w)) (unique l')
  end.

(** [series.nunique()]: missing values are dropped. *)
Definition nunique (vals : list cell) : nat :=
  length (unique (filter notna vals)).

(** The loop [for val in df[col]], with the two counters
    [(generalized_count, asterisk_count)]. *)
Definition count_step (c : nat * nat) (val : cell) : nat * nat :=
  if eq_star val then (fst c, snd c + 1)
  else if contains "**" (str val) then (fst c + 1, snd c)
  else c.

Definition count_loop (vals : list cell) : nat * nat :=
  fold_left count_step vals (0, 0).

(** [(count / total_records) * 100 if total_records > 0 else 0] *)
Definition percentage (count total_records : nat) : result Q :=
  if 0 <? total_records
  then q <- pydiv (Qn count) (Qn total_records) ;; Ok (q * 100)%Q
  else Ok 0%Q.

(** The body of the loop [for col in quasi_identifiers]: the record stored
    under [info_loss[col]]. *)
Definition column_info_loss (df : DataFrame) (col : string)
  : result column_loss :=
  vals <- getitem df col ;;
  let distinct_values := nunique vals in
  let counts := count_loop vals in
  let generalized_count := fst counts in
  let asterisk_count := snd counts in
  let total_records := len df in
  ap <- percentage asterisk_count total_records ;;
  gp <- percentage generalized_count total_records ;;
  tp <- percentage (asterisk_count + generalized_count) total_records ;;
  Ok {| distinct_values := distinct_values;
        asterisk_percentage := ap;
        generalized_percentage := gp;
        total_loss_percentage := tp |}.

(** The loop itself, with the dictionary [info_loss] as accumulator. *)
Fixpoint info_loss_loop (df : DataFrame) (cols : list string)
    (info_loss : list (string * column_loss))
  : result (list (string * column_loss)) :=
  match cols with
  | [] => Ok info_loss
  | col :: cols' =>
      cl <- column_info_loss df col ;;
      info_loss_loop df cols' (dict_set String.eqb col cl info_loss)
  end.

(** [calculate_information_loss(df, quasi_identifiers)] *)
Definition calculate_information_loss (df : DataFrame)
    (quasi_identifiers : list string)
  : result (list (string * loss_value)) :=
  info_loss <- info_loss_loop df quasi_identifiers [] ;;
  avg_loss <- match info_loss with
              | [] => Ok 0%Q
              | _ :: _ =>
                  pydiv (qsum (map total_loss_percentage (values info_loss)))
                        (Qn (length info_loss))
              end ;;
  Ok (dict_set String.eqb "average" (AverageLoss avg_loss)
        (map (fun kv => (fst kv, ColumnLoss (snd kv))) info_loss)).

(** [(df == '*').sum()]: per column, the number of cells equal to ['*']. *)
Definition star_counts (df : DataFrame) : result (list nat) :=
  mapM (fun col => vals <- getitem df col ;;
                   Ok (length (filter eq_star vals)))
       (columns df).

(** [calculate_suppression_rate(df)] *)
Definition calculate_suppression_rate (df : DataFrame) : result Q :=
  let total_cells := size df in
  per_column <- star_counts df ;;
  let suppressed_cells := list_sum per_column in
  if 0 <? total_cells
  then q <- pydiv (Qn suppressed_cells) (Qn total_cells) ;; Ok (q * 100)%Q
  else Ok 0%Q.

(** [discernibility_metric(ec_groups, total_records)] *)
Definition discernibility_metric (ec_groups : list (string * list nat))
    (total_records : nat) : nat :=
  fold_left (fun dm ec => dm + length ec ^ 2) (values ec_groups) 0.

Record results : Type := {
  k_value : Q;
  quasi_identifiers : list string;
  num_records : nat;
  satisfies_k_anonymity : bool;
  risks_report : risk_report;
  equivalence_class_metrics : ec_metrics;
  information_loss : list (string * loss_value);
  suppression_rate : Q;
  discernibility : nat
}.

(** [evaluate_k_anonymity(df, k)].  The threshold [k] is whatever number the
    caller passes; Python compares an [int] with it exactly. *)
Definition evaluate_k_anonymity (df : DataFrame) (k : Q) : result results :=
  quasi_identifiers <- identify_quasi_identifiers df ;;
  ' (ec_counts, ec_groups) <- compute_equivalence_classes df quasi_identifiers ;;
  risks <- calculate_reidentification_risks ec_counts ;;
  ec_metrics <- calculate_equivalence_class_metrics ec_counts (len df) ;;
  info_loss <- calculate_information_loss df quasi_identifiers ;;
  suppression_rate <- calculate_suppression_rate df ;;
  let dm := discernibility_metric ec_groups (len df) in
  let satisfies_k_anonymity := Qle_bool k (Qn (min_ec_size ec_metrics)) in
  Ok {| k_value := k;
        quasi_identifiers := quasi_identifiers;
        num_records := len df;
        satisfies_k_anonymity := satisfies_k_anonymity;
        risks_report := risks;
        equivalence_class_metrics := ec_metrics;
        information_loss := info_loss;
        suppression_rate := suppression_rate;
        discernibility := dm |}.

(** *** Example frames *)

(** Five records with quasi-identifier values A, A, B, B, B and a fully
    suppressed column. *)
Definition df_aabbb : DataFrame :=
  {| columns := ["city"; "name"];
     rows := [[CStr "A"; CStr "*"]; [CStr "A"; CStr "*"]; [CStr "B"; CStr "*"];
              [CStr "B"; CStr "*"]; [CStr "B"; CStr "*"]] |}.

(** Two records whose quasi-identifier tuples differ and whose values hold
    the separator. *)
Definition df_sep : DataFrame :=
  {| columns := ["street"; "unit"];
     rows := [[CStr "a_b"; CStr "c"]; [CStr "a"; CStr "b_c"]] |}.

(** A frame with two columns and no record. *)
Definition df_empty : DataFrame :=
  {| columns := ["city"; "zip"]; rows := [] |}.

(** A single suppressed cell. *)
Definition df_one_star : DataFrame :=
  {| columns := ["zip"]; rows := [[CStr "*"]] |}.

(** A frame with a quasi-identifier column named ['average']. *)
Definition df_average : DataFrame :=
  {| columns := ["age"; "average"];
     rows := [[CInt 30; CStr "*"]; [CInt 41; CStr "7**"]] |}.

(* ================================================================= *)
(** ** Notions used to state the properties *)

(** The test of the loop body, as a function of the column. *)
Definition qi_test (df : DataFrame) (col : string) : bool :=
  match getitem df col with
  | Ok vals => negb (forallb eq_star vals)
  | Raise _ => false
  end.

(** A class of [ec_groups] as an entry of [ec_counts]. *)
Definition class_size (ec : string * list nat) : string * nat :=
  (fst ec, length (snd ec)).

(** Records [i] and [j] are members of one class. *)
Definition same_class (ec_groups : list (string * list nat)) (i j : nat) : Prop :=
  exists ec, In ec ec_groups /\ In i (snd ec) /\ In j (snd ec).

(** The sum of a list of numbers, written out term by term:
    [x1 + (x2 + (... + 0))].  It is what the properties mean by a sum; the
    program's own summation is [qsum]. *)
Fixpoint sum_terms (l : list Q) : Q :=
  match l with
  | [] => 0%Q
  | x :: l' => (x + sum_terms l')%Q
  end.

(** A string value that does not contain the separator of the composite
    key. *)
Definition plain_cell (v : cell) : bool :=
  match v with
  | CStr s => negb (contains "_" s)
  | _ => false
  end.

(** Number of suppressed cells in the column at position [j]. *)
Definition column_stars (rs : list (list cell)) (j : nat) : nat :=
  length (filter eq_star (map (iloc j) rs)).

(** The table-wide counts the suppression rate is specified with. *)
Definition suppressed_cells (df : DataFrame) : nat :=
  length (filter eq_star (concat (rows df))).

(** The number of cells of the table. *)
Definition total_cells (df : DataFrame) : nat :=
  length (concat (rows df)).

(** The all-zero record of a column without records. *)
Definition zero_loss : column_loss :=
  {| distinct_values := 0; asterisk_percentage := 0;
     generalized_percentage := 0; total_loss_percentage := 0 |}.

(** A threshold is a positive integer when it is the number [p] for some
    positive [p]. *)
Definition positive_integer (k : Q) : Prop :=
  exists p : positive, (k == inject_Z (Z.pos p))%Q.

(** The claim as the specification words it: the metric is the ratio of
    suppressed cells to all cells. *)
Definition suppression_rate_is_ratio : Prop :=
  forall df q,
    wf_df df = true -> 0 < total_cells df ->
    calculate_suppression_rate df = Ok q ->
    (q == Qn (suppressed_cells df) / Qn (total_cells df))%Q.

(** The claim as the specification words it: a threshold that is not a
    positive integer makes the evaluation fail. *)
Definition rejects_invalid_k : Prop :=
  forall df k,
    wf_df df = true -> ~ positive_integer k ->
    exists e, evaluate_k_anonymity df k = Raise e.

(* ================================================================= *)
(** ** The consumers of the report *)

(** The lines of section 5 of [print_evaluation_report], by kind: the
    verdict line, the warning printed when [max_risk > 0.5] and the warning
    printed when [unique_records > 0]. *)
Inductive advisory : Type :=
| NotKAnonymous
| IsKAnonymous
| HighRisk
| HasUniqueRecords.

(** Section 5 of [print_evaluation_report(results)]: which lines are
    printed, in order. *)
Definition recommendations (r : results) : list advisory :=
  (if negb (satisfies_k_anonymity r) then [NotKAnonymous] else [IsKAnonymous])
  ++ (if negb (Qle_bool (max_risk (risks_report r)) (1 # 2))
      then [HighRisk] else [])
  ++ (if 0 <? unique_records (equivalence_class_metrics r)
      then [HasUniqueRecords] else []).

(** The dictionary comprehension [attr_loss] of [visualize_results]:
    every entry whose key is not ['average'], with the
    ['total_loss_percentage'] of its record.  Subscripting a number raises
    in Python; that is [None] here. *)
Fixpoint attr_loss (info_loss : list (string * loss_value))
  : option (list (string * Q)) :=
  match info_loss with
  | [] => Some []
  | (attr, loss) :: rest =>
      if negb (String.eqb attr "average")
      then match loss with
           | ColumnLoss c =>
               match attr_loss rest with
               | Some l => Some ((attr, total_loss_percentage c) :: l)
               | None => None
               end
           | AverageLoss _ => None
           end
      else attr_loss rest
  end.

(** First occurrences of the items of a list, in order. *)
Fixpoint first_seen (l : list string) : list string :=
  match l with
  | [] => []
  | k :: l' => k :: filter (fun x => negb (String.eqb k x)) (first_seen l')
  end.

(** The number of records whose composite key is that of record [i]. *)
Definition records_like (sub : list (list cell)) (i : nat) : nat :=
  length (filter (fun row => String.eqb (ec_key (nth i sub [])) (ec_key row)) sub).

(* ================================================================= *)
(** ** The script [code/evaluate.py] *)

(** Equality of two cells as items of a tuple: strings and integers by
    value.  Tuples compare their items by identity first, so the missing
    value of a text column, which is one shared object, equals itself; that
    is the case modelled here.  The missing values of a numeric column are
    distinct objects and never equal: what is stated about the values of
    [k_value] assumes quasi-identifier columns without missing values. *)
Definition cell_same (a b : cell) : bool :=
  match a, b with
  | CStr s, CStr t => String.eqb s t
  | CInt x, CInt y => Z.eqb x y
  | CNaN, CNaN => true
  | _, _ => false
  end.

(** Equality of two tuples of cells. *)
Fixpoint tuple_eqb (r1 r2 : list cell) : bool :=
  match r1, r2 with
  | [], [] => true
  | a :: r1', b :: r2' => cell_same a b && tuple_eqb r1' r2'
  | _, _ => false
  end.

(** [np.var(xs)]: the population variance; not a number ([None]) on an
    empty list. *)
Definition np_var (xs : list nat) : option Q :=
  match xs with
  | [] => None
  | _ :: _ =>
      let n := Qn (length xs) in
      let mean := (qsum (map Qn xs) / n)%Q in
      Some (qsum (map (fun x => (Qn x - mean) * (Qn x - mean))%Q xs) / n)%Q
  end.

(** [min(l)] over sizes; it raises on an empty list ([None]). *)
Definition py_min (l : list nat) : option nat :=
  match l with
  | [] => None
  | x :: xs => Some (nmin x xs)
  end.

Module evaluate_py.

(** The quasi-identifiers the script is written for. *)
Definition quasi_identifiers : list string :=
  ["city"; "state_code"; "zip"; "county"].

(** What the script computes before it prints: the column [k_value] it
    adds to the frame and its five metrics.  The level it prints is
    [min(df['k_value'])]. *)
Record metrics : Type := {
  k_value : list nat;
  total_records : nat;
  num_eq_classes : nat;
  AECS : Q;
  ECSV : option Q;
  suppression_rate : Q
}.

(** The script from the loaded frame [df] on. *)
Definition run (df : DataFrame) : result metrics :=
  eq_class <- getitems df quasi_identifiers ;;
  let eq_class_counts := Counter tuple_eqb eq_class in
  let k_value :=
    map (fun t => dict_getd tuple_eqb 0 t eq_class_counts) eq_class in
  let total_records := len df in
  let num_eq_classes := length eq_class_counts in
  AECS <- pydiv (Qn total_records) (Qn num_eq_classes) ;;
  let ECSV := np_var (values eq_class_counts) in
  suppression_rate <-
    pydiv (Qn (list_sum (map (fun kv => if kv =? 1 then 1 else 0) k_value)))
          (Qn total_records) ;;
  Ok {| k_value := k_value;
        total_records := total_records;
        num_eq_classes := num_eq_classes;
        AECS := AECS;
        ECSV := ECSV;
        suppression_rate := suppression_rate |}.

End evaluate_py.

(** A frame with the four columns of the script; its first two records
    differ only in where the ['_'] falls. *)
Definition df_places : DataFrame :=
  {| columns := ["city"; "state_code"; "zip"; "county"];
     rows := [[CStr "a_b"; CStr "c"; CInt 1; CStr "x"];
              [CStr "a"; CStr "b_c"; CInt 1; CStr "x"];
              [CStr "a"; CStr "b_c"; CInt 1; CStr "x"]] |}.

(* ================================================================= *)
(** ** Facts about the error monad and the numbers *)

Lemma bind_Ok {A B : Type} (m : result A) (f : A -> result B) (b : B) :
  bind m f = Ok b -> exists a, m = Ok a /\ f a = Ok b.
Proof.
  destruct m as [a | e]; simpl; intros H.
  - exists a; split; [reflexivity | exact H].
  - discriminate H.
Qed.

Lemma mapM_Ok {A B : Type} (f : A -> result B) (g : A -> B) (l : list A) :
  (forall a, In a l -> f a = Ok (g a)) -> mapM f l = Ok (map g l).
Proof.
  induction l as [| a l IH]; intros Hf; simpl.
  - reflexivity.
  - rewrite (Hf a (or_introl eq_refl)); simpl.
    rewrite IH by (intros b Hb; apply Hf; right; exact Hb).
    reflexivity.
Qed.

Lemma Qn_pos (n : nat) : 1 <= n -> (0 < Qn n)%Q.
Proof.
  intros H. unfold Qn, Qlt; simpl. lia.
Qed.

Lemma Qn_nonzero (n : nat) : 1 <= n -> Qeq_bool (Qn n) 0 = false.
Proof.
  intros H. destruct (Qeq_bool (Qn n) 0) eqn:E; [| reflexivity].
  apply Qeq_bool_eq in E. pose proof (Qn_pos n H) as Hp.
  rewrite E in Hp. exfalso. revert Hp. apply Qlt_irrefl.
Qed.

Lemma pydiv_Ok (a : Q) (n : nat) : 1 <= n -> pydiv a (Qn n) = Ok (a / Qn n)%Q.
Proof.
  intros H. unfold pydiv. rewrite (Qn_nonzero n H). reflexivity.
Qed.

(* ================================================================= *)
(** ** Facts about dictionaries *)

Section DictFacts.
Context {K V : Type}.
Variable eqb : K -> K -> bool.
Hypothesis eqb_eq : forall a b, eqb a b = true <-> a = b.

Lemma eqb_refl' (k : K) : eqb k k = true.
Proof. apply eqb_eq. reflexivity. Qed.

Lemma eqb_neq (a b : K) : a <> b -> eqb a b = false.
Proof.
  intros H. destruct (eqb a b) eqn:E; [| reflexivity].
  apply eqb_eq in E. contradiction.
Qed.

Lemma dict_get_set_same (k : K) (v : V) (d : list (K * V)) :
  dict_get eqb k (dict_set eqb k v d) = Some v.
Proof.
  induction d as [| [k' v'] d IH]; simpl.
  - rewrite eqb_refl'. reflexivity.
  - destruct (eqb k k') eqn:E; simpl; rewrite E; [reflexivity | exact IH].
Qed.

Lemma dict_get_set_other (k k0 : K) (v : V) (d : list (K * V)) :
  k0 <> k -> dict_get eqb k0 (dict_set eqb k v d) = dict_get eqb k0 d.
Proof.
  intros Hne. induction d as [| [k' v'] d IH]; simpl.
  - rewrite (eqb_neq _ _ Hne). reflexivity.
  - destruct (eqb k k') eqn:E; simpl.
    + apply eqb_eq in E. subst k'. rewrite (eqb_neq _ _ Hne). reflexivity.
    + rewrite IH. reflexivity.
Qed.

Lemma keys_set_In (k k0 : K) (v : V) (d : list (K * V)) :
  In k0 (keys (dict_set eqb k v d)) <-> k0 = k \/ In k0 (keys d).
Proof.
  induction d as [| [k' v'] d IH]; simpl.
  - intuition congruence.
  - destruct (eqb k k') eqn:E; simpl.
    + apply eqb_eq in E. subst k'. intuition congruence.
    + rewrite IH. intuition congruence.
Qed.

Lemma keys_set_NoDup (k : K) (v : V) (d : list (K * V)) :
  NoDup (keys d) -> NoDup (keys (dict_set eqb k v d)).
Proof.
  induction d as [| [k' v'] d IH]; simpl; intros Hnd.
  - constructor; [intros [] | constructor].
  - inversion Hnd as [| x l Hnotin Hnd']; subst.
    destruct (eqb k k') eqn:E; simpl.
    + constructor; assumption.
    + constructor; [| apply IH; exact Hnd'].
      intros Hin. apply keys_set_In in Hin. destruct Hin as [-> | Hin].
      * rewrite eqb_refl' in E. discriminate E.
      * contradiction.
Qed.

Lemma dict_get_In (k : K) (v : V) (d : list (K * V)) :
  dict_get eqb k d = Some v -> In (k, v) d.
Proof.
  induction d as [| [k' v'] d IH]; simpl; intros H.
  - discriminate H.
  - destruct (eqb k k') eqn:E.
    + apply eqb_eq in E. left. congruence.
    + right. apply IH. exact H.
Qed.

Lemma In_dict_get (k : K) (v : V) (d : list (K * V)) :
  NoDup (keys d) -> In (k, v) d -> dict_get eqb k d = Some v.
Proof.
  induction d as [| [k' v'] d IH]; simpl; intros Hnd Hin.
  - contradiction.
  - inversion Hnd as [| x l Hnotin Hnd']; subst.
    destruct Hin as [Heq | Hin].
    + inversion Heq; subst. rewrite eqb_refl'. reflexivity.
    + destruct (eqb k k') eqn:E.
      * apply eqb_eq in E. subst k'. exfalso. apply Hnotin.
        change k with (fst (k, v)). apply in_map. exact Hin.
      * apply IH; assumption.
Qed.

Lemma dict_get_None (k : K) (d : list (K * V)) :
  dict_get eqb k d = None <-> ~ In k (keys d).
Proof.
  induction d as [| [k' v'] d IH]; simpl.
  - intuition.
  - destruct (eqb k k') eqn:E.
    + apply eqb_eq in E. subst k'. split; [discriminate | intuition].
    + rewrite IH. split.
      * intros Hn [Heq | Hin]; [| contradiction].
        subst k'. rewrite eqb_refl' in E. discriminate E.
      * intuition.
Qed.

Lemma dict_getd_set (dflt : V) (k k0 : K) (v : V) (d : list (K * V)) :
  dict_getd eqb dflt k0 (dict_set eqb k v d) =
  if eqb k0 k then v else dict_getd eqb dflt k0 d.
Proof.
  unfold dict_getd. destruct (eqb k0 k) eqn:E.
  - apply eqb_eq in E. subst k0. rewrite dict_get_set_same. reflexivity.
  - rewrite dict_get_set_other; [reflexivity |].
    intros ->. rewrite eqb_refl' in E. discriminate E.
Qed.

Lemma dict_set_In (k k0 : K) (v v0 : V) (d : list (K * V)) :
  In (k0, v0) (dict_set eqb k v d) -> v0 = v \/ In (k0, v0) d.
Proof.
  induction d as [| [k' v'] d IH]; simpl.
  - intros [Heq | []]. inversion Heq. left. reflexivity.
  - destruct (eqb k k'); simpl.
    + intros [Heq | Hin]; [inversion Heq; left; reflexivity | right; right; exact Hin].
    + intros [Heq | Hin]; [right; left; exact Heq |].
      destruct (IH Hin) as [-> | H]; [left; reflexivity | right; right; exact H].
Qed.

Lemma length_dict_set (k : K) (v : V) (d : list (K * V)) :
  length (dict_set eqb k v d) =
  match dict_get eqb k d with
  | Some _ => length d
  | None => S (length d)
  end.
Proof.
  induction d as [| [k' v'] d IH]; simpl.
  - reflexivity.
  - destruct (eqb k k') eqn:E; simpl.
    + reflexivity.
    + rewrite IH. destruct (dict_get eqb k d); reflexivity.
Qed.

End DictFacts.

(** *** Counters *)

Section CounterFacts.
Context {K : Type}.
Variable eqb : K -> K -> bool.
Hypothesis eqb_eq : forall a b, eqb a b = true <-> a = b.

Local Abbreviation counter_step := (counter_step eqb).

Lemma counter_step_sum (c : list (K * nat)) (k : K) :
  list_sum (values (counter_step c k)) = list_sum (values c) + 1.
Proof.
  unfold counter_step, dict_getd.
  induction c as [| [k' n] c IH]; simpl.
  - reflexivity.
  - destruct (eqb k k') eqn:E; simpl.
    + lia.
    + rewrite IH. lia.
Qed.

Lemma counter_fold_sum (items : list K) (c : list (K * nat)) :
  list_sum (values (fold_left counter_step items c)) =
  list_sum (values c) + length items.
Proof.
  revert c. induction items as [| k items IH]; intros c; simpl.
  - lia.
  - rewrite IH, counter_step_sum. lia.
Qed.

Lemma counter_step_positive (c : list (K * nat)) (k : K) :
  Forall (fun n => 1 <= n) (values c) ->
  Forall (fun n => 1 <= n) (values (counter_step c k)).
Proof.
  unfold counter_step. generalize (dict_getd eqb 0 k c). intros m.
  induction c as [| [k' n] c IH]; simpl; intros H.
  - constructor; [lia | constructor].
  - inversion H; subst. destruct (eqb k k'); simpl.
    + constructor; [lia | assumption].
    + constructor; [assumption | apply IH; assumption].
Qed.

Lemma counter_fold_positive (items : list K) (c : list (K * nat)) :
  Forall (fun n => 1 <= n) (values c) ->
  Forall (fun n => 1 <= n) (values (fold_left counter_step items c)).
Proof.
  revert c. induction items as [| k items IH]; intros c H; simpl.
  - exact H.
  - apply IH, counter_step_positive, H.
Qed.

Lemma counter_fold_NoDup (items : list K) (c : list (K * nat)) :
  NoDup (keys c) -> NoDup (keys (fold_left counter_step items c)).
Proof.
  revert c. induction items as [| k items IH]; intros c H; simpl.
  - exact H.
  - apply IH. unfold counter_step. apply keys_set_NoDup; assumption.
Qed.

Lemma counter_fold_keys (items : list K) (c : list (K * nat)) (k : K) :
  In k (keys (fold_left counter_step items c)) <->
  In k (keys c) \/ In k items.
Proof.
  revert c. induction items as [| k0 items IH]; intros c; simpl.
  - intuition.
  - rewrite IH. unfold counter_step. rewrite keys_set_In by assumption.
    intuition congruence.
Qed.

Lemma counter_fold_get (items : list K) (c : list (K * nat)) (k : K) :
  dict_getd eqb 0 k (fold_left counter_step items c) =
  dict_getd eqb 0 k c + length (filter (eqb k) items).
Proof.
  revert c. induction items as [| k0 items IH]; intros c; simpl.
  - lia.
  - rewrite IH. unfold counter_step at 1. rewrite dict_getd_set by assumption.
    destruct (eqb k k0) eqn:E; simpl.
    + apply eqb_eq in E. subst k0. lia.
    + reflexivity.
Qed.
End CounterFacts.

(* ================================================================= *)
(** ** Facts about the class builder *)

Lemma string_eqb_eq (a b : string) : String.eqb a b = true <-> a = b.
Proof. apply String.eqb_eq. Qed.

Lemma enumerate_fst {A : Type} (l : list A) :
  map fst (enumerate l) = seq 0 (length l).
Proof.
  unfold enumerate. generalize 0 as s.
  induction l as [| a l IH]; intros s; simpl.
  - reflexivity.
  - rewrite IH. reflexivity.
Qed.

Lemma enumerate_snd {A : Type} (l : list A) :
  map snd (enumerate l) = l.
Proof.
  unfold enumerate. generalize 0 as s.
  induction l as [| a l IH]; intros s; simpl.
  - reflexivity.
  - rewrite IH. reflexivity.
Qed.

Lemma enumerate_In {A : Type} (l : list A) (i : nat) (a : A) :
  In (i, a) (enumerate l) <-> nth_error l i = Some a.
Proof.
  unfold enumerate.
  assert (G : forall s, In (i, a) (combine (seq s (length l)) l) <->
                        s <= i /\ nth_error l (i - s) = Some a).
  { induction l as [| b l IH]; intros s; simpl.
    - split; [intros [] |]. intros [_ H]. destruct (i - s); discriminate H.
    - rewrite IH. split.
      + intros [Heq | [Hle Hn]].
        * inversion Heq; subst. rewrite Nat.sub_diag. split; [lia | reflexivity].
        * split; [lia |]. replace (i - s) with (S (i - S s)) by lia. exact Hn.
      + intros [Hle Hn]. destruct (Nat.eq_dec s i) as [-> | Hne].
        * left. rewrite Nat.sub_diag in Hn. simpl in Hn. congruence.
        * right. split; [lia |].
          replace (i - s) with (S (i - S s)) in Hn by lia. exact Hn. }
  rewrite G, Nat.sub_0_r. intuition lia.
Qed.

Lemma group_step_perm (g : list (string * list nat)) (ik : nat * string) :
  Permutation (concat (values (group_step g ik))) (concat (values g) ++ [fst ik]).
Proof.
  unfold group_step, dict_getd. destruct ik as [i k]; simpl.
  induction g as [| [k' m] g IH]; simpl.
  - apply Permutation_refl.
  - destruct (String.eqb k k') eqn:E; simpl.
    + rewrite <- !app_assoc. apply Permutation_app_head, Permutation_app_comm.
    + rewrite <- app_assoc. apply Permutation_app_head, IH.
Qed.

Lemma groups_fold_perm (iks : list (nat * string)) (g : list (string * list nat)) :
  Permutation (concat (values (fold_left group_step iks g)))
              (concat (values g) ++ map fst iks).
Proof.
  revert g. induction iks as [| ik iks IH]; intros g; simpl.
  - rewrite app_nil_r. apply Permutation_refl.
  - eapply Permutation_trans; [apply IH |].
    eapply Permutation_trans;
      [apply Permutation_app_tail, group_step_perm |].
    rewrite <- app_assoc. apply Permutation_refl.
Qed.

Lemma group_step_size (g : list (string * list nat)) (ik : nat * string) :
  map class_size (group_step g ik) =
  counter_step String.eqb (map class_size g) (snd ik).
Proof.
  unfold group_step, counter_step, dict_getd. destruct ik as [i k]; simpl.
  induction g as [| [k' m] g IH]; simpl.
  - reflexivity.
  - destruct (String.eqb k k') eqn:E; simpl.
    + unfold class_size at 1; simpl. rewrite length_app; simpl. reflexivity.
    + rewrite IH. reflexivity.
Qed.

Lemma groups_fold_size (iks : list (nat * string)) (g : list (string * list nat)) :
  map class_size (fold_left group_step iks g) =
  fold_left (counter_step String.eqb) (map snd iks) (map class_size g).
Proof.
  revert g. induction iks as [| ik iks IH]; intros g; simpl.
  - reflexivity.
  - rewrite IH, group_step_size. reflexivity.
Qed.

Lemma groups_fold_NoDup (iks : list (nat * string)) (g : list (string * list nat)) :
  NoDup (keys g) -> NoDup (keys (fold_left group_step iks g)).
Proof.
  revert g. induction iks as [| ik iks IH]; intros g H; simpl.
  - exact H.
  - apply IH. unfold group_step. apply keys_set_NoDup; [apply string_eqb_eq | exact H].
Qed.

Lemma groups_fold_get (iks : list (nat * string)) (g : list (string * list nat))
    (k : string) :
  dict_getd String.eqb [] k (fold_left group_step iks g) =
  dict_getd String.eqb [] k g
    ++ map fst (filter (fun ik => String.eqb k (snd ik)) iks).
Proof.
  revert g. induction iks as [| [i k0] iks IH]; intros g; simpl.
  - rewrite app_nil_r. reflexivity.
  - rewrite IH. unfold group_step at 1; simpl.
    rewrite dict_getd_set by apply string_eqb_eq.
    destruct (String.eqb k k0) eqn:E; simpl.
    + apply String.eqb_eq in E. subst k0. rewrite <- app_assoc. reflexivity.
    + reflexivity.
Qed.

(** The builder's two dictionaries, read off the list of composite keys. *)
Lemma builder_counts_are_group_sizes (ec_keys : list string) :
  map class_size (fold_left group_step (enumerate ec_keys) []) =
  Counter String.eqb ec_keys.
Proof.
  rewrite groups_fold_size, enumerate_snd. reflexivity.
Qed.

(** The members of the class stored under [k] are exactly the positions at
    which the composite key is [k], in increasing order. *)
Lemma builder_members (ec_keys : list string) (k : string) (m : list nat) :
  In (k, m) (fold_left group_step (enumerate ec_keys) []) ->
  forall i, In i m <-> nth_error ec_keys i = Some k.
Proof.
  intros Hin i.
  assert (Hnd : NoDup (keys (fold_left group_step (enumerate ec_keys) [])))
    by (apply groups_fold_NoDup; constructor).
  pose proof (In_dict_get String.eqb string_eqb_eq k m _ Hnd Hin) as Hget.
  pose proof (groups_fold_get (enumerate ec_keys) [] k) as Hchar.
  unfold dict_getd at 1 in Hchar. rewrite Hget in Hchar. simpl in Hchar.
  subst m. rewrite in_map_iff. split.
  - intros [[i' k'] [Hfst Hf]]. simpl in Hfst. subst i'.
    apply filter_In in Hf. destruct Hf as [Hen Heq]. simpl in Heq.
    apply String.eqb_eq in Heq. subst k'. apply enumerate_In. exact Hen.
  - intros Hn. exists (i, k). split; [reflexivity |].
    apply filter_In. split; [apply enumerate_In; exact Hn |].
    simpl. apply String.eqb_refl.
Qed.

Lemma builder_class_exists (ec_keys : list string) (i : nat) (k : string) :
  nth_error ec_keys i = Some k ->
  exists m, In (k, m) (fold_left group_step (enumerate ec_keys) []).
Proof.
  intros Hn.
  destruct (dict_get String.eqb k (fold_left group_step (enumerate ec_keys) []))
    as [m |] eqn:Hget.
  - exists m. apply (dict_get_In String.eqb string_eqb_eq). exact Hget.
  - exfalso.
    pose proof (groups_fold_get (enumerate ec_keys) [] k) as Hchar.
    unfold dict_getd at 1 in Hchar. rewrite Hget in Hchar. simpl in Hchar.
    assert (Hin : In i (map fst (filter (fun ik => String.eqb k (snd ik))
                                        (enumerate ec_keys)))).
    { apply in_map_iff. exists (i, k). split; [reflexivity |].
      apply filter_In. split; [apply enumerate_In; exact Hn |].
      simpl. apply String.eqb_refl. }
    rewrite <- Hchar in Hin. exact Hin.
Qed.

Lemma concat_NoDup_unique {A B : Type} (g : list (A * list B))
    (e1 e2 : A * list B) (x : B) :
  NoDup (concat (values g)) ->
  In e1 g -> In e2 g -> In x (snd e1) -> In x (snd e2) -> e1 = e2.
Proof.
  induction g as [| e g IH]; simpl; intros Hnd H1 H2 Hx1 Hx2.
  - contradiction.
  - assert (Hsplit : forall e', In e' g -> In x (snd e') -> In x (concat (values g))).
    { intros e' He' Hx'. apply in_concat. exists (snd e'). split; [| exact Hx'].
      apply in_map. exact He'. }
    pose proof (NoDup_app_remove_l _ _ Hnd) as Hnd'.
    assert (Hdisj : In x (snd e) -> In x (concat (values g)) -> False).
    { intros Ha Hb. revert Hnd Ha Hb. generalize (concat (values g)) as r.
      generalize (snd e) as l. clear. induction l as [| a l IH]; simpl; intros r Hnd Ha Hb.
      - contradiction.
      - inversion Hnd as [| y t Hnotin Hnd']; subst. destruct Ha as [-> | Ha].
        + apply Hnotin. apply in_or_app. right. exact Hb.
        + apply (IH r Hnd' Ha Hb). }
    destruct H1 as [-> | H1], H2 as [-> | H2].
    + reflexivity.
    + exfalso. apply Hdisj; [exact Hx1 | apply (Hsplit e2); assumption].
    + exfalso. apply Hdisj; [exact Hx2 | apply (Hsplit e1); assumption].
    + apply IH; assumption.
Qed.

Lemma get_loc_In (c : string) (cols : list string) :
  In c cols -> exists j, get_loc c cols = Ok j.
Proof.
  induction cols as [| c' cols IH]; simpl; intros Hin.
  - contradiction.
  - destruct (String.eqb c c') eqn:E.
    + exists 0. reflexivity.
    + destruct Hin as [-> | Hin].
      * rewrite String.eqb_refl in E. discriminate E.
      * destruct (IH Hin) as [j Hj]. exists (S j). rewrite Hj. reflexivity.
Qed.

Lemma get_loc_Ok (c : string) (cols : list string) (j : nat) :
  get_loc c cols = Ok j -> nth_error cols j = Some c.
Proof.
  revert j. induction cols as [| c' cols IH]; simpl; intros j H.
  - discriminate H.
  - destruct (String.eqb c c') eqn:E.
    + apply String.eqb_eq in E. inversion H; subst. reflexivity.
    + apply bind_Ok in H. destruct H as [j' [Hj' Hj]].
      inversion Hj; subst. simpl. apply IH. exact Hj'.
Qed.

Lemma getitem_In (df : DataFrame) (c : string) :
  In c (columns df) -> exists vals, getitem df c = Ok vals /\ length vals = len df.
Proof.
  intros Hin. unfold getitem. destruct (get_loc_In c _ Hin) as [j Hj].
  rewrite Hj; simpl. eexists. split; [reflexivity |]. apply length_map.
Qed.

Lemma getitems_incl (df : DataFrame) (cols : list string) :
  incl cols (columns df) ->
  exists sub, getitems df cols = Ok sub /\ length sub = len df.
Proof.
  intros Hincl. unfold getitems.
  assert (G : exists js, mapM (fun c => get_loc c (columns df)) cols = Ok js).
  { induction cols as [| c cols IH]; simpl.
    - exists []. reflexivity.
    - destruct (get_loc_In c (columns df)) as [j Hj];
        [apply Hincl; left; reflexivity |].
      destruct IH as [js Hjs]; [intros x Hx; apply Hincl; right; exact Hx |].
      exists (j :: js). rewrite Hj; simpl. rewrite Hjs; simpl. reflexivity. }
  destruct G as [js Hjs]. rewrite Hjs; simpl.
  eexists. split; [reflexivity |]. apply length_map.
Qed.

Lemma getitems_length (df : DataFrame) (cols : list string)
    (sub : list (list cell)) :
  getitems df cols = Ok sub -> length sub = len df.
Proof.
  unfold getitems. intros H. apply bind_Ok in H. destruct H as [js [_ H]].
  inversion H; subst. apply length_map.
Qed.

(** What the builder returns, in terms of the list of composite keys. *)
Lemma compute_equivalence_classes_Ok (df : DataFrame) (qis : list string)
    (ec_counts : list (string * nat)) (ec_groups : list (string * list nat)) :
  compute_equivalence_classes df qis = Ok (ec_counts, ec_groups) ->
  exists sub,
    getitems df qis = Ok sub /\
    length sub = len df /\
    ec_counts = Counter String.eqb (map ec_key sub) /\
    ec_groups = fold_left group_step (enumerate (map ec_key sub)) [].
Proof.
  unfold compute_equivalence_classes. intros H.
  apply bind_Ok in H. destruct H as [sub [Hsub H]].
  inversion H; subst. exists sub.
  repeat split; try assumption. apply (getitems_length _ _ _ Hsub).
Qed.

Lemma compute_equivalence_classes_total (df : DataFrame) (qis : list string) :
  incl qis (columns df) ->
  exists ec_counts ec_groups,
    compute_equivalence_classes df qis = Ok (ec_counts, ec_groups).
Proof.
  intros Hincl. destruct (getitems_incl df qis Hincl) as [sub [Hsub _]].
  unfold compute_equivalence_classes. rewrite Hsub; simpl.
  eexists; eexists; reflexivity.
Qed.

Lemma builder_partition (ec_keys : list string) :
  let ec_counts := Counter String.eqb ec_keys in
  let ec_groups := fold_left group_step (enumerate ec_keys) [] in
  list_sum (values ec_counts) = length ec_keys /\
  map class_size ec_groups = ec_counts /\
  Permutation (concat (values ec_groups)) (seq 0 (length ec_keys)) /\
  (forall i, i < length ec_keys ->
             exists! ec, In ec ec_groups /\ In i (snd ec)).
Proof.
  intros ec_counts ec_groups.
  assert (Hperm : Permutation (concat (values ec_groups)) (seq 0 (length ec_keys))).
  { unfold ec_groups.
    eapply Permutation_trans; [apply groups_fold_perm |].
    simpl. rewrite enumerate_fst. apply Permutation_refl. }
  split; [| split; [| split]].
  - unfold ec_counts, Counter. rewrite counter_fold_sum. reflexivity.
  - apply builder_counts_are_group_sizes.
  - exact Hperm.
  - intros i Hi.
    assert (Hnd : NoDup (concat (values ec_groups))).
    { apply (Permutation_NoDup (Permutation_sym Hperm)), seq_NoDup. }
    assert (Hin : In i (concat (values ec_groups))).
    { apply (Permutation_in _ (Permutation_sym Hperm)), in_seq. lia. }
    apply in_concat in Hin. destruct Hin as [m [Hm Him]].
    apply in_map_iff in Hm. destruct Hm as [ec [Hsnd Hec]]. subst m.
    exists ec. split; [split; assumption |].
    intros ec' [Hec' Him']. apply (concat_NoDup_unique ec_groups ec ec' i); assumption.
Qed.

(** C2.  For every data frame and every list of quasi-identifiers taken from
    its columns, the class builder returns its two dictionaries, and they
    partition the records: the class sizes in [ec_counts] add up to the
    number of records, they are the lengths of the membership lists of
    [ec_groups], the membership lists taken together are a rearrangement of
    the record indices [0 .. len(df)-1], and each record index is in the
    membership list of exactly one class. *)
Theorem C2_equivalence_classes_partition (df : DataFrame) (qis : list string) :
  incl qis (columns df) ->
  exists ec_counts ec_groups,
    compute_equivalence_classes df qis = Ok (ec_counts, ec_groups) /\
    list_sum (values ec_counts) = len df /\
    map class_size ec_groups = ec_counts /\
    Permutation (concat (values ec_groups)) (seq 0 (len df)) /\
    (forall i, i < len df -> exists! ec, In ec ec_groups /\ In i (snd ec)).
Proof.
  intros Hincl.
  destruct (compute_equivalence_classes_total df qis Hincl) as [c [g Hc]].
  exists c, g. split; [exact Hc |].
  destruct (compute_equivalence_classes_Ok _ _ _ _ Hc) as [sub [_ [Hlen [-> ->]]]].
  pose proof (builder_partition (map ec_key sub)) as H. simpl in H.
  rewrite length_map, Hlen in H. exact H.
Qed.

Lemma C2_witness :
  incl ["city"] (columns df_aabbb) /\
  exists ec_counts ec_groups,
    compute_equivalence_classes df_aabbb ["city"] = Ok (ec_counts, ec_groups) /\
    list_sum (values ec_counts) = len df_aabbb /\
    map class_size ec_groups = ec_counts /\
    Permutation (concat (values ec_groups)) (seq 0 (len df_aabbb)) /\
    (forall i, i < len df_aabbb -> exists! ec, In ec ec_groups /\ In i (snd ec)).
Proof.
  assert (H : incl ["city"] (columns df_aabbb)).
  { intros c [<- | []]. simpl. left. reflexivity. }
  split; [exact H |].
  apply (C2_equivalence_classes_partition df_aabbb ["city"] H).
Defined.

(* ================================================================= *)
(** ** Facts about the quasi-identifier classifier *)

Lemma eq_star_true (v : cell) : eq_star v = true <-> v = CStr "*".
Proof.
  destruct v as [s | z |]; simpl.
  - rewrite String.eqb_eq. split; congruence.
  - split; discriminate.
  - split; discriminate.
Qed.

Lemma wf_df_distinct (df : DataFrame) :
  wf_df df = true -> distinctb (columns df) = true.
Proof.
  unfold wf_df. intros H. apply andb_prop in H. apply H.
Qed.

Lemma wf_df_row_length (df : DataFrame) (r : list cell) :
  wf_df df = true -> In r (rows df) -> length r = length (columns df).
Proof.
  unfold wf_df. intros H Hr. apply andb_prop in H. destruct H as [_ H].
  rewrite forallb_forall in H. apply Nat.eqb_eq. apply H. exact Hr.
Qed.

Lemma existsb_eqb_In (c : string) (l : list string) :
  existsb (String.eqb c) l = true <-> In c l.
Proof.
  rewrite existsb_exists. split.
  - intros [x [Hx E]]. apply String.eqb_eq in E. subst x. exact Hx.
  - intros H. exists c. split; [exact H | apply String.eqb_refl].
Qed.

Lemma get_loc_nth (cols : list string) (j : nat) (c : string) :
  distinctb cols = true -> nth_error cols j = Some c -> get_loc c cols = Ok j.
Proof.
  revert j. induction cols as [| c' cols IH]; intros j Hd Hn.
  - destruct j; discriminate Hn.
  - simpl in Hd. apply andb_prop in Hd. destruct Hd as [Hnotin Hd].
    destruct j as [| j]; simpl in *.
    + inversion Hn; subst. rewrite String.eqb_refl. reflexivity.
    + destruct (String.eqb c c') eqn:E.
      * apply String.eqb_eq in E. subst c'. exfalso.
        apply nth_error_In in Hn. apply existsb_eqb_In in Hn.
        rewrite Hn in Hnotin. discriminate Hnotin.
      * rewrite (IH j Hd Hn). reflexivity.
Qed.

Lemma identify_loop_filter (df : DataFrame) (cols acc : list string) :
  incl cols (columns df) ->
  identify_loop df cols acc = Ok (acc ++ filter (qi_test df) cols).
Proof.
  revert acc. induction cols as [| c cols IH]; intros acc Hincl; simpl.
  - rewrite app_nil_r. reflexivity.
  - assert (Hc : In c (columns df)) by (apply Hincl; left; reflexivity).
    assert (Hrest : incl cols (columns df))
      by (intros x Hx; apply Hincl; right; exact Hx).
    destruct (getitem_In df c Hc) as [vals [Hvals _]].
    unfold qi_test at 1. rewrite Hvals; simpl.
    destruct (forallb eq_star vals); simpl.
    + apply IH. exact Hrest.
    + rewrite IH by exact Hrest. rewrite <- app_assoc. reflexivity.
Qed.

Lemma identify_quasi_identifiers_filter (df : DataFrame) :
  identify_quasi_identifiers df = Ok (filter (qi_test df) (columns df)).
Proof.
  unfold identify_quasi_identifiers.
  rewrite identify_loop_filter by apply incl_refl. reflexivity.
Qed.

Lemma identify_quasi_identifiers_incl (df : DataFrame) (qis : list string) :
  identify_quasi_identifiers df = Ok qis -> incl qis (columns df).
Proof.
  rewrite identify_quasi_identifiers_filter. intros H. inversion H; subst.
  intros c Hc. apply filter_In in Hc. apply Hc.
Qed.

Lemma qi_test_spec (df : DataFrame) (j : nat) (col : string) :
  wf_df df = true ->
  nth_error (columns df) j = Some col ->
  qi_test df col = true <->
  exists r, In r (rows df) /\ iloc j r <> CStr "*".
Proof.
  intros Hwf Hn. unfold qi_test, getitem.
  rewrite (get_loc_nth _ _ _ (wf_df_distinct _ Hwf) Hn); simpl.
  rewrite negb_true_iff. split.
  - intros H. induction (rows df) as [| r rs IH]; simpl in H.
    + discriminate H.
    + destruct (eq_star (iloc j r)) eqn:E; simpl in H.
      * destruct (IH H) as [r' [Hr' Hne]]. exists r'. split; [right |]; assumption.
      * exists r. split; [left; reflexivity |].
        intros Heq. apply eq_star_true in Heq. congruence.
  - intros [r [Hr Hne]].
    destruct (forallb eq_star (map (iloc j) (rows df))) eqn:E; [| reflexivity].
    exfalso. apply Hne. apply eq_star_true.
    rewrite forallb_forall in E. apply E. apply in_map. exact Hr.
Qed.

(** C4.  On every data frame the classifier returns a list [qis] such that:
    a column of the frame is in [qis] if and only if some record's value in
    that column differs from ['*']; every member of [qis] is a column of
    the frame; and [qis] lists its members in the order in which they occur
    in [df.columns] (it is [df.columns] with the other columns removed). *)
Theorem C4_identify_quasi_identifiers (df : DataFrame) :
  wf_df df = true ->
  exists qis,
    identify_quasi_identifiers df = Ok qis /\
    (forall j col, nth_error (columns df) j = Some col ->
       (In col qis <-> exists r, In r (rows df) /\ iloc j r <> CStr "*")) /\
    incl qis (columns df) /\
    qis = filter (fun c => existsb (String.eqb c) qis) (columns df).
Proof.
  intros Hwf. exists (filter (qi_test df) (columns df)).
  split; [apply identify_quasi_identifiers_filter |].
  split; [| split].
  - intros j col Hn. rewrite filter_In, (qi_test_spec df j col Hwf Hn).
    split; [intros [_ H]; exact H |].
    intros H. split; [apply (nth_error_In _ _ Hn) | exact H].
  - intros c Hc. apply filter_In in Hc. apply Hc.
  - apply filter_ext_in. intros c Hc.
    destruct (qi_test df c) eqn:E.
    + symmetry. apply existsb_eqb_In. apply filter_In. split; assumption.
    + symmetry. apply not_true_is_false. intros H.
      apply existsb_eqb_In in H. apply filter_In in H. destruct H as [_ H].
      congruence.
Qed.

Lemma C4_witness :
  wf_df df_aabbb = true /\
  exists qis,
    identify_quasi_identifiers df_aabbb = Ok qis /\
    (forall j col, nth_error (columns df_aabbb) j = Some col ->
       (In col qis <-> exists r, In r (rows df_aabbb) /\ iloc j r <> CStr "*")) /\
    incl qis (columns df_aabbb) /\
    qis = filter (fun c => existsb (String.eqb c) qis) (columns df_aabbb).
Proof.
  split; [reflexivity |].
  apply (C4_identify_quasi_identifiers df_aabbb). reflexivity.
Defined.

(* ================================================================= *)
(** ** Facts about the risk metrics *)

Lemma qmax_In (x : Q) (l : list Q) : In (qmax x l) (x :: l).
Proof.
  revert x. induction l as [| y l IH]; intros x.
  - left. reflexivity.
  - unfold qmax; simpl. fold (qmax (if Qle_bool y x then x else y) l).
    destruct (IH (if Qle_bool y x then x else y)) as [H | H].
    + destruct (Qle_bool y x); rewrite <- H.
      * left. reflexivity.
      * right. left. reflexivity.
    + right. right. exact H.
Qed.

Lemma qmax_upper (x : Q) (l : list Q) :
  Forall (fun y => (y <= qmax x l)%Q) (x :: l).
Proof.
  assert (G : forall l x, (x <= qmax x l)%Q /\
                          Forall (fun y => (y <= qmax x l)%Q) l).
  { clear. induction l as [| y l IH]; intros x.
    - split; [apply Qle_refl | constructor].
    - unfold qmax; simpl. fold (qmax (if Qle_bool y x then x else y) l).
      destruct (IH (if Qle_bool y x then x else y)) as [Hm Hall].
      destruct (Qle_bool y x) eqn:E.
      + apply Qle_bool_iff in E. split; [exact Hm |].
        constructor; [apply (Qle_trans _ x); assumption | exact Hall].
      + assert (Hlt : (x < y)%Q).
        { apply Qnot_le_lt. intros Hle. apply Qle_bool_iff in Hle. congruence. }
        split; [apply (Qle_trans _ y); [apply Qlt_le_weak |]; assumption |].
        constructor; assumption. }
  destruct (G l x) as [H1 H2]. constructor; assumption.
Qed.

Lemma risk_range (n : nat) : 1 <= n -> (0 < 1 / Qn n /\ 1 / Qn n <= 1)%Q.
Proof.
  intros H. pose proof (Qn_pos n H) as Hp. split.
  - apply Qlt_shift_div_l; [exact Hp |]. rewrite Qmult_0_l. reflexivity.
  - apply Qle_shift_div_r; [exact Hp |]. rewrite Qmult_1_l.
    unfold Qn, Qle; simpl. lia.
Qed.

Lemma risks_Ok (sizes : list nat) :
  Forall (fun n => 1 <= n) sizes ->
  mapM (fun ec_size => pydiv 1 (Qn ec_size)) sizes =
  Ok (map (fun ec_size => (1 / Qn ec_size)%Q) sizes).
Proof.
  intros H. apply mapM_Ok. intros n Hn. apply pydiv_Ok.
  rewrite Forall_forall in H. apply H. exact Hn.
Qed.

Lemma calculate_reidentification_risks_total (ec_counts : list (string * nat)) :
  Forall (fun n => 1 <= n) (values ec_counts) ->
  exists r, calculate_reidentification_risks ec_counts = Ok r /\
            risks r = map (fun ec_size => (1 / Qn ec_size)%Q) (values ec_counts).
Proof.
  intros Hpos. unfold calculate_reidentification_risks.
  rewrite (risks_Ok _ Hpos); simpl.
  destruct (values ec_counts) as [| s ss] eqn:Ev; simpl.
  - eexists. split; reflexivity.
  - eexists. split; reflexivity.
Qed.

(** The program's summation computes the sum of the terms. *)
Lemma qsum_fold_sum_terms (l : list Q) (a : Q) :
  (fold_left Qplus l a == a + sum_terms l)%Q.
Proof.
  revert a. induction l as [| x l IH]; intros a; simpl.
  - rewrite Qplus_0_r. reflexivity.
  - rewrite IH. ring.
Qed.

Lemma qsum_sum_terms (l : list Q) : (qsum l == sum_terms l)%Q.
Proof.
  unfold qsum. rewrite qsum_fold_sum_terms. apply Qplus_0_l.
Qed.



(* ================================================================= *)
(** ** Facts about the equivalence-class statistics *)

Lemma nmin_spec (x : nat) (l : list nat) :
  In (nmin x l) (x :: l) /\ Forall (fun y => nmin x l <= y) (x :: l).
Proof.
  revert x. induction l as [| y l IH]; intros x.
  - split; [left; reflexivity | repeat constructor].
  - unfold nmin; simpl. fold (nmin (Nat.min x y) l).
    destruct (IH (Nat.min x y)) as [Hin Hall].
    inversion Hall as [| a b Hm Hl]; subst. split.
    + destruct Hin as [Hin | Hin]; [| right; right; exact Hin].
      rewrite <- Hin. destruct (Nat.min_spec x y) as [[_ ->] | [_ ->]].
      * left. reflexivity.
      * right. left. reflexivity.
    + constructor; [lia |]. constructor; [lia | exact Hl].
Qed.

Lemma nmax_spec (x : nat) (l : list nat) :
  In (nmax x l) (x :: l) /\ Forall (fun y => y <= nmax x l) (x :: l).
Proof.
  revert x. induction l as [| y l IH]; intros x.
  - split; [left; reflexivity | repeat constructor].
  - unfold nmax; simpl. fold (nmax (Nat.max x y) l).
    destruct (IH (Nat.max x y)) as [Hin Hall].
    inversion Hall as [| a b Hm Hl]; subst. split.
    + destruct Hin as [Hin | Hin]; [| right; right; exact Hin].
      rewrite <- Hin. destruct (Nat.max_spec x y) as [[_ ->] | [_ ->]].
      * right. left. reflexivity.
      * left. reflexivity.
    + constructor; [lia |]. constructor; [lia | exact Hl].
Qed.

Lemma sum_ones {A : Type} (l : list A) :
  list_sum (map (fun _ => 1) l) = length l.
Proof.
  induction l as [| a l IH]; simpl; [reflexivity | rewrite IH; reflexivity].
Qed.

Lemma percentage_Ok (count total_records : nat) :
  percentage count total_records =
  Ok (if 0 <? total_records
      then (Qn count / Qn total_records * 100)%Q else 0%Q).
Proof.
  unfold percentage. destruct (0 <? total_records) eqn:E; [| reflexivity].
  apply Nat.ltb_lt in E. rewrite pydiv_Ok by lia. reflexivity.
Qed.

(** The statistics never fail, and this is what they hold. *)
Lemma calculate_equivalence_class_metrics_Ok
    (ec_counts : list (string * nat)) (total_records : nat) :
  calculate_equivalence_class_metrics ec_counts total_records =
  Ok {| num_equivalence_classes := length ec_counts;
        min_ec_size := match values ec_counts with
                       | [] => 0
                       | s :: ss => nmin s ss
                       end;
        max_ec_size := match values ec_counts with
                       | [] => 0
                       | s :: ss => nmax s ss
                       end;
        avg_ec_size := match values ec_counts with
                       | [] => 0%Q
                       | _ :: _ => (Qn (list_sum (values ec_counts))
                                    / Qn (length ec_counts))%Q
                       end;
        unique_records :=
          length (filter (fun size => size =? 1) (values ec_counts));
        unique_records_percentage :=
          if 0 <? total_records
          then (Qn (length (filter (fun size => size =? 1) (values ec_counts)))
                / Qn total_records * 100)%Q
          else 0%Q;
        ec_size_distribution := Counter Nat.eqb (values ec_counts) |}.
Proof.
  unfold calculate_equivalence_class_metrics.
  rewrite sum_ones.
  fold (percentage (length (filter (fun size => size =? 1) (values ec_counts)))
                   total_records).
  rewrite percentage_Ok.
  assert (Hlen : length (values ec_counts) = length ec_counts)
    by apply length_map.
  destruct ec_counts as [| [k s] c].
  - reflexivity.
  - cbn [values map snd]. cbn [values map snd] in Hlen.
    rewrite (pydiv_Ok _ (length (s :: map snd c))) by (simpl; lia).
    cbn [bind]. rewrite Hlen. reflexivity.
Qed.

(** The smallest class size is an actual class size and a lower bound of
    all of them (and 0 when there is no class). *)
Lemma min_ec_size_is_minimum (ec_counts : list (string * nat))
    (total_records : nat) (m : ec_metrics) :
  calculate_equivalence_class_metrics ec_counts total_records = Ok m ->
  (ec_counts = [] /\ min_ec_size m = 0) \/
  (In (min_ec_size m) (values ec_counts) /\
   Forall (fun s => min_ec_size m <= s) (values ec_counts)).
Proof.
  rewrite calculate_equivalence_class_metrics_Ok. intros H.
  inversion H; subst; clear H. cbn [min_ec_size].
  destruct ec_counts as [| [k s] c].
  - left. split; reflexivity.
  - right. cbn [values map snd]. apply nmin_spec.
Qed.

(* ================================================================= *)
(** ** Facts about the information loss *)

Lemma column_info_loss_In (df : DataFrame) (col : string) :
  In col (columns df) -> exists cl, column_info_loss df col = Ok cl.
Proof.
  intros Hin. unfold column_info_loss.
  destruct (getitem_In df col Hin) as [vals [Hv _]]. rewrite Hv. cbn [bind].
  rewrite !percentage_Ok. cbn [bind]. eexists. reflexivity.
Qed.

Lemma column_info_loss_empty (df : DataFrame) (col : string) :
  rows df = [] -> In col (columns df) ->
  column_info_loss df col =
  Ok {| distinct_values := 0; asterisk_percentage := 0;
        generalized_percentage := 0; total_loss_percentage := 0 |}.
Proof.
  intros Hrows Hin. unfold column_info_loss, getitem, len.
  destruct (get_loc_In col _ Hin) as [j Hj]. rewrite Hj, Hrows. reflexivity.
Qed.

Lemma info_loss_loop_total (df : DataFrame) (cols : list string)
    (acc : list (string * column_loss)) :
  incl cols (columns df) ->
  exists info,
    info_loss_loop df cols acc = Ok info /\
    (NoDup (keys acc) -> NoDup (keys info)) /\
    (forall k, In k (keys info) <-> In k (keys acc) \/ In k cols) /\
    (forall P : column_loss -> Prop,
       (forall col cl, In col cols -> column_info_loss df col = Ok cl -> P cl) ->
       Forall P (values acc) -> Forall P (values info)).
Proof.
  revert acc. induction cols as [| c cols IH]; intros acc Hincl; simpl.
  - exists acc. split; [reflexivity |]. split; [auto |]. split; [intuition |].
    auto.
  - destruct (column_info_loss_In df c) as [cl Hcl];
      [apply Hincl; left; reflexivity |].
    rewrite Hcl. cbn [bind].
    destruct (IH (dict_set String.eqb c cl acc)) as [info [Hinfo [Hnd [Hkeys HP]]]];
      [intros x Hx; apply Hincl; right; exact Hx |].
    exists info. split; [exact Hinfo |]. split; [| split].
    + intros H. apply Hnd. apply keys_set_NoDup; [apply string_eqb_eq | exact H].
    + intros k. rewrite Hkeys, keys_set_In by apply string_eqb_eq.
      intuition congruence.
    + intros P Hcols Hacc. apply HP.
      * intros col cl' Hc. apply Hcols. right. exact Hc.
      * assert (Pcl : P cl) by (apply (Hcols c cl); [left; reflexivity | exact Hcl]).
        clear - Hacc Pcl. induction acc as [| [k' v'] acc IHa]; simpl.
        -- constructor; [exact Pcl | constructor].
        -- inversion Hacc; subst. destruct (String.eqb c k'); simpl.
           ++ constructor; assumption.
           ++ constructor; [assumption | apply IHa; assumption].
Qed.

Lemma wrap_keys (info : list (string * column_loss)) :
  keys (map (fun kv => (fst kv, ColumnLoss (snd kv))) info) = keys info.
Proof.
  unfold keys. rewrite map_map. reflexivity.
Qed.

(** The returned mapping in terms of the per-column mapping built by the
    loop. *)
Lemma calculate_information_loss_total (df : DataFrame) (qis : list string) :
  incl qis (columns df) ->
  exists info avg_loss,
    info_loss_loop df qis [] = Ok info /\
    NoDup (keys info) /\
    (forall k, In k (keys info) <-> In k qis) /\
    avg_loss = match info with
               | [] => 0%Q
               | _ :: _ => (qsum (map total_loss_percentage (values info))
                            / Qn (length info))%Q
               end /\
    calculate_information_loss df qis =
    Ok (dict_set String.eqb "average" (AverageLoss avg_loss)
          (map (fun kv => (fst kv, ColumnLoss (snd kv))) info)).
Proof.
  intros Hincl.
  destruct (info_loss_loop_total df qis [] Hincl) as [info [Hinfo [Hnd [Hkeys _]]]].
  exists info. eexists. split; [exact Hinfo |].
  split; [apply Hnd; constructor |].
  split; [intros k; rewrite Hkeys; simpl; intuition |].
  split; [reflexivity |].
  unfold calculate_information_loss. rewrite Hinfo. cbn [bind].
  destruct info as [| e info'].
  - reflexivity.
  - rewrite (pydiv_Ok _ (length (e :: info'))) by (simpl; lia). reflexivity.
Qed.

(** C10.  The aggregate is stored under the key ['average'] of the mapping
    that holds the per-column records.  Whenever ['average'] is itself one
    of the quasi-identifier columns, the loop has stored a per-column
    record under that key; the returned mapping then holds the aggregate
    mean there and nothing else under that key (no per-column record for
    the column), it has as many entries as the per-column mapping had, and
    the aggregate is the mean over all per-column records, that of the
    column ['average'] included. *)
Theorem C10_average_key_overwrites_column (df : DataFrame) (qis : list string) :
  wf_df df = true ->
  incl qis (columns df) ->
  In "average" qis ->
  exists info cl avg_loss report,
    info_loss_loop df qis [] = Ok info /\
    dict_get String.eqb "average" info = Some cl /\
    calculate_information_loss df qis = Ok report /\
    dict_get String.eqb "average" report = Some (AverageLoss avg_loss) /\
    (forall v, In ("average", v) report -> v = AverageLoss avg_loss) /\
    (forall c, ~ In ("average", ColumnLoss c) report) /\
    length report = length info /\
    avg_loss = (qsum (map total_loss_percentage (values info))
                / Qn (length info))%Q.
Proof.
  intros _ Hincl Havg.
  destruct (calculate_information_loss_total df qis Hincl)
    as [info [avg [Hinfo [Hnd [Hkeys [Havgdef Hres]]]]]].
  assert (Hk : In "average" (keys info)) by (apply Hkeys; exact Havg).
  destruct (dict_get String.eqb "average" info) as [cl |] eqn:Hget;
    [| exfalso; apply (dict_get_None String.eqb string_eqb_eq) in Hget;
       contradiction].
  set (report := dict_set String.eqb "average" (AverageLoss avg)
                   (map (fun kv => (fst kv, ColumnLoss (snd kv))) info)) in *.
  assert (Hndr : NoDup (keys report)).
  { unfold report. apply keys_set_NoDup; [apply string_eqb_eq |].
    rewrite wrap_keys. exact Hnd. }
  assert (Hgetr : dict_get String.eqb "average" report = Some (AverageLoss avg))
    by (apply dict_get_set_same; apply string_eqb_eq).
  assert (Huniq : forall v, In ("average", v) report -> v = AverageLoss avg).
  { intros v Hin.
    pose proof (In_dict_get String.eqb string_eqb_eq _ _ _ Hndr Hin) as H.
    congruence. }
  exists info, cl, avg, report.
  split; [exact Hinfo |]. split; [exact Hget |]. split; [exact Hres |].
  split; [exact Hgetr |]. split; [exact Huniq |]. split; [| split].
  - intros c Hin. apply Huniq in Hin. discriminate Hin.
  - unfold report. rewrite length_dict_set.
    assert (Hw : dict_get String.eqb "average"
                   (map (fun kv => (fst kv, ColumnLoss (snd kv))) info) <> None).
    { intros Hn. apply (dict_get_None String.eqb string_eqb_eq) in Hn.
      rewrite wrap_keys in Hn. contradiction. }
    destruct (dict_get String.eqb "average"
                (map (fun kv => (fst kv, ColumnLoss (snd kv))) info));
      [apply length_map | contradiction].
  - rewrite Havgdef. destruct info; [contradiction | reflexivity].
Qed.

Lemma C10_witness :
  wf_df df_average = true /\
  incl ["age"; "average"] (columns df_average) /\
  In "average" ["age"; "average"] /\
  exists info cl avg_loss report,
    info_loss_loop df_average ["age"; "average"] [] = Ok info /\
    dict_get String.eqb "average" info = Some cl /\
    calculate_information_loss df_average ["age"; "average"] = Ok report /\
    dict_get String.eqb "average" report = Some (AverageLoss avg_loss) /\
    (forall v, In ("average", v) report -> v = AverageLoss avg_loss) /\
    (forall c, ~ In ("average", ColumnLoss c) report) /\
    length report = length info /\
    avg_loss = (qsum (map total_loss_percentage (values info))
                / Qn (length info))%Q.
Proof.
  assert (H1 : wf_df df_average = true) by reflexivity.
  assert (H2 : incl ["age"; "average"] (columns df_average)) by apply incl_refl.
  assert (H3 : In "average" ["age"; "average"]) by (right; left; reflexivity).
  split; [exact H1 |]. split; [exact H2 |]. split; [exact H3 |].
  apply (C10_average_key_overwrites_column df_average ["age"; "average"] H1 H2 H3).
Defined.

(* ================================================================= *)
(** ** Facts about the suppression rate *)

Lemma seq_nth_id {A : Type} (d : A) (l : list A) :
  map (fun j => nth j l d) (seq 0 (length l)) = l.
Proof.
  induction l as [| a l IH]; simpl.
  - reflexivity.
  - rewrite <- seq_shift, map_map. simpl. rewrite IH. reflexivity.
Qed.

Lemma mapM_map {A B C : Type} (f : B -> result C) (h : A -> B) (l : list A) :
  mapM f (map h l) = mapM (fun a => f (h a)) l.
Proof.
  induction l as [| a l IH]; simpl; [reflexivity | rewrite IH; reflexivity].
Qed.

Lemma star_counts_Ok (df : DataFrame) :
  wf_df df = true ->
  star_counts df =
  Ok (map (column_stars (rows df)) (seq 0 (length (columns df)))).
Proof.
  intros Hwf. unfold star_counts.
  pose proof (wf_df_distinct df Hwf) as Hd.
  pose proof (seq_nth_id "" (columns df)) as Hcols.
  rewrite <- Hcols at 1. rewrite mapM_map.
  apply mapM_Ok. intros j Hj. apply in_seq in Hj. unfold getitem.
  rewrite (get_loc_nth (columns df) j (nth j (columns df) "") Hd)
    by (apply nth_error_nth'; lia).
  reflexivity.
Qed.

Lemma list_sum_map_add {A : Type} (a b : A -> nat) (l : list A) :
  list_sum (map (fun j => a j + b j) l) = list_sum (map a l) + list_sum (map b l).
Proof.
  induction l as [| x l IH]; simpl; [reflexivity | rewrite IH; lia].
Qed.

Lemma length_filter_sum {A : Type} (p : A -> bool) (l : list A) :
  length (filter p l) = list_sum (map (fun x => if p x then 1 else 0) l).
Proof.
  induction l as [| x l IH]; simpl; [reflexivity |].
  destruct (p x); simpl; rewrite IH; reflexivity.
Qed.

Lemma row_stars (r : list cell) :
  list_sum (map (fun j => if eq_star (iloc j r) then 1 else 0)
                (seq 0 (length r))) =
  length (filter eq_star r).
Proof.
  rewrite length_filter_sum.
  transitivity (list_sum (map (fun x => if eq_star x then 1 else 0)
                              (map (fun j => nth j r CNaN) (seq 0 (length r))))).
  - rewrite map_map. reflexivity.
  - rewrite seq_nth_id. reflexivity.
Qed.

(** Counting column by column or row by row gives the same total. *)
Lemma column_stars_sum (rs : list (list cell)) (n : nat) :
  Forall (fun r => length r = n) rs ->
  list_sum (map (column_stars rs) (seq 0 n)) =
  length (filter eq_star (concat rs)).
Proof.
  induction 1 as [| r rs Hr Hrs IH]; simpl.
  - induction (seq 0 n) as [| j l IHl]; simpl; [reflexivity | exact IHl].
  - rewrite filter_app, length_app, <- IH, <- row_stars, Hr.
    rewrite <- list_sum_map_add. f_equal. apply map_ext. intros j.
    unfold column_stars; simpl. destruct (eq_star (iloc j r)); reflexivity.
Qed.

Lemma rectangular_cells (rs : list (list cell)) (n : nat) :
  Forall (fun r => length r = n) rs -> length (concat rs) = length rs * n.
Proof.
  induction 1 as [| r rs Hr Hrs IH]; simpl.
  - reflexivity.
  - rewrite length_app, IH, Hr. reflexivity.
Qed.

Lemma wf_df_rectangular (df : DataFrame) :
  wf_df df = true ->
  Forall (fun r => length r = length (columns df)) (rows df).
Proof.
  intros Hwf. apply Forall_forall. intros r Hr.
  apply (wf_df_row_length df r Hwf Hr).
Qed.

Lemma total_cells_size (df : DataFrame) :
  wf_df df = true -> total_cells df = size df.
Proof.
  intros Hwf. unfold total_cells, size, len.
  apply rectangular_cells, wf_df_rectangular, Hwf.
Qed.

(** The suppression rate never fails. *)
Lemma calculate_suppression_rate_total (df : DataFrame) :
  exists q, calculate_suppression_rate df = Ok q.
Proof.
  unfold calculate_suppression_rate.
  assert (G : exists per, star_counts df = Ok per).
  { unfold star_counts.
    assert (H : forall cols, incl cols (columns df) ->
              exists per,
                mapM (fun col => vals <- getitem df col ;;
                                 Ok (length (filter eq_star vals))) cols = Ok per).
    { induction cols as [| c cols IH]; intros Hincl; simpl.
      - eexists; reflexivity.
      - destruct (getitem_In df c) as [vals [Hv _]];
          [apply Hincl; left; reflexivity |].
        rewrite Hv. cbn [bind].
        destruct IH as [per Hper]; [intros x Hx; apply Hincl; right; exact Hx |].
        rewrite Hper. cbn [bind]. eexists; reflexivity. }
    apply H, incl_refl. }
  destruct G as [per Hper]. rewrite Hper. cbn [bind].
  destruct (0 <? size df) eqn:E.
  - apply Nat.ltb_lt in E. rewrite pydiv_Ok by lia. cbn [bind].
    eexists; reflexivity.
  - eexists; reflexivity.
Qed.

(** C7, as stated, fails: on the table with the single cell ['*'] the
    metric is 100 while the ratio of suppressed cells to all cells is 1. *)
Lemma C7_counterexample : ~ suppression_rate_is_ratio.
Proof.
  intros H.
  specialize (H df_one_star 100%Q eq_refl (Nat.lt_0_1) eq_refl).
  vm_compute in H. discriminate H.
Qed.

(** C7, amended.  For every data frame with at least one cell, the
    suppression-rate metric is a percentage: 100 times the ratio of the
    number of cells equal to ['*'], counted over the whole table (every
    column, quasi-identifier or not), to the total number of cells. *)
Theorem C7_suppression_rate_percentage (df : DataFrame) :
  wf_df df = true ->
  0 < total_cells df ->
  calculate_suppression_rate df =
  Ok (Qn (suppressed_cells df) / Qn (total_cells df) * 100)%Q.
Proof.
  intros Hwf Hpos. unfold calculate_suppression_rate.
  rewrite (star_counts_Ok df Hwf). cbn [bind].
  rewrite (column_stars_sum _ _ (wf_df_rectangular df Hwf)).
  rewrite (total_cells_size df Hwf) in Hpos.
  fold (suppressed_cells df).
  rewrite (total_cells_size df Hwf).
  destruct (0 <? size df) eqn:E; [| apply Nat.ltb_ge in E; lia].
  rewrite pydiv_Ok by lia. reflexivity.
Qed.

Lemma C7_witness :
  wf_df df_aabbb = true /\
  0 < total_cells df_aabbb /\
  calculate_suppression_rate df_aabbb =
  Ok (Qn (suppressed_cells df_aabbb) / Qn (total_cells df_aabbb) * 100)%Q.
Proof.
  assert (H1 : wf_df df_aabbb = true) by reflexivity.
  assert (H2 : 0 < total_cells df_aabbb) by (vm_compute; lia).
  split; [exact H1 |]. split; [exact H2 |].
  apply (C7_suppression_rate_percentage df_aabbb H1 H2).
Defined.

(* ================================================================= *)
(** ** The pipeline *)

Lemma Counter_positive (ec_keys : list string) :
  Forall (fun n => 1 <= n) (values (Counter String.eqb ec_keys)).
Proof.
  unfold Counter. apply counter_fold_positive. constructor.
Qed.

(** A whole evaluation never fails: every stage returns, and the report is
    assembled from what the stages return. *)
Lemma evaluate_k_anonymity_total (df : DataFrame) (k : Q) :
  exists qis ec_counts ec_groups rk m il sr,
    identify_quasi_identifiers df = Ok qis /\
    compute_equivalence_classes df qis = Ok (ec_counts, ec_groups) /\
    calculate_reidentification_risks ec_counts = Ok rk /\
    calculate_equivalence_class_metrics ec_counts (len df) = Ok m /\
    calculate_information_loss df qis = Ok il /\
    calculate_suppression_rate df = Ok sr /\
    evaluate_k_anonymity df k =
    Ok {| k_value := k;
          quasi_identifiers := qis;
          num_records := len df;
          satisfies_k_anonymity := Qle_bool k (Qn (min_ec_size m));
          risks_report := rk;
          equivalence_class_metrics := m;
          information_loss := il;
          suppression_rate := sr;
          discernibility := discernibility_metric ec_groups (len df) |}.
Proof.
  pose proof (identify_quasi_identifiers_filter df) as Hq.
  set (qis := filter (qi_test df) (columns df)) in *.
  pose proof (identify_quasi_identifiers_incl df qis Hq) as Hincl.
  destruct (compute_equivalence_classes_total df qis Hincl) as [c [g Hc]].
  destruct (compute_equivalence_classes_Ok _ _ _ _ Hc) as [sub [_ [_ [Hcc _]]]].
  destruct (calculate_reidentification_risks_total c) as [rk [Hrk _]];
    [rewrite Hcc; apply Counter_positive |].
  pose proof (calculate_equivalence_class_metrics_Ok c (len df)) as Hm.
  destruct (calculate_information_loss_total df qis Hincl)
    as [info [avg [_ [_ [_ [_ Hil]]]]]].
  destruct (calculate_suppression_rate_total df) as [sr Hsr].
  exists qis, c, g, rk. eexists. eexists. exists sr.
  split; [exact Hq |]. split; [exact Hc |]. split; [exact Hrk |].
  split; [exact Hm |]. split; [exact Hil |]. split; [exact Hsr |].
  unfold evaluate_k_anonymity.
  rewrite Hq. cbn [bind]. rewrite Hc. cbn [bind]. rewrite Hrk. cbn [bind].
  rewrite Hm. cbn [bind]. rewrite Hil. cbn [bind]. rewrite Hsr. cbn [bind].
  reflexivity.
Qed.

(** The scenario of five records with quasi-identifier values A, A, B, B, B:
    two classes of sizes 2 and 3, average size 5/2, discernibility 13, no
    unique record. *)
Example evaluate_aabbb :
  exists r,
    evaluate_k_anonymity df_aabbb 2 = Ok r /\
    quasi_identifiers r = ["city"] /\
    satisfies_k_anonymity r = true /\
    num_equivalence_classes (equivalence_class_metrics r) = 2 /\
    min_ec_size (equivalence_class_metrics r) = 2 /\
    (avg_ec_size (equivalence_class_metrics r) == 5 # 2)%Q /\
    unique_records (equivalence_class_metrics r) = 0 /\
    discernibility r = 13.
Proof.
  eexists. split; [reflexivity |]. repeat split.
Qed.

(** C1.  For every data frame and every threshold [k], the evaluation
    returns a report; its statistics are those the metric engine computes
    from the classes of the frame's quasi-identifiers; their [min_ec_size]
    is the least class size (0 when there is no class); and
    [satisfies_k_anonymity] is true if and only if [min_ec_size >= k]. *)
Theorem C1_satisfies_iff_min_ec_size_ge_k (df : DataFrame) (k : Q) :
  wf_df df = true ->
  exists r qis ec_counts ec_groups m,
    evaluate_k_anonymity df k = Ok r /\
    identify_quasi_identifiers df = Ok qis /\
    compute_equivalence_classes df qis = Ok (ec_counts, ec_groups) /\
    calculate_equivalence_class_metrics ec_counts (len df) = Ok m /\
    equivalence_class_metrics r = m /\
    ((ec_counts = [] /\ min_ec_size m = 0) \/
     (In (min_ec_size m) (values ec_counts) /\
      Forall (fun s => min_ec_size m <= s) (values ec_counts))) /\
    (satisfies_k_anonymity r = true <-> (k <= Qn (min_ec_size m))%Q).
Proof.
  intros _.
  destruct (evaluate_k_anonymity_total df k)
    as [qis [c [g [rk [m [il [sr [Hq [Hc [_ [Hm [_ [_ Hev]]]]]]]]]]]]].
  eexists. exists qis, c, g, m.
  split; [exact Hev |]. split; [exact Hq |]. split; [exact Hc |].
  split; [exact Hm |]. split; [reflexivity |].
  split; [apply (min_ec_size_is_minimum c (len df) m Hm) |].
  cbn [satisfies_k_anonymity]. apply Qle_bool_iff.
Qed.

Lemma C1_witness :
  wf_df df_aabbb = true /\
  exists r qis ec_counts ec_groups m,
    evaluate_k_anonymity df_aabbb 3 = Ok r /\
    identify_quasi_identifiers df_aabbb = Ok qis /\
    compute_equivalence_classes df_aabbb qis = Ok (ec_counts, ec_groups) /\
    calculate_equivalence_class_metrics ec_counts (len df_aabbb) = Ok m /\
    equivalence_class_metrics r = m /\
    ((ec_counts = [] /\ min_ec_size m = 0) \/
     (In (min_ec_size m) (values ec_counts) /\
      Forall (fun s => min_ec_size m <= s) (values ec_counts))) /\
    (satisfies_k_anonymity r = true <-> (3 <= Qn (min_ec_size m))%Q).
Proof.
  split; [reflexivity |].
  apply (C1_satisfies_iff_min_ec_size_ge_k df_aabbb 3). reflexivity.
Defined.

Lemma zero_not_positive_integer : ~ positive_integer 0.
Proof.
  intros [p Hp]. unfold Qeq in Hp. simpl in Hp. lia.
Qed.

(** C8, as stated, fails: with [k = 0] the evaluation of a one-cell table
    returns a report, whose verdict is true. *)
Lemma C8_counterexample : ~ rejects_invalid_k.
Proof.
  intros H.
  destruct (H df_one_star 0%Q eq_refl zero_not_positive_integer) as [e He].
  vm_compute in He. discriminate He.
Qed.

(** C8, amended.  The program does not validate [k].  For every data frame
    and every number [k] that is not a positive integer (zero, negative or
    fractional), the evaluation returns a report: it records [k] as given,
    its verdict is true exactly when [min_ec_size >= k], and so the verdict
    is true whenever [k <= 0]. *)
Theorem C8_no_validation_of_k (df : DataFrame) (k : Q) :
  wf_df df = true ->
  ~ positive_integer k ->
  exists r,
    evaluate_k_anonymity df k = Ok r /\
    k_value r = k /\
    (satisfies_k_anonymity r = true <->
     (k <= Qn (min_ec_size (equivalence_class_metrics r)))%Q) /\
    ((k <= 0)%Q -> satisfies_k_anonymity r = true).
Proof.
  intros _ _.
  destruct (evaluate_k_anonymity_total df k)
    as [qis [c [g [rk [m [il [sr [_ [_ [_ [_ [_ [_ Hev]]]]]]]]]]]]].
  eexists. split; [exact Hev |]. cbn [k_value satisfies_k_anonymity equivalence_class_metrics].
  split; [reflexivity |]. split; [apply Qle_bool_iff |].
  intros Hk. apply Qle_bool_iff. apply (Qle_trans _ 0); [exact Hk |].
  unfold Qn, Qle; simpl. lia.
Qed.

Lemma C8_witness :
  wf_df df_aabbb = true /\
  ~ positive_integer (-1 # 2) /\
  exists r,
    evaluate_k_anonymity df_aabbb (-1 # 2) = Ok r /\
    k_value r = (-1 # 2)%Q /\
    (satisfies_k_anonymity r = true <->
     ((-1 # 2) <= Qn (min_ec_size (equivalence_class_metrics r)))%Q) /\
    (((-1 # 2) <= 0)%Q -> satisfies_k_anonymity r = true).
Proof.
  assert (H1 : wf_df df_aabbb = true) by reflexivity.
  assert (H2 : ~ positive_integer (-1 # 2)).
  { intros [p Hp]. unfold Qeq in Hp. simpl in Hp. lia. }
  split; [exact H1 |]. split; [exact H2 |].
  apply (C8_no_validation_of_k df_aabbb (-1 # 2) H1 H2).
Defined.

(* ================================================================= *)
(** ** The frame without records *)

Lemma getitems_empty (df : DataFrame) (qis : list string) :
  rows df = [] -> incl qis (columns df) -> getitems df qis = Ok [].
Proof.
  intros Hrows Hincl.
  destruct (getitems_incl df qis Hincl) as [sub [Hsub Hlen]].
  unfold len in Hlen. rewrite Hrows in Hlen.
  destruct sub; [exact Hsub | discriminate Hlen].
Qed.

Lemma star_counts_empty (df : DataFrame) :
  rows df = [] -> exists per, star_counts df = Ok per /\ list_sum per = 0.
Proof.
  intros Hrows. unfold star_counts.
  assert (H : forall cols, incl cols (columns df) ->
            mapM (fun col => vals <- getitem df col ;;
                             Ok (length (filter eq_star vals))) cols =
            Ok (map (fun _ => 0) cols)).
  { intros cols Hincl. apply mapM_Ok. intros c Hc. unfold getitem.
    destruct (get_loc_In c (columns df) (Hincl c Hc)) as [j Hj].
    rewrite Hj, Hrows. reflexivity. }
  rewrite (H _ (incl_refl _)). eexists. split; [reflexivity |].
  clear H. generalize (columns df) as cols.
  induction cols as [| c cols IH]; simpl; [reflexivity | exact IH].
Qed.

Lemma qsum_zeros (l : list Q) (a : Q) :
  Forall (fun q => q = 0%Q) l -> (fold_left Qplus l a == a)%Q.
Proof.
  intros H. revert a. induction H as [| q l Hq Hl IH]; intros a; simpl.
  - reflexivity.
  - subst q. rewrite IH. apply Qplus_0_r.
Qed.

(** C9.  On a data frame with zero records, every metric function returns
    a result, and the result is zero or empty: the builder returns no
    class; the risk metrics are [max_risk = 0], [avg_risk = 0] and an empty
    risk list; every equivalence-class statistic is 0 and the size
    distribution is empty; the information loss holds an all-zero record
    for each column asked for and an aggregate equal to 0; and the
    suppression rate is 0.  None of them raises [ZeroDivisionError]. *)
Theorem C9_zero_records (df : DataFrame) (qis : list string) :
  wf_df df = true ->
  rows df = [] ->
  incl qis (columns df) ->
  compute_equivalence_classes df qis = Ok ([], []) /\
  calculate_reidentification_risks [] =
    Ok {| max_risk := 0; avg_risk := 0; risks := [] |} /\
  calculate_equivalence_class_metrics [] (len df) =
    Ok {| num_equivalence_classes := 0; min_ec_size := 0; max_ec_size := 0;
          avg_ec_size := 0; unique_records := 0;
          unique_records_percentage := 0; ec_size_distribution := [] |} /\
  (exists report,
     calculate_information_loss df qis = Ok report /\
     forall key v, In (key, v) report ->
       v = ColumnLoss zero_loss \/ exists q, v = AverageLoss q /\ (q == 0)%Q) /\
  calculate_suppression_rate df = Ok 0%Q.
Proof.
  intros _ Hrows Hincl.
  assert (Hlen : len df = 0) by (unfold len; rewrite Hrows; reflexivity).
  split; [| split; [| split; [| split]]].
  - unfold compute_equivalence_classes.
    rewrite (getitems_empty df qis Hrows Hincl). reflexivity.
  - reflexivity.
  - rewrite Hlen. reflexivity.
  - destruct (calculate_information_loss_total df qis Hincl)
      as [info [avg [Hinfo [_ [_ [Havg Hres]]]]]].
    destruct (info_loss_loop_total df qis [] Hincl) as [info' [Hinfo' [_ [_ HP]]]].
    assert (info' = info) by congruence. subst info'.
    assert (Hzero : Forall (fun cl => cl = zero_loss) (values info)).
    { apply HP; [| constructor]. intros col cl Hcol Hcl.
      rewrite (column_info_loss_empty df col Hrows (Hincl col Hcol)) in Hcl.
      inversion Hcl. reflexivity. }
    assert (Havg0 : (avg == 0)%Q).
    { rewrite Havg. destruct info as [| e info0]; [reflexivity |].
      assert (Hs : (qsum (map total_loss_percentage (values (e :: info0))) == 0)%Q).
      { unfold qsum. apply qsum_zeros. apply Forall_map.
        revert Hzero. apply Forall_impl. intros cl ->. reflexivity. }
      rewrite Hs. unfold Qdiv. apply Qmult_0_l. }
    eexists. split; [exact Hres |].
    intros key v Hin. apply dict_set_In in Hin. destruct Hin as [-> | Hin].
    + right. exists avg. split; [reflexivity | exact Havg0].
    + left. apply in_map_iff in Hin. destruct Hin as [[k0 cl] [Heq Hk0]].
      apply (in_map snd) in Hk0. simpl in Hk0.
      inversion Heq; subst. f_equal.
      rewrite Forall_forall in Hzero. apply Hzero. exact Hk0.
  - unfold calculate_suppression_rate.
    destruct (star_counts_empty df Hrows) as [per [Hper _]].
    rewrite Hper. cbn [bind]. unfold size. rewrite Hlen. reflexivity.
Qed.

Lemma C9_witness :
  wf_df df_empty = true /\
  rows df_empty = [] /\
  incl ["zip"; "city"] (columns df_empty) /\
  compute_equivalence_classes df_empty ["zip"; "city"] = Ok ([], []) /\
  calculate_reidentification_risks [] =
    Ok {| max_risk := 0; avg_risk := 0; risks := [] |} /\
  calculate_equivalence_class_metrics [] (len df_empty) =
    Ok {| num_equivalence_classes := 0; min_ec_size := 0; max_ec_size := 0;
          avg_ec_size := 0; unique_records := 0;
          unique_records_percentage := 0; ec_size_distribution := [] |} /\
  (exists report,
     calculate_information_loss df_empty ["zip"; "city"] = Ok report /\
     forall key v, In (key, v) report ->
       v = ColumnLoss zero_loss \/ exists q, v = AverageLoss q /\ (q == 0)%Q) /\
  calculate_suppression_rate df_empty = Ok 0%Q.
Proof.
  assert (H1 : wf_df df_empty = true) by reflexivity.
  assert (H2 : rows df_empty = []) by reflexivity.
  assert (H3 : incl ["zip"; "city"] (columns df_empty)).
  { intros c [<- | [<- | []]]; simpl; auto. }
  split; [exact H1 |]. split; [exact H2 |]. split; [exact H3 |].
  apply (C9_zero_records df_empty ["zip"; "city"] H1 H2 H3).
Defined.

(* ================================================================= *)
(** ** Which records share a class *)

(** What the builder does: two records share a class exactly when their
    composite keys, the ['_']-joined renderings of their quasi-identifier
    values, are the same string. *)
Lemma same_class_iff_same_key (df : DataFrame) (qis : list string)
    (ec_counts : list (string * nat)) (ec_groups : list (string * list nat))
    (sub : list (list cell)) (i j : nat) :
  compute_equivalence_classes df qis = Ok (ec_counts, ec_groups) ->
  getitems df qis = Ok sub ->
  i < len df -> j < len df ->
  same_class ec_groups i j <-> ec_key (nth i sub []) = ec_key (nth j sub []).
Proof.
  intros Hc Hsub Hi Hj.
  destruct (compute_equivalence_classes_Ok _ _ _ _ Hc)
    as [sub' [Hsub' [Hlen [_ ->]]]].
  assert (sub' = sub) by congruence. subst sub'.
  assert (Hkey : forall n, n < len df ->
            nth_error (map ec_key sub) n = Some (ec_key (nth n sub []))).
  { intros n Hn. rewrite nth_error_map.
    rewrite (nth_error_nth' sub []) by lia. reflexivity. }
  split.
  - intros [[k m] [Hin [Him Hjm]]]. simpl in Him, Hjm.
    apply (builder_members _ k m Hin) in Him.
    apply (builder_members _ k m Hin) in Hjm.
    rewrite (Hkey i Hi) in Him. rewrite (Hkey j Hj) in Hjm. congruence.
  - intros Heq.
    destruct (builder_class_exists (map ec_key sub) i _ (Hkey i Hi)) as [m Hin].
    exists (ec_key (nth i sub []), m). split; [exact Hin |]. simpl. split.
    + apply (builder_members _ _ m Hin). apply Hkey. exact Hi.
    + apply (builder_members _ _ m Hin). rewrite Heq. apply Hkey. exact Hj.
Qed.

(** One direction of the specified grouping always holds: records with equal
    tuples of quasi-identifier values share a class. *)
Lemma equal_tuples_same_class (df : DataFrame) (qis : list string)
    (ec_counts : list (string * nat)) (ec_groups : list (string * list nat))
    (sub : list (list cell)) (i j : nat) :
  compute_equivalence_classes df qis = Ok (ec_counts, ec_groups) ->
  getitems df qis = Ok sub ->
  i < len df -> j < len df ->
  nth i sub [] = nth j sub [] -> same_class ec_groups i j.
Proof.
  intros Hc Hsub Hi Hj Heq.
  apply (same_class_iff_same_key df qis ec_counts ec_groups sub i j Hc Hsub Hi Hj).
  rewrite Heq. reflexivity.
Qed.

(** C3, at the failing input.  The two records of [df_sep] have different
    tuples of quasi-identifier values, [("a_b", "c")] and [("a", "b_c")];
    both are rendered as the key ["a_b_c"], and the builder puts them in one
    class of size 2. *)
Theorem C3_separator_collision :
  getitems df_sep ["street"; "unit"] =
    Ok [[CStr "a_b"; CStr "c"]; [CStr "a"; CStr "b_c"]] /\
  [CStr "a_b"; CStr "c"] <> [CStr "a"; CStr "b_c"] /\
  compute_equivalence_classes df_sep ["street"; "unit"] =
    Ok ([("a_b_c", 2)], [("a_b_c", [0; 1])]) /\
  same_class [("a_b_c", [0; 1])] 0 1.
Proof.
  split; [reflexivity |]. split; [discriminate |]. split; [reflexivity |].
  exists ("a_b_c", [0; 1]). simpl. intuition.
Qed.

(** What the statistics hold on the builder's output for a frame with at
    least one record: the classes are counted by distinct composite key. *)
Lemma ec_metrics_of_builder (df : DataFrame) (qis : list string)
    (ec_counts : list (string * nat)) (ec_groups : list (string * list nat))
    (sub : list (list cell)) :
  compute_equivalence_classes df qis = Ok (ec_counts, ec_groups) ->
  getitems df qis = Ok sub ->
  0 < len df ->
  exists m,
    calculate_equivalence_class_metrics ec_counts (len df) = Ok m /\
    num_equivalence_classes m = length ec_counts /\
    NoDup (keys ec_counts) /\
    (forall k, In k (keys ec_counts) <-> In k (map ec_key sub)) /\
    In (min_ec_size m) (values ec_counts) /\
    Forall (fun s => min_ec_size m <= s) (values ec_counts) /\
    In (max_ec_size m) (values ec_counts) /\
    Forall (fun s => s <= max_ec_size m) (values ec_counts) /\
    avg_ec_size m = (Qn (len df) / Qn (num_equivalence_classes m))%Q /\
    unique_records m = length (filter (fun s => s =? 1) (values ec_counts)) /\
    unique_records_percentage m =
      (Qn (unique_records m) / Qn (len df) * 100)%Q.
Proof.
  intros Hc Hsub Hpos.
  destruct (compute_equivalence_classes_Ok _ _ _ _ Hc)
    as [sub' [Hsub' [Hlen [Hcc _]]]].
  assert (sub' = sub) by congruence. subst sub'.
  assert (Hsum : list_sum (values ec_counts) = len df).
  { rewrite Hcc. unfold Counter. rewrite counter_fold_sum. simpl.
    rewrite length_map. exact Hlen. }
  assert (Hne : ec_counts <> []).
  { intros ->. simpl in Hsum. lia. }
  eexists. split; [apply calculate_equivalence_class_metrics_Ok |].
  cbn [num_equivalence_classes min_ec_size max_ec_size avg_ec_size
       unique_records unique_records_percentage].
  split; [reflexivity |].
  split; [rewrite Hcc; apply counter_fold_NoDup;
          [apply string_eqb_eq | constructor] |].
  split.
  { intros k. rewrite Hcc. unfold Counter.
    rewrite counter_fold_keys by apply string_eqb_eq. simpl. intuition. }
  rewrite Hsum.
  destruct ec_counts as [| [k s] c]; [contradiction |].
  cbn [values map snd].
  destruct (nmin_spec s (map snd c)) as [Hmin1 Hmin2].
  destruct (nmax_spec s (map snd c)) as [Hmax1 Hmax2].
  repeat (split; [assumption || reflexivity |]).
  destruct (0 <? len df) eqn:E; [reflexivity | apply Nat.ltb_ge in E; lia].
Qed.

(** C6, at the failing input.  The two records of [df_sep] have two
    distinct tuples of quasi-identifier values, yet the evaluation reports
    a single equivalence class. *)
Theorem C6_num_classes_under_collision :
  exists r sub,
    evaluate_k_anonymity df_sep 2 = Ok r /\
    getitems df_sep (quasi_identifiers r) = Ok sub /\
    length sub = 2 /\ NoDup sub /\
    num_equivalence_classes (equivalence_class_metrics r) = 1.
Proof.
  eexists. eexists. split; [reflexivity |]. cbn [quasi_identifiers].
  split; [reflexivity |]. split; [reflexivity |]. split; [| reflexivity].
  constructor.
  - intros [H | []]. discriminate H.
  - constructor; [intros [] | constructor].
Qed.

(* ================================================================= *)
(** ** The extent of the key collision *)

Lemma contains_unfold (pat s : string) :
  contains pat s =
  if String.prefix pat s then true
  else match s with
       | EmptyString => false
       | String _ s' => contains pat s'
       end.
Proof. destruct s; reflexivity. Qed.

Lemma contains_cons (c : ascii) (s : string) :
  contains "_" (String c s) = false ->
  c <> "_"%char /\ contains "_" s = false.
Proof.
  rewrite contains_unfold.
  change (String.prefix "_" (String c s))
    with (if Ascii.ascii_dec "_"%char c then String.prefix "" s else false).
  destruct (Ascii.ascii_dec "_"%char c) as [<- | Hne].
  - destruct s; discriminate.
  - intros H. split; [congruence | exact H].
Qed.

Lemma key_split (s1 s2 r1 r2 : string) :
  contains "_" s1 = false -> contains "_" s2 = false ->
  (s1 ++ "_" ++ r1)%string = (s2 ++ "_" ++ r2)%string ->
  s1 = s2 /\ r1 = r2.
Proof.
  revert s2. induction s1 as [| c s1 IH]; intros s2 H1 H2 Heq.
  - destruct s2 as [| c2 s2]; simpl in Heq.
    + inversion Heq. split; reflexivity.
    + inversion Heq; subst. apply contains_cons in H2. destruct H2 as [Hc _].
      exfalso. apply Hc. reflexivity.
  - destruct s2 as [| c2 s2]; simpl in Heq.
    + inversion Heq; subst. apply contains_cons in H1. destruct H1 as [Hc _].
      exfalso. apply Hc. reflexivity.
    + inversion Heq; subst.
      apply contains_cons in H1. apply contains_cons in H2.
      destruct (IH s2 (proj2 H1) (proj2 H2)) as [-> ->]; [assumption |].
      split; reflexivity.
Qed.

Lemma join_cons (s t : string) (l : list string) :
  join "_" (s :: t :: l) = (s ++ "_" ++ join "_" (t :: l))%string.
Proof. reflexivity. Qed.

(** On lists of equal length whose items do not contain the separator,
    joining is injective. *)
Lemma join_injective (l1 l2 : list string) :
  length l1 = length l2 ->
  Forall (fun s => contains "_" s = false) l1 ->
  Forall (fun s => contains "_" s = false) l2 ->
  join "_" l1 = join "_" l2 -> l1 = l2.
Proof.
  revert l2. induction l1 as [| s1 l1 IH]; intros l2 Hlen H1 H2 Heq.
  - destruct l2; [reflexivity | discriminate Hlen].
  - destruct l2 as [| s2 l2]; [discriminate Hlen |].
    inversion H1 as [| a b Hs1 Hl1]; subst.
    inversion H2 as [| a b Hs2 Hl2]; subst.
    destruct l1 as [| t1 l1], l2 as [| t2 l2]; try discriminate Hlen.
    + simpl in Heq. subst. reflexivity.
    + rewrite !join_cons in Heq.
      destruct (key_split _ _ _ _ Hs1 Hs2 Heq) as [-> Hrest].
      f_equal. apply IH; try assumption. simpl in Hlen. simpl. lia.
Qed.

Lemma plain_cell_str (v w : cell) :
  plain_cell v = true -> plain_cell w = true -> str v = str w -> v = w.
Proof.
  destruct v, w; simpl; try discriminate. intros _ _ ->. reflexivity.
Qed.

Lemma plain_cell_free (v : cell) :
  plain_cell v = true -> contains "_" (str v) = false.
Proof.
  destruct v; simpl; try discriminate. apply negb_true_iff.
Qed.

Lemma ec_key_injective (r1 r2 : list cell) :
  length r1 = length r2 ->
  forallb plain_cell r1 = true -> forallb plain_cell r2 = true ->
  ec_key r1 = ec_key r2 -> r1 = r2.
Proof.
  intros Hlen H1 H2 Heq. unfold ec_key in Heq.
  rewrite forallb_forall in H1, H2.
  apply join_injective in Heq.
  - revert r2 Hlen H2 Heq. induction r1 as [| v r1 IH]; intros [| w r2] Hlen H2 Heq;
      try discriminate; [reflexivity |].
    simpl in Heq. inversion Heq as [[Hs Hrest]].
    f_equal.
    + apply plain_cell_str; [apply H1 | apply H2 |]; simpl; auto.
    + apply IH; simpl in *; auto.
  - rewrite !length_map. exact Hlen.
  - apply Forall_forall. intros s Hs. apply in_map_iff in Hs.
    destruct Hs as [v [<- Hv]]. apply plain_cell_free, H1, Hv.
  - apply Forall_forall. intros s Hs. apply in_map_iff in Hs.
    destruct Hs as [v [<- Hv]]. apply plain_cell_free, H2, Hv.
Qed.

Lemma getitems_row_length (df : DataFrame) (qis : list string)
    (sub : list (list cell)) (r : list cell) :
  getitems df qis = Ok sub -> In r sub -> length r = length qis.
Proof.
  unfold getitems. intros H Hr. apply bind_Ok in H. destruct H as [js [Hjs H]].
  inversion H; subst. apply in_map_iff in Hr. destruct Hr as [r0 [<- _]].
  rewrite length_map. clear - Hjs. revert js Hjs.
  induction qis as [| c qis IH]; simpl; intros js Hjs.
  - inversion Hjs. reflexivity.
  - apply bind_Ok in Hjs. destruct Hjs as [j [_ Hjs]].
    apply bind_Ok in Hjs. destruct Hjs as [js' [Hjs' Hjs]].
    inversion Hjs; subst. simpl. f_equal. apply IH. exact Hjs'.
Qed.

(** Where every quasi-identifier value is a string without the separator,
    the builder groups by tuple equality, as specified. *)
Lemma same_class_iff_same_tuple (df : DataFrame) (qis : list string)
    (ec_counts : list (string * nat)) (ec_groups : list (string * list nat))
    (sub : list (list cell)) (i j : nat) :
  compute_equivalence_classes df qis = Ok (ec_counts, ec_groups) ->
  getitems df qis = Ok sub ->
  forallb (forallb plain_cell) sub = true ->
  i < len df -> j < len df ->
  same_class ec_groups i j <-> nth i sub [] = nth j sub [].
Proof.
  intros Hc Hsub Hplain Hi Hj.
  rewrite (same_class_iff_same_key df qis ec_counts ec_groups sub i j Hc Hsub Hi Hj).
  pose proof (getitems_length df qis sub Hsub) as Hlen.
  assert (Hin : forall n, n < len df -> In (nth n sub []) sub)
    by (intros n Hn; apply nth_In; lia).
  rewrite forallb_forall in Hplain.
  split; [| intros ->; reflexivity].
  apply ec_key_injective.
  - rewrite (getitems_row_length df qis sub _ Hsub (Hin i Hi)).
    rewrite (getitems_row_length df qis sub _ Hsub (Hin j Hj)). reflexivity.
  - apply Hplain, Hin, Hi.
  - apply Hplain, Hin, Hj.
Qed.

(* ================================================================= *)
(** ** Missing columns *)

Lemma get_loc_cases (c : string) (cols : list string) :
  (In c cols /\ exists j, get_loc c cols = Ok j) \/
  (~ In c cols /\ get_loc c cols = Raise KeyError).
Proof.
  induction cols as [| c' cols IH]; simpl.
  - right. split; [intros [] | reflexivity].
  - destruct (String.eqb c c') eqn:E.
    + apply String.eqb_eq in E. subst c'. left. split; [left; reflexivity |].
      exists 0. reflexivity.
    + apply String.eqb_neq in E.
      destruct IH as [[Hin [j Hj]] | [Hnin Hr]].
      * left. split; [right; exact Hin |]. exists (S j). rewrite Hj. reflexivity.
      * right. split; [intros [Heq | Hin]; [congruence | contradiction] |].
        rewrite Hr. reflexivity.
Qed.

Lemma getitems_cases (df : DataFrame) (qis : list string) :
  (incl qis (columns df) /\ exists sub, getitems df qis = Ok sub) \/
  (~ incl qis (columns df) /\ getitems df qis = Raise KeyError).
Proof.
  unfold getitems.
  assert (G : (incl qis (columns df) /\
               exists js, mapM (fun c => get_loc c (columns df)) qis = Ok js) \/
              (~ incl qis (columns df) /\
               mapM (fun c => get_loc c (columns df)) qis = Raise KeyError)).
  { induction qis as [| c qis IH]; simpl.
    - left. split; [intros x [] | exists []; reflexivity].
    - destruct (get_loc_cases c (columns df)) as [[Hin [j Hj]] | [Hnin Hr]].
      + rewrite Hj. cbn [bind].
        destruct IH as [[Hincl [js Hjs]] | [Hnincl Hr]].
        * left. split; [intros x [<- | Hx]; [exact Hin | apply Hincl, Hx] |].
          rewrite Hjs. cbn [bind]. eexists; reflexivity.
        * right. split; [| rewrite Hr; reflexivity].
          intros H. apply Hnincl. intros x Hx. apply H. right. exact Hx.
      + right. rewrite Hr. split; [| reflexivity].
        intros H. apply Hnin, H. left. reflexivity. }
  destruct G as [[Hincl [js Hjs]] | [Hnincl Hr]].
  - left. split; [exact Hincl |]. rewrite Hjs. cbn [bind]. eexists; reflexivity.
  - right. split; [exact Hnincl |]. rewrite Hr. reflexivity.
Qed.

Lemma column_info_loss_cases (df : DataFrame) (col : string) :
  (In col (columns df) /\ exists cl, column_info_loss df col = Ok cl) \/
  (~ In col (columns df) /\ column_info_loss df col = Raise KeyError).
Proof.
  destruct (get_loc_cases col (columns df)) as [[Hin _] | [Hnin Hr]].
  - left. split; [exact Hin | apply column_info_loss_In, Hin].
  - right. split; [exact Hnin |]. unfold column_info_loss, getitem.
    rewrite Hr. reflexivity.
Qed.

Lemma info_loss_loop_cases (df : DataFrame) (qis : list string)
    (acc : list (string * column_loss)) :
  (incl qis (columns df) /\ exists info, info_loss_loop df qis acc = Ok info) \/
  (~ incl qis (columns df) /\ info_loss_loop df qis acc = Raise KeyError).
Proof.
  revert acc. induction qis as [| c qis IH]; intros acc; simpl.
  - left. split; [intros x [] | exists acc; reflexivity].
  - destruct (column_info_loss_cases df c) as [[Hin [cl Hcl]] | [Hnin Hr]].
    + rewrite Hcl. cbn [bind].
      destruct (IH (dict_set String.eqb c cl acc)) as [[Hincl Hex] | [Hnincl Hr]].
      * left. split; [intros x [<- | Hx]; [exact Hin | apply Hincl, Hx] | exact Hex].
      * right. split; [| exact Hr].
        intros H. apply Hnincl. intros x Hx. apply H. right. exact Hx.
    + right. rewrite Hr. split; [| reflexivity].
      intros H. apply Hnin, H. left. reflexivity.
Qed.

(** X1.  The class builder and the information-loss computation fail
    exactly when a listed quasi-identifier is not a column of the frame,
    and the failure is a [KeyError]; otherwise both return. *)
Theorem missing_column_KeyError (df : DataFrame) (qis : list string) :
  (compute_equivalence_classes df qis = Raise KeyError <->
   ~ incl qis (columns df)) /\
  (calculate_information_loss df qis = Raise KeyError <->
   ~ incl qis (columns df)) /\
  ((exists out, compute_equivalence_classes df qis = Ok out) <->
   incl qis (columns df)) /\
  ((exists report, calculate_information_loss df qis = Ok report) <->
   incl qis (columns df)).
Proof.
  assert (Hc : (incl qis (columns df) /\
                exists out, compute_equivalence_classes df qis = Ok out) \/
               (~ incl qis (columns df) /\
                compute_equivalence_classes df qis = Raise KeyError)).
  { unfold compute_equivalence_classes.
    destruct (getitems_cases df qis) as [[Hincl [sub Hsub]] | [Hn Hr]].
    - left. split; [exact Hincl |]. rewrite Hsub. cbn [bind]. eexists; reflexivity.
    - right. split; [exact Hn |]. rewrite Hr. reflexivity. }
  assert (Hi : (incl qis (columns df) /\
                exists report, calculate_information_loss df qis = Ok report) \/
               (~ incl qis (columns df) /\
                calculate_information_loss df qis = Raise KeyError)).
  { destruct (info_loss_loop_cases df qis []) as [[Hincl _] | [Hn Hr]].
    - left. split; [exact Hincl |].
      destruct (calculate_information_loss_total df qis Hincl)
        as [info [avg [_ [_ [_ [_ Hres]]]]]].
      eexists; exact Hres.
    - right. split; [exact Hn |]. unfold calculate_information_loss.
      rewrite Hr. reflexivity. }
  repeat split.
  - intros H. destruct Hc as [[_ [out Ho]] | [Hn _]]; [congruence | exact Hn].
  - intros H. destruct Hc as [[Hincl _] | [_ Hr]]; [contradiction | exact Hr].
  - intros H. destruct Hi as [[_ [out Ho]] | [Hn _]]; [congruence | exact Hn].
  - intros H. destruct Hi as [[Hincl _] | [_ Hr]]; [contradiction | exact Hr].
  - intros [out Ho]. destruct Hc as [[Hincl _] | [_ Hr]]; [exact Hincl | congruence].
  - intros H. destruct Hc as [[_ Hex] | [Hn _]]; [exact Hex | contradiction].
  - intros [out Ho]. destruct Hi as [[Hincl _] | [_ Hr]]; [exact Hincl | congruence].
  - intros H. destruct Hi as [[_ Hex] | [Hn _]]; [exact Hex | contradiction].
Qed.

(* ================================================================= *)
(** ** Order and contents of the builder's dictionaries *)

Lemma keys_dict_set {V : Type} (k : string) (v : V) (d : list (string * V)) :
  keys (dict_set String.eqb k v d) =
  if existsb (String.eqb k) (keys d) then keys d else keys d ++ [k].
Proof.
  unfold keys. induction d as [| [k' v'] d IH]; simpl.
  - reflexivity.
  - destruct (String.eqb k k') eqn:E; simpl.
    + reflexivity.
    + rewrite IH.
      destruct (existsb (String.eqb k) (map fst d)); reflexivity.
Qed.

Lemma filter_filter {A : Type} (p q : A -> bool) (l : list A) :
  filter p (filter q l) = filter (fun x => q x && p x) l.
Proof.
  induction l as [| a l IH]; simpl; [reflexivity |].
  destruct (q a); simpl; [destruct (p a) |]; rewrite IH; reflexivity.
Qed.

Lemma counter_fold_first_seen (l : list string) (c : list (string * nat)) :
  keys (fold_left (counter_step String.eqb) l c) =
  keys c ++ filter (fun x => negb (existsb (String.eqb x) (keys c))) (first_seen l).
Proof.
  revert c. induction l as [| k l IH]; intros c; simpl.
  - rewrite app_nil_r. reflexivity.
  - rewrite IH. unfold counter_step at 1 2. rewrite keys_dict_set.
    destruct (existsb (String.eqb k) (keys c)) eqn:E; simpl.
    + f_equal. rewrite filter_filter. apply filter_ext_in. intros x _.
      destruct (String.eqb k x) eqn:Ex; simpl; [| reflexivity].
      apply String.eqb_eq in Ex. subst x. rewrite E. reflexivity.
    + rewrite <- app_assoc. simpl. f_equal. f_equal.
      rewrite filter_filter. apply filter_ext_in. intros x _.
      rewrite existsb_app. simpl. rewrite orb_false_r, negb_orb.
      rewrite (String.eqb_sym x k). apply andb_comm.
Qed.

Lemma positions_sorted (P : nat * string -> bool) (l : list string) (s : nat) :
  StronglySorted lt (map fst (filter P (combine (seq s (length l)) l))).
Proof.
  revert s. induction l as [| a l IH]; intros s; simpl.
  - constructor.
  - assert (Hrest : Forall (lt s)
              (map fst (filter P (combine (seq (S s) (length l)) l)))).
    { apply Forall_forall. intros i Hi. apply in_map_iff in Hi.
      destruct Hi as [[i' a'] [<- Hin]]. apply filter_In in Hin.
      destruct Hin as [Hin _]. apply in_combine_l in Hin.
      apply in_seq in Hin. simpl. lia. }
    destruct (P (s, a)); simpl.
    + constructor; [apply IH | exact Hrest].
    + apply IH.
Qed.

(** X2.  What the two dictionaries of the class builder hold.  The keys of
    [ec_counts] are the distinct composite keys in the order in which they
    first occur in the data, and [ec_groups] has the same keys in the same
    order.  Looking a key up in [ec_counts] gives the number of records
    with that key (0 for a key that does not occur).  Every membership list
    of [ec_groups] is strictly increasing, hence lists its records in the
    order of the data set. *)
Theorem builder_dictionaries (df : DataFrame) (qis : list string)
    (ec_counts : list (string * nat)) (ec_groups : list (string * list nat))
    (sub : list (list cell)) :
  compute_equivalence_classes df qis = Ok (ec_counts, ec_groups) ->
  getitems df qis = Ok sub ->
  keys ec_counts = first_seen (map ec_key sub) /\
  keys ec_groups = keys ec_counts /\
  (forall k, dict_getd String.eqb 0 k ec_counts =
             length (filter (String.eqb k) (map ec_key sub))) /\
  (forall k m, In (k, m) ec_groups -> StronglySorted lt m).
Proof.
  intros Hc Hsub.
  destruct (compute_equivalence_classes_Ok _ _ _ _ Hc)
    as [sub' [Hsub' [_ [Hcc Hgg]]]].
  assert (sub' = sub) by congruence. subst sub'.
  split; [| split; [| split]].
  - rewrite Hcc. unfold Counter. rewrite counter_fold_first_seen. simpl.
    generalize (first_seen (map ec_key sub)) as l.
    induction l as [| a l IH]; simpl; [reflexivity | rewrite IH; reflexivity].
  - rewrite Hcc, Hgg, <- builder_counts_are_group_sizes.
    unfold keys. rewrite map_map. reflexivity.
  - intros k. rewrite Hcc. unfold Counter.
    rewrite counter_fold_get by apply string_eqb_eq. reflexivity.
  - intros k m Hin. rewrite Hgg in Hin.
    assert (Hnd : NoDup (keys (fold_left group_step
                                 (enumerate (map ec_key sub)) [])))
      by (apply groups_fold_NoDup; constructor).
    pose proof (In_dict_get String.eqb string_eqb_eq k m _ Hnd Hin) as Hget.
    pose proof (groups_fold_get (enumerate (map ec_key sub)) [] k) as Hchar.
    unfold dict_getd at 1 in Hchar. rewrite Hget in Hchar. simpl in Hchar.
    subst m. apply positions_sorted.
Qed.

Lemma builder_dictionaries_witness :
  compute_equivalence_classes df_aabbb ["city"] =
    Ok ([("A", 2); ("B", 3)], [("A", [0; 1]); ("B", [2; 3; 4])]) /\
  getitems df_aabbb ["city"] =
    Ok [[CStr "A"]; [CStr "A"]; [CStr "B"]; [CStr "B"]; [CStr "B"]] /\
  keys [("A", 2); ("B", 3)] = first_seen (map ec_key [[CStr "A"]; [CStr "A"];
                                [CStr "B"]; [CStr "B"]; [CStr "B"]]) /\
  keys [("A", [0; 1]); ("B", [2; 3; 4])] = keys [("A", 2); ("B", 3)] /\
  (forall k, dict_getd String.eqb 0 k [("A", 2); ("B", 3)] =
             length (filter (String.eqb k)
                       (map ec_key [[CStr "A"]; [CStr "A"]; [CStr "B"];
                                    [CStr "B"]; [CStr "B"]]))) /\
  (forall k m, In (k, m) [("A", [0; 1]); ("B", [2; 3; 4])] ->
               StronglySorted lt m).
Proof.
  split; [reflexivity |]. split; [reflexivity |].
  apply (builder_dictionaries df_aabbb ["city"]); reflexivity.
Defined.

(* ================================================================= *)
(** ** What the verdict means *)

Lemma Counter_entry (l : list string) (k : string) (n : nat) :
  In (k, n) (Counter String.eqb l) ->
  n = length (filter (String.eqb k) l) /\ In k l.
Proof.
  intros Hin. unfold Counter in *.
  assert (Hnd : NoDup (keys (fold_left (counter_step String.eqb) l [])))
    by (apply counter_fold_NoDup; [apply string_eqb_eq | constructor]).
  pose proof (In_dict_get String.eqb string_eqb_eq k n _ Hnd Hin) as Hget.
  pose proof (counter_fold_get String.eqb string_eqb_eq l [] k) as Hc.
  unfold dict_getd at 1 in Hc. rewrite Hget in Hc. simpl in Hc.
  split; [exact Hc |].
  assert (Hk : In k (keys (fold_left (counter_step String.eqb) l []))).
  { unfold keys. change k with (fst (k, n)). apply in_map. exact Hin. }
  apply (counter_fold_keys String.eqb string_eqb_eq) in Hk.
  destruct Hk as [[] | Hk]. exact Hk.
Qed.

Lemma Counter_has (l : list string) (k : string) :
  In k l -> In (k, length (filter (String.eqb k) l)) (Counter String.eqb l).
Proof.
  intros Hin. unfold Counter.
  assert (Hk : In k (keys (fold_left (counter_step String.eqb) l [])))
    by (apply (counter_fold_keys String.eqb string_eqb_eq); right; exact Hin).
  destruct (dict_get String.eqb k (fold_left (counter_step String.eqb) l []))
    as [n |] eqn:Hget.
  - pose proof (counter_fold_get String.eqb string_eqb_eq l [] k) as Hc.
    unfold dict_getd at 1 in Hc. rewrite Hget in Hc. simpl in Hc. subst n.
    apply (dict_get_In String.eqb string_eqb_eq). exact Hget.
  - apply (dict_get_None String.eqb string_eqb_eq) in Hget. contradiction.
Qed.

Lemma records_like_count (sub : list (list cell)) (i : nat) :
  records_like sub i =
  length (filter (String.eqb (ec_key (nth i sub []))) (map ec_key sub)).
Proof.
  unfold records_like. generalize (ec_key (nth i sub [])) as k. intros k.
  induction sub as [| r sub IH]; simpl; [reflexivity |].
  destruct (String.eqb k (ec_key r)); simpl; rewrite IH; reflexivity.
Qed.

Lemma Qn_le (a b : nat) : a <= b -> (Qn a <= Qn b)%Q.
Proof.
  intros H. unfold Qn. rewrite <- Zle_Qle. lia.
Qed.

(** X3.  The meaning of the verdict.  On a data set with at least one
    record, [satisfies_k_anonymity] is true if and only if every record
    shares its composite key with at least [k] records of the data set
    (itself included). *)
Theorem verdict_every_record_has_k_like (df : DataFrame) (k : Q) :
  wf_df df = true ->
  0 < len df ->
  exists r sub,
    evaluate_k_anonymity df k = Ok r /\
    getitems df (quasi_identifiers r) = Ok sub /\
    (satisfies_k_anonymity r = true <->
     forall i, i < len df -> (k <= Qn (records_like sub i))%Q).
Proof.
  intros _ Hpos.
  destruct (evaluate_k_anonymity_total df k)
    as [qis [c [g [rk [m [il [sr [Hq [Hc [_ [Hm [_ [_ Hev]]]]]]]]]]]]].
  destruct (compute_equivalence_classes_Ok _ _ _ _ Hc)
    as [sub [Hsub [Hlen [Hcc _]]]].
  eexists. exists sub. split; [exact Hev |]. cbn [quasi_identifiers].
  split; [exact Hsub |]. cbn [satisfies_k_anonymity]. rewrite Qle_bool_iff.
  assert (Hkey : forall i, i < len df ->
            In (ec_key (nth i sub [])) (map ec_key sub)).
  { intros i Hi. apply in_map. apply nth_In. lia. }
  destruct (min_ec_size_is_minimum c (len df) m Hm) as [[Hnil _] | [Hin Hall]].
  - exfalso. rewrite Hnil in Hcc.
    assert (Hk0 := Counter_has (map ec_key sub) _ (Hkey 0 Hpos)).
    rewrite <- Hcc in Hk0. exact Hk0.
  - split.
    + intros Hk i Hi. apply (Qle_trans _ _ _ Hk). apply Qn_le.
      rewrite Forall_forall in Hall. apply Hall.
      rewrite records_like_count, Hcc. unfold values.
      change (length (filter (String.eqb (ec_key (nth i sub []))) (map ec_key sub)))
        with (snd (ec_key (nth i sub []),
                   length (filter (String.eqb (ec_key (nth i sub [])))
                                  (map ec_key sub)))).
      apply in_map. apply Counter_has. apply Hkey, Hi.
    + intros Hall'. unfold values in Hin. apply in_map_iff in Hin.
      destruct Hin as [[k' n] [Hn Hin]]. simpl in Hn. rewrite Hcc in Hin.
      apply Counter_entry in Hin. destruct Hin as [Hcount Hk'].
      apply in_map_iff in Hk'. destruct Hk' as [row [Hrow Hrin]].
      apply (In_nth _ _ []) in Hrin. destruct Hrin as [i [Hi Hnth]].
      rewrite Hlen in Hi. specialize (Hall' i Hi).
      rewrite records_like_count, Hnth, Hrow, <- Hcount, Hn in Hall'.
      exact Hall'.
Qed.

Lemma verdict_every_record_has_k_like_witness :
  wf_df df_aabbb = true /\
  0 < len df_aabbb /\
  exists r sub,
    evaluate_k_anonymity df_aabbb 2 = Ok r /\
    getitems df_aabbb (quasi_identifiers r) = Ok sub /\
    (satisfies_k_anonymity r = true <->
     forall i, i < len df_aabbb -> (2 <= Qn (records_like sub i))%Q).
Proof.
  assert (H1 : wf_df df_aabbb = true) by reflexivity.
  assert (H2 : 0 < len df_aabbb) by (vm_compute; lia).
  split; [exact H1 |]. split; [exact H2 |].
  apply (verdict_every_record_has_k_like df_aabbb 2 H1 H2).
Defined.

(** X4.  A data set without records has no class, so its smallest class
    size is reported as 0: the verdict is true exactly when [k <= 0], and
    false for every positive threshold. *)
Theorem verdict_on_empty_dataset (df : DataFrame) (k : Q) :
  wf_df df = true ->
  rows df = [] ->
  exists r,
    evaluate_k_anonymity df k = Ok r /\
    quasi_identifiers r = [] /\
    min_ec_size (equivalence_class_metrics r) = 0 /\
    (satisfies_k_anonymity r = true <-> (k <= 0)%Q).
Proof.
  intros _ Hrows.
  destruct (evaluate_k_anonymity_total df k)
    as [qis [c [g [rk [m [il [sr [Hq [Hc [_ [Hm [_ [_ Hev]]]]]]]]]]]]].
  assert (Hqis : qis = []).
  { rewrite identify_quasi_identifiers_filter in Hq. inversion Hq as [Hf].
    rewrite <- (filter_ext_in (fun _ => false)).
    - clear. induction (columns df); simpl; auto.
    - intros col Hcol. unfold qi_test, getitem.
      destruct (get_loc_In col _ Hcol) as [j Hj]. rewrite Hj, Hrows. reflexivity. }
  subst qis.
  unfold compute_equivalence_classes in Hc.
  rewrite (getitems_empty df [] Hrows) in Hc by (intros x []).
  inversion Hc; subst c g.
  rewrite calculate_equivalence_class_metrics_Ok in Hm. inversion Hm; subst m.
  eexists. split; [exact Hev |]. cbn.
  split; [reflexivity |]. split; [reflexivity |]. apply Qle_bool_iff.
Qed.

Lemma verdict_on_empty_dataset_witness :
  wf_df df_empty = true /\
  rows df_empty = [] /\
  exists r,
    evaluate_k_anonymity df_empty 2 = Ok r /\
    quasi_identifiers r = [] /\
    min_ec_size (equivalence_class_metrics r) = 0 /\
    (satisfies_k_anonymity r = true <-> (2 <= 0)%Q).
Proof.
  assert (H1 : wf_df df_empty = true) by reflexivity.
  assert (H2 : rows df_empty = []) by reflexivity.
  split; [exact H1 |]. split; [exact H2 |].
  apply (verdict_on_empty_dataset df_empty 2 H1 H2).
Defined.

(* ================================================================= *)
(** ** Risk, class sizes and the advisories *)

Lemma inv_antitone (a b : Q) :
  (0 < a)%Q -> (a <= b)%Q -> (1 / b <= 1 / a)%Q.
Proof.
  intros Ha Hab.
  assert (Hb : (0 < b)%Q) by (apply (Qlt_le_trans _ a); assumption).
  apply Qle_shift_div_r; [exact Hb |].
  assert (H1 : (1 / a * a == 1)%Q).
  { field. intros H0. rewrite H0 in Ha. revert Ha. apply Qlt_irrefl. }
  rewrite <- H1 at 1. apply Qmult_le_l; [| exact Hab].
  apply Qlt_shift_div_l; [exact Ha |]. rewrite Qmult_0_l. reflexivity.
Qed.

Lemma calculate_reidentification_risks_Ok (ec_counts : list (string * nat)) :
  Forall (fun n => 1 <= n) (values ec_counts) ->
  calculate_reidentification_risks ec_counts =
  Ok {| max_risk := match values ec_counts with
                    | [] => 0%Q
                    | s :: ss => qmax (1 / Qn s)
                                   (map (fun n => (1 / Qn n)%Q) ss)
                    end;
        avg_risk := match values ec_counts with
                    | [] => 0%Q
                    | _ :: _ =>
                        (qsum (map (fun n => (1 / Qn n)%Q) (values ec_counts))
                         / Qn (length ec_counts))%Q
                    end;
        risks := map (fun n => (1 / Qn n)%Q) (values ec_counts) |}.
Proof.
  intros Hpos. unfold calculate_reidentification_risks.
  rewrite (risks_Ok _ Hpos). cbn [bind].
  destruct ec_counts as [| [k s] c]; [reflexivity |].
  cbn [values map snd].
  rewrite (pydiv_Ok _ (length ((1 / Qn s)%Q :: map (fun n => (1 / Qn n)%Q) (map snd c))))
    by (simpl; lia).
  cbn [bind]. simpl length. rewrite !length_map. reflexivity.
Qed.

(** The largest risk is the risk of the smallest class. *)
Lemma max_risk_of_min_size (s : nat) (ss : list nat) :
  Forall (fun n => 1 <= n) (s :: ss) ->
  (qmax (1 / Qn s) (map (fun n => (1 / Qn n)%Q) ss) == 1 / Qn (nmin s ss))%Q /\
  1 <= nmin s ss.
Proof.
  intros Hpos. destruct (nmin_spec s ss) as [Hin Hlow].
  rewrite Forall_forall in Hpos, Hlow.
  assert (Hmin : 1 <= nmin s ss) by (apply Hpos, Hin).
  split; [| exact Hmin].
  apply Qle_antisym.
  - pose proof (qmax_In (1 / Qn s) (map (fun n => (1 / Qn n)%Q) ss)) as Hq.
    change ((1 / Qn s)%Q :: map (fun n => (1 / Qn n)%Q) ss)
      with (map (fun n => (1 / Qn n)%Q) (s :: ss)) in Hq.
    apply in_map_iff in Hq. destruct Hq as [t [Ht Htin]]. rewrite <- Ht.
    apply inv_antitone; [apply Qn_pos, Hmin | apply Qn_le, Hlow, Htin].
  - pose proof (qmax_upper (1 / Qn s) (map (fun n => (1 / Qn n)%Q) ss)) as Hu.
    rewrite Forall_forall in Hu. apply Hu.
    change ((1 / Qn s)%Q :: map (fun n => (1 / Qn n)%Q) ss)
      with (map (fun n => (1 / Qn n)%Q) (s :: ss)).
    apply (in_map (fun n => (1 / Qn n)%Q)). exact Hin.
Qed.

(** What a report is made of: the risk metrics and the statistics of one
    collection of classes, whose sizes are positive and add up to the
    number of records. *)
Lemma evaluate_k_anonymity_parts (df : DataFrame) (k : Q) :
  exists r ec_counts,
    evaluate_k_anonymity df k = Ok r /\
    Forall (fun n => 1 <= n) (values ec_counts) /\
    list_sum (values ec_counts) = len df /\
    calculate_reidentification_risks ec_counts = Ok (risks_report r) /\
    calculate_equivalence_class_metrics ec_counts (len df) =
      Ok (equivalence_class_metrics r) /\
    satisfies_k_anonymity r =
      Qle_bool k (Qn (min_ec_size (equivalence_class_metrics r))) /\
    num_records r = len df.
Proof.
  destruct (evaluate_k_anonymity_total df k)
    as [qis [c [g [rk [m [il [sr [Hq [Hc [Hrk [Hm [_ [_ Hev]]]]]]]]]]]]].
  destruct (compute_equivalence_classes_Ok _ _ _ _ Hc)
    as [sub [Hsub [Hlen [Hcc _]]]].
  eexists. exists c. split; [exact Hev |]. cbn.
  split; [rewrite Hcc; apply Counter_positive |].
  split; [| repeat split; assumption].
  rewrite Hcc. unfold Counter. rewrite counter_fold_sum. simpl.
  rewrite length_map. exact Hlen.
Qed.

(** X5.  On a data set with at least one record the reported [max_risk] is
    1 divided by the reported [min_ec_size].  Hence a data set that
    satisfies k-anonymity for a positive [k] has [max_risk <= 1/k]. *)
Theorem max_risk_is_inverse_of_min_ec_size (df : DataFrame) (k : Q) :
  wf_df df = true ->
  0 < len df ->
  exists r,
    evaluate_k_anonymity df k = Ok r /\
    1 <= min_ec_size (equivalence_class_metrics r) /\
    (max_risk (risks_report r) ==
     1 / Qn (min_ec_size (equivalence_class_metrics r)))%Q /\
    ((0 < k)%Q -> satisfies_k_anonymity r = true ->
     (max_risk (risks_report r) <= 1 / k)%Q).
Proof.
  intros _ Hpos.
  destruct (evaluate_k_anonymity_parts df k)
    as [r [c [Hev [Hc [Hsum [Hrk [Hm [Hsat _]]]]]]]].
  exists r. split; [exact Hev |].
  rewrite (calculate_reidentification_risks_Ok c Hc) in Hrk.
  rewrite calculate_equivalence_class_metrics_Ok in Hm.
  inversion Hrk as [Hrk']. inversion Hm as [Hm']. cbn [max_risk min_ec_size].
  destruct c as [| [k0 s] c]; [simpl in Hsum; lia |].
  cbn [values map snd] in *.
  destruct (max_risk_of_min_size s (map snd c) Hc) as [Heq Hmin].
  split; [exact Hmin |]. split; [exact Heq |].
  intros Hk Hs. rewrite Hsat, <- Hm' in Hs. cbn [min_ec_size] in Hs.
  apply Qle_bool_iff in Hs. rewrite Heq. apply inv_antitone; assumption.
Qed.

Lemma max_risk_is_inverse_of_min_ec_size_witness :
  wf_df df_aabbb = true /\
  0 < len df_aabbb /\
  exists r,
    evaluate_k_anonymity df_aabbb 2 = Ok r /\
    1 <= min_ec_size (equivalence_class_metrics r) /\
    (max_risk (risks_report r) ==
     1 / Qn (min_ec_size (equivalence_class_metrics r)))%Q /\
    ((0 < 2)%Q -> satisfies_k_anonymity r = true ->
     (max_risk (risks_report r) <= 1 / 2)%Q).
Proof.
  assert (H1 : wf_df df_aabbb = true) by reflexivity.
  assert (H2 : 0 < len df_aabbb) by (vm_compute; lia).
  split; [exact H1 |]. split; [exact H2 |].
  apply (max_risk_is_inverse_of_min_ec_size df_aabbb 2 H1 H2).
Defined.

Lemma filter_nonempty {A : Type} (p : A -> bool) (l : list A) :
  0 < length (filter p l) <-> exists x, In x l /\ p x = true.
Proof.
  split.
  - intros H. destruct (filter p l) as [| x t] eqn:E; [simpl in H; lia |].
    exists x. apply filter_In. rewrite E. left. reflexivity.
  - intros [x Hx]. apply filter_In in Hx.
    destruct (filter p l); [contradiction | simpl; lia].
Qed.

(** The two thresholds of the report, read on the class sizes. *)
Lemma advisory_conditions (ec_counts : list (string * nat)) (n : nat)
    (rk : risk_report) (m : ec_metrics) :
  Forall (fun s => 1 <= s) (values ec_counts) ->
  calculate_reidentification_risks ec_counts = Ok rk ->
  calculate_equivalence_class_metrics ec_counts n = Ok m ->
  (Qle_bool (max_risk rk) (1 # 2) = false <-> min_ec_size m = 1) /\
  (0 < unique_records m <-> min_ec_size m = 1).
Proof.
  intros Hpos Hrk Hm.
  rewrite (calculate_reidentification_risks_Ok _ Hpos) in Hrk.
  rewrite calculate_equivalence_class_metrics_Ok in Hm.
  inversion Hrk as [Hrk']. inversion Hm as [Hm'].
  cbn [max_risk min_ec_size unique_records]. clear Hrk Hm Hrk' Hm'.
  destruct ec_counts as [| [k0 s] c]; cbn [values map snd] in *.
  - split; split; simpl; intros H; try discriminate H; lia.
  - destruct (max_risk_of_min_size s (map snd c) Hpos) as [Heq Hmin].
    destruct (nmin_spec s (map snd c)) as [Hin Hlow].
    split.
    + split.
      * intros Hle. destruct (Nat.eq_dec (nmin s (map snd c)) 1) as [E | E];
          [exact E | exfalso].
        assert (Hq : Qle_bool (qmax (1 / Qn s)
                      (map (fun n0 => (1 / Qn n0)%Q) (map snd c))) (1 # 2) = true).
        { apply Qle_bool_iff. rewrite Heq.
          apply (Qle_trans _ (1 / Qn 2)); [| apply Qle_refl].
          apply inv_antitone; [reflexivity | apply Qn_le; lia]. }
        congruence.
      * intros E. apply not_true_is_false. intros Hle.
        apply Qle_bool_iff in Hle. rewrite Heq, E in Hle.
        revert Hle. apply Qlt_not_le. reflexivity.
    + rewrite filter_nonempty. split.
      * intros [x [Hx Hx1]]. apply Nat.eqb_eq in Hx1. subst x.
        rewrite Forall_forall in Hlow. specialize (Hlow 1 Hx). lia.
      * intros E. exists (nmin s (map snd c)). split; [exact Hin |].
        rewrite E. reflexivity.
Qed.

Lemma recommendations_In (r : results) :
  (In HighRisk (recommendations r) <->
   Qle_bool (max_risk (risks_report r)) (1 # 2) = false) /\
  (In HasUniqueRecords (recommendations r) <->
   0 < unique_records (equivalence_class_metrics r)).
Proof.
  unfold recommendations.
  pose proof (Nat.ltb_lt 0 (unique_records (equivalence_class_metrics r))) as HL.
  revert HL.
  generalize (satisfies_k_anonymity r) as b1.
  generalize (Qle_bool (max_risk (risks_report r)) (1 # 2)) as b2.
  generalize (0 <? unique_records (equivalence_class_metrics r)) as b3.
  intros [|] [|] [|] HL; simpl; (split; [| rewrite <- HL]);
    intuition (try discriminate; try congruence).
Qed.

(** X6.  The two warnings of the printed report always come together: the
    high-risk warning ([max_risk > 0.5]) is printed if and only if the
    unique-records warning ([unique_records > 0]) is, namely when the
    smallest class has one record.  A data set that satisfies k-anonymity
    for some [k >= 2] gets neither warning. *)
Theorem warnings_come_together (df : DataFrame) (k : Q) :
  wf_df df = true ->
  exists r,
    evaluate_k_anonymity df k = Ok r /\
    (In HighRisk (recommendations r) <->
     In HasUniqueRecords (recommendations r)) /\
    (In HasUniqueRecords (recommendations r) <->
     min_ec_size (equivalence_class_metrics r) = 1) /\
    ((2 <= k)%Q -> satisfies_k_anonymity r = true ->
     recommendations r = [IsKAnonymous]).
Proof.
  intros _.
  destruct (evaluate_k_anonymity_parts df k)
    as [r [c [Hev [Hc [_ [Hrk [Hm [Hsat _]]]]]]]].
  exists r. split; [exact Hev |].
  destruct (advisory_conditions c (len df) _ _ Hc Hrk Hm) as [Hhigh Huniq].
  destruct (recommendations_In r) as [HinH HinU].
  split; [rewrite HinH, HinU, Hhigh, Huniq; reflexivity |].
  split; [rewrite HinU, Huniq; reflexivity |].
  intros Hk Hs.
  assert (Hmin : 2 <= min_ec_size (equivalence_class_metrics r)).
  { rewrite Hsat in Hs. apply Qle_bool_iff in Hs.
    pose proof (Qle_trans _ _ _ Hk Hs) as H2.
    unfold Qn, Qle in H2. simpl in H2. lia. }
  unfold recommendations. rewrite Hs. simpl.
  destruct (Qle_bool (max_risk (risks_report r)) (1 # 2)) eqn:E1;
    [| pose proof (proj1 Hhigh eq_refl); lia].
  destruct (0 <? unique_records (equivalence_class_metrics r)) eqn:E2;
    [apply Nat.ltb_lt, Huniq in E2; lia | reflexivity].
Qed.

Lemma warnings_come_together_witness :
  wf_df df_average = true /\
  exists r,
    evaluate_k_anonymity df_average 2 = Ok r /\
    (In HighRisk (recommendations r) <->
     In HasUniqueRecords (recommendations r)) /\
    (In HasUniqueRecords (recommendations r) <->
     min_ec_size (equivalence_class_metrics r) = 1) /\
    ((2 <= 2)%Q -> satisfies_k_anonymity r = true ->
     recommendations r = [IsKAnonymous]).
Proof.
  split; [reflexivity |].
  apply (warnings_come_together df_average 2). reflexivity.
Defined.

(* ================================================================= *)
(** ** Consistency of the statistics *)

Lemma list_sum_bounds (lo hi : nat) (l : list nat) :
  Forall (fun x => lo <= x /\ x <= hi) l ->
  length l * lo <= list_sum l /\ list_sum l <= length l * hi.
Proof.
  induction 1 as [| x l [Hlo Hhi] Hl IH]; simpl; lia.
Qed.

Lemma list_sum_ge_each (l : list nat) (x : nat) : In x l -> x <= list_sum l.
Proof.
  induction l as [| a l IH]; simpl; intros H; [contradiction |].
  destruct H as [-> | H]; [lia | specialize (IH H); lia].
Qed.

Lemma Qn_mult (a b : nat) : (Qn (a * b) == Qn a * Qn b)%Q.
Proof.
  unfold Qn. rewrite Nat2Z.inj_mul, inject_Z_mult. reflexivity.
Qed.

Lemma Qdiv_between (lo hi n d : nat) :
  1 <= d -> d * lo <= n -> n <= d * hi ->
  (Qn lo <= Qn n / Qn d /\ Qn n / Qn d <= Qn hi)%Q.
Proof.
  intros Hd Hlo Hhi. pose proof (Qn_pos d Hd) as Hp. split.
  - apply Qle_shift_div_l; [exact Hp |]. rewrite <- Qn_mult. apply Qn_le. lia.
  - apply Qle_shift_div_r; [exact Hp |]. rewrite <- Qn_mult. apply Qn_le. lia.
Qed.

(** X7.  On a data set with at least one record the statistics are
    consistent with one another: [1 <= min_ec_size <= avg_ec_size <=
    max_ec_size <= num_records], the number of classes is at least 1 and at
    most the number of records, [unique_records] is at most the number of
    classes, and [unique_records_percentage] lies between 0 and 100. *)
Theorem statistics_are_consistent (df : DataFrame) (k : Q) :
  wf_df df = true ->
  0 < len df ->
  exists r,
    evaluate_k_anonymity df k = Ok r /\
    let m := equivalence_class_metrics r in
    1 <= min_ec_size m /\
    (Qn (min_ec_size m) <= avg_ec_size m)%Q /\
    (avg_ec_size m <= Qn (max_ec_size m))%Q /\
    max_ec_size m <= num_records r /\
    1 <= num_equivalence_classes m <= num_records r /\
    unique_records m <= num_equivalence_classes m /\
    (0 <= unique_records_percentage m <= 100)%Q.
Proof.
  intros _ Hpos.
  destruct (evaluate_k_anonymity_parts df k)
    as [r [c [Hev [Hc [Hsum [_ [Hm [_ Hnum]]]]]]]].
  exists r. split; [exact Hev |]. rewrite Hnum.
  rewrite calculate_equivalence_class_metrics_Ok in Hm.
  inversion Hm as [Hm']. clear Hm Hm'.
  cbn [min_ec_size avg_ec_size max_ec_size num_equivalence_classes
       unique_records unique_records_percentage].
  destruct c as [| [k0 s] c]; [simpl in Hsum; lia |].
  cbn [values map snd] in *.
  set (sizes := s :: map snd c) in *.
  assert (Hlen : length ((k0, s) :: c) = length sizes)
    by (unfold sizes; simpl; rewrite length_map; reflexivity).
  destruct (nmin_spec s (map snd c)) as [Hmin_in Hmin].
  destruct (nmax_spec s (map snd c)) as [Hmax_in Hmax].
  fold sizes in Hmin_in, Hmin, Hmax_in, Hmax.
  assert (Hb : Forall (fun x => nmin s (map snd c) <= x /\ x <= nmax s (map snd c))
                      sizes).
  { rewrite Forall_forall in *. intros x Hx. split; [apply Hmin | apply Hmax]; exact Hx. }
  destruct (list_sum_bounds _ _ _ Hb) as [Hlo Hhi].
  assert (Hone : Forall (fun x => 1 <= x /\ x <= list_sum sizes) sizes).
  { rewrite Forall_forall in *. intros x Hx.
    split; [apply Hc, Hx | apply list_sum_ge_each, Hx]. }
  destruct (list_sum_bounds _ _ _ Hone) as [Hlen1 _].
  assert (Hlpos : 1 <= length sizes) by (unfold sizes; simpl; lia).
  assert (Hmin1 : 1 <= nmin s (map snd c))
    by (rewrite Forall_forall in Hc; apply Hc, Hmin_in).
  assert (Hu : length (filter (fun size => size =? 1) sizes) <= length sizes)
    by apply filter_length_le.
  rewrite Hlen, Hsum in *.
  destruct (Qdiv_between (nmin s (map snd c)) (nmax s (map snd c))
                         (len df) (length sizes) Hlpos)
    as [Havg1 Havg2]; [lia | lia |].
  split; [exact Hmin1 |]. split; [exact Havg1 |]. split; [exact Havg2 |].
  split; [rewrite <- Hsum; apply list_sum_ge_each, Hmax_in |].
  split; [lia |]. split; [exact Hu |].
  destruct (0 <? len df) eqn:E; [| apply Nat.ltb_ge in E; lia].
  destruct (Qdiv_between 0 1 (length (filter (fun size => size =? 1) sizes))
                         (len df)) as [H0 H1]; [lia | lia | lia |].
  split.
  - apply Qmult_le_0_compat; [exact H0 | discriminate].
  - apply (Qle_trans _ (1 * 100)); [| apply Qle_refl].
    apply Qmult_le_compat_r; [exact H1 | discriminate].
Qed.

Lemma statistics_are_consistent_witness :
  wf_df df_aabbb = true /\
  0 < len df_aabbb /\
  exists r,
    evaluate_k_anonymity df_aabbb 2 = Ok r /\
    let m := equivalence_class_metrics r in
    1 <= min_ec_size m /\
    (Qn (min_ec_size m) <= avg_ec_size m)%Q /\
    (avg_ec_size m <= Qn (max_ec_size m))%Q /\
    max_ec_size m <= num_records r /\
    1 <= num_equivalence_classes m <= num_records r /\
    unique_records m <= num_equivalence_classes m /\
    (0 <= unique_records_percentage m <= 100)%Q.
Proof.
  assert (H1 : wf_df df_aabbb = true) by reflexivity.
  assert (H2 : 0 < len df_aabbb) by (vm_compute; lia).
  split; [exact H1 |]. split; [exact H2 |].
  apply (statistics_are_consistent df_aabbb 2 H1 H2).
Defined.

(* ================================================================= *)
(** ** The size distribution *)

Lemma nat_eqb_eq (a b : nat) : Nat.eqb a b = true <-> a = b.
Proof. apply Nat.eqb_eq. Qed.

Lemma histogram_step_weight (c : list (nat * nat)) (s : nat) :
  list_sum (map (fun e => fst e * snd e) (counter_step Nat.eqb c s)) =
  list_sum (map (fun e => fst e * snd e) c) + s.
Proof.
  unfold counter_step, dict_getd.
  induction c as [| [s' n] c IH]; simpl.
  - lia.
  - destruct (Nat.eqb s s') eqn:E; simpl.
    + apply Nat.eqb_eq in E. subst s'. lia.
    + rewrite IH. lia.
Qed.

Lemma histogram_fold_weight (sizes : list nat) (c : list (nat * nat)) :
  list_sum (map (fun e => fst e * snd e)
                (fold_left (counter_step Nat.eqb) sizes c)) =
  list_sum (map (fun e => fst e * snd e) c) + list_sum sizes.
Proof.
  revert c. induction sizes as [| s sizes IH]; intros c; simpl.
  - lia.
  - rewrite IH, histogram_step_weight. lia.
Qed.

(** X8.  The size distribution of a report is a histogram of the class
    sizes: asking it for a size gives the number of classes of that size
    (0 when there is none), so its entry for size 1 is [unique_records];
    its counts add up to the number of classes; and the sizes weighted by
    their counts add up to the number of records. *)
Theorem size_distribution_is_histogram (df : DataFrame) (k : Q) :
  wf_df df = true ->
  exists r ec_counts ec_groups,
    evaluate_k_anonymity df k = Ok r /\
    compute_equivalence_classes df (quasi_identifiers r) =
      Ok (ec_counts, ec_groups) /\
    let m := equivalence_class_metrics r in
    (forall s, dict_getd Nat.eqb 0 s (ec_size_distribution m) =
               length (filter (Nat.eqb s) (values ec_counts))) /\
    dict_getd Nat.eqb 0 1 (ec_size_distribution m) = unique_records m /\
    list_sum (values (ec_size_distribution m)) = num_equivalence_classes m /\
    list_sum (map (fun e => fst e * snd e) (ec_size_distribution m)) =
      num_records r.
Proof.
  intros _.
  destruct (evaluate_k_anonymity_total df k)
    as [qis [c [g [rk [m [il [sr [Hq [Hc [_ [Hm [_ [_ Hev]]]]]]]]]]]]].
  destruct (compute_equivalence_classes_Ok _ _ _ _ Hc)
    as [sub [Hsub [Hlen [Hcc _]]]].
  eexists. exists c, g. split; [exact Hev |].
  cbn [quasi_identifiers equivalence_class_metrics num_records].
  split; [exact Hc |].
  rewrite calculate_equivalence_class_metrics_Ok in Hm.
  inversion Hm as [Hm']. clear Hm Hm'.
  cbn [ec_size_distribution unique_records num_equivalence_classes].
  unfold Counter.
  split; [| split; [| split]].
  - intros s. rewrite counter_fold_get by apply nat_eqb_eq. reflexivity.
  - rewrite counter_fold_get by apply nat_eqb_eq.
    change (dict_getd Nat.eqb 0 1 []) with 0. rewrite Nat.add_0_l.
    f_equal. apply filter_ext. intros x. apply Nat.eqb_sym.
  - rewrite counter_fold_sum. simpl. unfold values. apply length_map.
  - rewrite histogram_fold_weight. simpl.
    rewrite Hcc. unfold Counter. rewrite counter_fold_sum. simpl.
    rewrite length_map. exact Hlen.
Qed.

Lemma size_distribution_is_histogram_witness :
  wf_df df_aabbb = true /\
  exists r ec_counts ec_groups,
    evaluate_k_anonymity df_aabbb 2 = Ok r /\
    compute_equivalence_classes df_aabbb (quasi_identifiers r) =
      Ok (ec_counts, ec_groups) /\
    let m := equivalence_class_metrics r in
    (forall s, dict_getd Nat.eqb 0 s (ec_size_distribution m) =
               length (filter (Nat.eqb s) (values ec_counts))) /\
    dict_getd Nat.eqb 0 1 (ec_size_distribution m) = unique_records m /\
    list_sum (values (ec_size_distribution m)) = num_equivalence_classes m /\
    list_sum (map (fun e => fst e * snd e) (ec_size_distribution m)) =
      num_records r.
Proof.
  split; [reflexivity |].
  apply (size_distribution_is_histogram df_aabbb 2). reflexivity.
Defined.

(* ================================================================= *)
(** ** The discernibility metric *)

Lemma discernibility_fold (l : list (list nat)) (a : nat) :
  fold_left (fun dm ec => dm + length ec ^ 2) l a =
  a + list_sum (map (fun ec => length ec * length ec) l).
Proof.
  revert a. induction l as [| ec l IH]; intros a; simpl.
  - lia.
  - rewrite IH. simpl. lia.
Qed.

Lemma squares_bounds (l : list nat) :
  Forall (fun s => 1 <= s) l ->
  list_sum l <= list_sum (map (fun s => s * s) l) /\
  list_sum (map (fun s => s * s) l) <= list_sum l * list_sum l /\
  (list_sum (map (fun s => s * s) l) = list_sum l <-> Forall (fun s => s = 1) l).
Proof.
  induction 1 as [| s l Hs Hl [IH1 [IH2 IH3]]]; simpl.
  - split; [lia |]. split; [lia |]. split; [constructor | reflexivity].
  - split; [nia |]. split; [nia |]. split.
    + intros Heq. assert (s = 1) by nia. subst s.
      constructor; [reflexivity |]. apply IH3. lia.
    + intros Hall. inversion Hall; subst. apply IH3 in H2. lia.
Qed.

(** X9.  The discernibility metric of a report is the sum of the squared
    class sizes.  It lies between the number of records and its square, and
    it equals the number of records exactly when every class has a single
    record. *)
Theorem discernibility_bounds (df : DataFrame) (k : Q) :
  wf_df df = true ->
  exists r ec_counts ec_groups,
    evaluate_k_anonymity df k = Ok r /\
    compute_equivalence_classes df (quasi_identifiers r) =
      Ok (ec_counts, ec_groups) /\
    discernibility r = list_sum (map (fun s => s * s) (values ec_counts)) /\
    num_records r <= discernibility r /\
    discernibility r <= num_records r * num_records r /\
    (discernibility r = num_records r <->
     Forall (fun s => s = 1) (values ec_counts)).
Proof.
  intros _.
  destruct (evaluate_k_anonymity_total df k)
    as [qis [c [g [rk [m [il [sr [Hq [Hc [_ [Hm [_ [_ Hev]]]]]]]]]]]]].
  destruct (compute_equivalence_classes_Ok _ _ _ _ Hc)
    as [sub [Hsub [Hlen [Hcc Hgg]]]].
  eexists. exists c, g. split; [exact Hev |].
  cbn [quasi_identifiers discernibility num_records].
  split; [exact Hc |].
  assert (Hdm : discernibility_metric g (len df) =
                list_sum (map (fun s => s * s) (values c))).
  { unfold discernibility_metric. rewrite discernibility_fold. simpl.
    rewrite Hcc, Hgg, <- builder_counts_are_group_sizes.
    unfold values. rewrite !map_map. reflexivity. }
  rewrite Hdm.
  assert (Hsum : list_sum (values c) = len df).
  { rewrite Hcc. unfold Counter. rewrite counter_fold_sum. simpl.
    rewrite length_map. exact Hlen. }
  assert (Hpos : Forall (fun s => 1 <= s) (values c))
    by (rewrite Hcc; apply Counter_positive).
  destruct (squares_bounds _ Hpos) as [H1 [H2 H3]]. rewrite Hsum in *.
  repeat split; try assumption; apply H3.
Qed.

Lemma discernibility_bounds_witness :
  wf_df df_aabbb = true /\
  exists r ec_counts ec_groups,
    evaluate_k_anonymity df_aabbb 2 = Ok r /\
    compute_equivalence_classes df_aabbb (quasi_identifiers r) =
      Ok (ec_counts, ec_groups) /\
    discernibility r = list_sum (map (fun s => s * s) (values ec_counts)) /\
    num_records r <= discernibility r /\
    discernibility r <= num_records r * num_records r /\
    (discernibility r = num_records r <->
     Forall (fun s => s = 1) (values ec_counts)).
Proof.
  split; [reflexivity |].
  apply (discernibility_bounds df_aabbb 2). reflexivity.
Defined.

(* ================================================================= *)
(** ** The information loss of a column *)

Lemma count_loop_fold (vals : list cell) (c : nat * nat) :
  fold_left count_step vals c =
  (fst c + length (filter (fun v => negb (eq_star v) && contains "**" (str v)) vals),
   snd c + length (filter eq_star vals)).
Proof.
  revert c. induction vals as [| v vals IH]; intros [g a]; simpl.
  - f_equal; lia.
  - rewrite IH. unfold count_step; simpl.
    destruct (eq_star v); simpl.
    + f_equal; lia.
    + destruct (contains "**" (str v)); simpl; f_equal; lia.
Qed.

Lemma filter_and_length {A : Type} (p q : A -> bool) (l : list A) :
  length (filter p l) + length (filter (fun v => negb (p v) && q v) l) <= length l.
Proof.
  induction l as [| a l IH]; simpl; [lia |].
  destruct (p a); simpl; [lia |]. destruct (q a); simpl; lia.
Qed.

Lemma length_unique_le (l : list cell) : length (unique l) <= length l.
Proof.
  induction l as [| v l IH]; simpl; [lia |].
  pose proof (filter_length_le (fun w => negb (cell_eqb v w)) (unique l)). lia.
Qed.

Lemma Qn_plus (a b : nat) : (Qn (a + b) == Qn a + Qn b)%Q.
Proof.
  unfold Qn. rewrite Nat2Z.inj_add, inject_Z_plus. reflexivity.
Qed.

Lemma percent_range (a n : nat) :
  1 <= n -> a <= n -> (0 <= Qn a / Qn n * 100 /\ Qn a / Qn n * 100 <= 100)%Q.
Proof.
  intros Hn Ha.
  destruct (Qdiv_between 0 1 a n Hn) as [H0 H1]; [lia | lia |]. split.
  - apply Qmult_le_0_compat; [exact H0 | discriminate].
  - apply (Qle_trans _ (1 * 100)); [| apply Qle_refl].
    apply Qmult_le_compat_r; [exact H1 | discriminate].
Qed.

(** The record of one column, in closed form. *)
Lemma column_info_loss_Ok (df : DataFrame) (col : string) (vals : list cell) :
  getitem df col = Ok vals ->
  column_info_loss df col =
  Ok {| distinct_values := nunique vals;
        asterisk_percentage :=
          if 0 <? len df
          then (Qn (length (filter eq_star vals)) / Qn (len df) * 100)%Q
          else 0%Q;
        generalized_percentage :=
          if 0 <? len df
          then (Qn (length (filter (fun v => negb (eq_star v)
                                             && contains "**" (str v)) vals))
                / Qn (len df) * 100)%Q
          else 0%Q;
        total_loss_percentage :=
          if 0 <? len df
          then (Qn (length (filter eq_star vals)
                    + length (filter (fun v => negb (eq_star v)
                                               && contains "**" (str v)) vals))
                / Qn (len df) * 100)%Q
          else 0%Q |}.
Proof.
  intros Hv. unfold column_info_loss. rewrite Hv. cbn [bind].
  unfold count_loop. rewrite count_loop_fold. cbn [fst snd].
  rewrite !Nat.add_0_l, !percentage_Ok. reflexivity.
Qed.

Lemma percent_monotone (a b n : nat) :
  1 <= n -> a <= b -> (Qn a / Qn n * 100 <= Qn b / Qn n * 100)%Q.
Proof.
  intros Hn Hab. apply Qmult_le_compat_r; [| discriminate].
  unfold Qdiv. apply Qmult_le_compat_r; [apply Qn_le, Hab |].
  apply Qinv_le_0_compat, Qlt_le_weak, Qn_pos, Hn.
Qed.

(** X10.  The record of a column in the information loss.  On a data set
    with at least one record, for the column at position [j]:
    [asterisk_percentage] is 100 times the share of cells equal to ['*'],
    [generalized_percentage] is 100 times the share of cells that are not
    ['*'] and whose text contains ['**'], [total_loss_percentage] is 100
    times the share of the cells of either kind (computed from the sum of
    the two counts, not from the two percentages); each of the two parts is
    at least 0 and at most the total, the total is at most 100, and
    [distinct_values] is at most the number of records. *)
Theorem column_loss_percentages (df : DataFrame) (j : nat) (col : string) :
  wf_df df = true ->
  0 < len df ->
  nth_error (columns df) j = Some col ->
  exists cl,
    column_info_loss df col = Ok cl /\
    let vals := map (iloc j) (rows df) in
    let stars := length (filter eq_star vals) in
    let generalized :=
      length (filter (fun v => negb (eq_star v) && contains "**" (str v)) vals) in
    asterisk_percentage cl = (Qn stars / Qn (len df) * 100)%Q /\
    generalized_percentage cl = (Qn generalized / Qn (len df) * 100)%Q /\
    total_loss_percentage cl =
      (Qn (stars + generalized) / Qn (len df) * 100)%Q /\
    (0 <= asterisk_percentage cl)%Q /\
    (asterisk_percentage cl <= total_loss_percentage cl)%Q /\
    (0 <= generalized_percentage cl)%Q /\
    (generalized_percentage cl <= total_loss_percentage cl)%Q /\
    (total_loss_percentage cl <= 100)%Q /\
    distinct_values cl <= len df.
Proof.
  intros Hwf Hpos Hn.
  assert (Hv : getitem df col = Ok (map (iloc j) (rows df))).
  { unfold getitem.
    rewrite (get_loc_nth _ _ _ (wf_df_distinct df Hwf) Hn). reflexivity. }
  eexists. split; [apply (column_info_loss_Ok df col _ Hv) |].
  cbn [asterisk_percentage generalized_percentage total_loss_percentage
       distinct_values].
  assert (E : (0 <? len df) = true) by (apply Nat.ltb_lt; exact Hpos).
  rewrite E. cbv zeta.
  set (vals := map (iloc j) (rows df)).
  assert (Hlen : length vals = len df) by (unfold vals, len; apply length_map).
  pose proof (filter_and_length eq_star (fun v => contains "**" (str v)) vals)
    as Hsum.
  pose proof (filter_length_le eq_star vals) as Hs.
  pose proof (filter_length_le
                (fun v => negb (eq_star v) && contains "**" (str v)) vals) as Hg.
  rewrite Hlen in Hsum, Hs, Hg.
  split; [reflexivity |]. split; [reflexivity |]. split; [reflexivity |].
  split; [apply percent_range; lia |].
  split; [apply percent_monotone; lia |].
  split; [apply percent_range; lia |].
  split; [apply percent_monotone; lia |].
  split; [apply percent_range; lia |].
  unfold nunique.
  pose proof (length_unique_le (filter notna vals)).
  pose proof (filter_length_le notna vals). lia.
Qed.

Lemma column_loss_percentages_witness :
  wf_df df_average = true /\
  0 < len df_average /\
  nth_error (columns df_average) 1 = Some "average" /\
  exists cl,
    column_info_loss df_average "average" = Ok cl /\
    let vals := map (iloc 1) (rows df_average) in
    let stars := length (filter eq_star vals) in
    let generalized :=
      length (filter (fun v => negb (eq_star v) && contains "**" (str v)) vals) in
    asterisk_percentage cl = (Qn stars / Qn (len df_average) * 100)%Q /\
    generalized_percentage cl = (Qn generalized / Qn (len df_average) * 100)%Q /\
    total_loss_percentage cl =
      (Qn (stars + generalized) / Qn (len df_average) * 100)%Q /\
    (0 <= asterisk_percentage cl)%Q /\
    (asterisk_percentage cl <= total_loss_percentage cl)%Q /\
    (0 <= generalized_percentage cl)%Q /\
    (generalized_percentage cl <= total_loss_percentage cl)%Q /\
    (total_loss_percentage cl <= 100)%Q /\
    distinct_values cl <= len df_average.
Proof.
  assert (H1 : wf_df df_average = true) by reflexivity.
  assert (H2 : 0 < len df_average) by (vm_compute; lia).
  assert (H3 : nth_error (columns df_average) 1 = Some "average") by reflexivity.
  split; [exact H1 |]. split; [exact H2 |]. split; [exact H3 |].
  apply (column_loss_percentages df_average 1 "average" H1 H2 H3).
Defined.

(* ================================================================= *)
(** ** The information-loss report and its chart *)

Lemma dict_set_In_key {V : Type} (k k0 : string) (v v0 : V)
    (d : list (string * V)) :
  In (k0, v0) (dict_set String.eqb k v d) ->
  (k0 = k /\ v0 = v) \/ In (k0, v0) d.
Proof.
  induction d as [| [k' v'] d IH]; simpl.
  - intros [Heq | []]. inversion Heq. left. split; reflexivity.
  - destruct (String.eqb k k') eqn:E; simpl.
    + apply String.eqb_eq in E. subst k'.
      intros [Heq | Hin]; [inversion Heq; left; split; reflexivity |].
      right. right. exact Hin.
    + intros [Heq | Hin]; [right; left; exact Heq |].
      destruct (IH Hin) as [H | H]; [left; exact H | right; right; exact H].
Qed.

Lemma info_loss_loop_entries (df : DataFrame) (qis : list string)
    (acc info : list (string * column_loss)) :
  info_loss_loop df qis acc = Ok info ->
  (forall col cl, In (col, cl) acc -> column_info_loss df col = Ok cl) ->
  forall col cl, In (col, cl) info ->
                 column_info_loss df col = Ok cl /\
                 (In col (keys acc) \/ In col qis).
Proof.
  revert acc. induction qis as [| c qis IH]; intros acc Hloop Hacc col cl Hin;
    simpl in Hloop.
  - inversion Hloop; subst. split; [apply Hacc, Hin |].
    left. unfold keys. change col with (fst (col, cl)). apply in_map, Hin.
  - apply bind_Ok in Hloop. destruct Hloop as [cl0 [Hcl0 Hloop]].
    destruct (IH _ Hloop) with (col := col) (cl := cl) as [Hok Hkeys];
      [| exact Hin |].
    + intros col' cl' Hin'. apply dict_set_In_key in Hin'.
      destruct Hin' as [[-> ->] | Hin']; [exact Hcl0 | apply Hacc, Hin'].
    + split; [exact Hok |]. destruct Hkeys as [Hk | Hk].
      * apply (keys_set_In String.eqb string_eqb_eq) in Hk.
        destruct Hk as [-> | Hk]; [right; left; reflexivity | left; exact Hk].
      * right. right. exact Hk.
Qed.

Lemma info_loss_loop_first_seen (df : DataFrame) (qis : list string)
    (acc info : list (string * column_loss)) :
  info_loss_loop df qis acc = Ok info ->
  keys info =
  keys acc ++ filter (fun x => negb (existsb (String.eqb x) (keys acc)))
                     (first_seen qis).
Proof.
  revert acc. induction qis as [| k l IH]; intros acc Hloop; simpl in Hloop.
  - inversion Hloop; subst. simpl. rewrite app_nil_r. reflexivity.
  - apply bind_Ok in Hloop. destruct Hloop as [cl [_ Hloop]].
    rewrite (IH _ Hloop), keys_dict_set. simpl.
    destruct (existsb (String.eqb k) (keys acc)) eqn:E; simpl.
    + f_equal. rewrite filter_filter. apply filter_ext_in. intros x _.
      destruct (String.eqb k x) eqn:Ex; simpl; [| reflexivity].
      apply String.eqb_eq in Ex. subst x. rewrite E. reflexivity.
    + rewrite <- app_assoc. simpl. f_equal. f_equal.
      rewrite filter_filter. apply filter_ext_in. intros x _.
      rewrite existsb_app. simpl. rewrite orb_false_r, negb_orb.
      rewrite (String.eqb_sym x k). apply andb_comm.
Qed.

Lemma attr_loss_columns (info : list (string * column_loss)) :
  attr_loss (map (fun kv => (fst kv, ColumnLoss (snd kv))) info) =
  Some (map (fun kv => (fst kv, total_loss_percentage (snd kv)))
            (filter (fun kv => negb (String.eqb (fst kv) "average")) info)).
Proof.
  induction info as [| [k v] info IH]; simpl; [reflexivity |].
  rewrite IH. destruct (String.eqb k "average"); reflexivity.
Qed.

Lemma attr_loss_report (info : list (string * column_loss)) (a : Q) :
  attr_loss (dict_set String.eqb "average" (AverageLoss a)
               (map (fun kv => (fst kv, ColumnLoss (snd kv))) info)) =
  Some (map (fun kv => (fst kv, total_loss_percentage (snd kv)))
            (filter (fun kv => negb (String.eqb (fst kv) "average")) info)).
Proof.
  induction info as [| [k v] info IH].
  - reflexivity.
  - cbn [map dict_set fst snd filter].
    destruct (String.eqb "average" k) eqn:E.
    + apply String.eqb_eq in E. subst k.
      cbn [attr_loss]. rewrite String.eqb_refl. cbn [negb].
      apply attr_loss_columns.
    + cbn [attr_loss]. rewrite String.eqb_sym, E. cbn [negb].
      rewrite IH. reflexivity.
Qed.

(** X11.  The shape of the information-loss report.  For quasi-identifiers
    taken from the frame's columns, the report lists the distinct
    quasi-identifiers in the order of their first occurrence, followed by
    the key ['average'] unless that key is one of them; under every
    quasi-identifier other than ['average'] it holds the record of that
    column, and under ['average'] the aggregate. *)
Theorem information_loss_report_shape (df : DataFrame) (qis : list string) :
  wf_df df = true ->
  incl qis (columns df) ->
  exists report,
    calculate_information_loss df qis = Ok report /\
    keys report =
      (if existsb (String.eqb "average") qis
       then first_seen qis else first_seen qis ++ ["average"]) /\
    (forall col, In col qis -> col <> "average" ->
       exists cl, column_info_loss df col = Ok cl /\
                  dict_get String.eqb col report = Some (ColumnLoss cl)) /\
    (exists a, dict_get String.eqb "average" report = Some (AverageLoss a)).
Proof.
  intros _ Hincl.
  destruct (calculate_information_loss_total df qis Hincl)
    as [info [avg [Hinfo [Hnd [Hkeys [_ Hres]]]]]].
  pose proof (info_loss_loop_first_seen df qis [] info Hinfo) as Hfs.
  simpl in Hfs.
  assert (Hfs' : keys info = first_seen qis).
  { rewrite Hfs. generalize (first_seen qis) as l.
    induction l as [| x l IH]; simpl; [reflexivity | rewrite IH; reflexivity]. }
  eexists. split; [exact Hres |]. split; [| split].
  - rewrite keys_dict_set, wrap_keys, Hfs'.
    assert (Hex : existsb (String.eqb "average") (first_seen qis) =
                  existsb (String.eqb "average") qis).
    { rewrite <- Hfs'.
      destruct (existsb (String.eqb "average") qis) eqn:E.
      - apply existsb_eqb_In. apply Hkeys. apply existsb_eqb_In. exact E.
      - apply not_true_is_false. intros H. apply existsb_eqb_In in H.
        apply Hkeys in H. apply existsb_eqb_In in H. congruence. }
    rewrite Hex. reflexivity.
  - intros col Hcol Hne.
    assert (Hk : In col (keys info)) by (apply Hkeys; exact Hcol).
    destruct (dict_get String.eqb col info) as [cl |] eqn:Hget;
      [| apply (dict_get_None String.eqb string_eqb_eq) in Hget; contradiction].
    exists cl. split.
    + apply (dict_get_In String.eqb string_eqb_eq) in Hget.
      apply (info_loss_loop_entries df qis [] info Hinfo) with (col := col);
        [intros ? ? [] | exact Hget].
    + rewrite dict_get_set_other by (apply string_eqb_eq || exact Hne).
      clear - Hget. induction info as [| [k v] info IH]; simpl in *;
        [discriminate |].
      destruct (String.eqb col k); [congruence | apply IH, Hget].
  - exists avg. apply dict_get_set_same. apply string_eqb_eq.
Qed.

Lemma information_loss_report_shape_witness :
  wf_df df_aabbb = true /\
  incl ["city"; "name"; "city"] (columns df_aabbb) /\
  exists report,
    calculate_information_loss df_aabbb ["city"; "name"; "city"] = Ok report /\
    keys report =
      (if existsb (String.eqb "average") ["city"; "name"; "city"]
       then first_seen ["city"; "name"; "city"]
       else first_seen ["city"; "name"; "city"] ++ ["average"]) /\
    (forall col, In col ["city"; "name"; "city"] -> col <> "average" ->
       exists cl, column_info_loss df_aabbb col = Ok cl /\
                  dict_get String.eqb col report = Some (ColumnLoss cl)) /\
    (exists a, dict_get String.eqb "average" report = Some (AverageLoss a)).
Proof.
  assert (H1 : wf_df df_aabbb = true) by reflexivity.
  assert (H2 : incl ["city"; "name"; "city"] (columns df_aabbb)).
  { intros c [<- | [<- | [<- | []]]]; simpl; auto. }
  split; [exact H1 |]. split; [exact H2 |].
  apply (information_loss_report_shape df_aabbb ["city"; "name"; "city"] H1 H2).
Defined.

(** X12.  The chart of [visualize_results] is drawn from the report with
    the key ['average'] filtered out: it has one bar per distinct
    quasi-identifier other than ['average'], in order of first occurrence,
    whose height is the total loss of that column.  A quasi-identifier
    column named ['average'] is therefore not charted. *)
Theorem chart_of_information_loss (df : DataFrame) (qis : list string) :
  wf_df df = true ->
  incl qis (columns df) ->
  exists report bars,
    calculate_information_loss df qis = Ok report /\
    attr_loss report = Some bars /\
    keys bars =
      filter (fun c => negb (String.eqb c "average")) (first_seen qis) /\
    (forall col q, In (col, q) bars ->
       exists cl, column_info_loss df col = Ok cl /\
                  q = total_loss_percentage cl).
Proof.
  intros _ Hincl.
  destruct (calculate_information_loss_total df qis Hincl)
    as [info [avg [Hinfo [Hnd [Hkeys [_ Hres]]]]]].
  pose proof (info_loss_loop_first_seen df qis [] info Hinfo) as Hfs.
  simpl in Hfs.
  assert (Hfs' : keys info = first_seen qis).
  { rewrite Hfs. generalize (first_seen qis) as l.
    induction l as [| x l IH]; simpl; [reflexivity | rewrite IH; reflexivity]. }
  eexists. eexists. split; [exact Hres |].
  split; [apply attr_loss_report |]. split.
  - rewrite <- Hfs'. clear. unfold keys.
    induction info as [| [k v] info IH]; simpl; [reflexivity |].
    destruct (String.eqb k "average"); simpl; rewrite IH; reflexivity.
  - intros col q Hin. apply in_map_iff in Hin.
    destruct Hin as [[k cl] [Heq Hin]]. simpl in Heq. inversion Heq; subst.
    apply filter_In in Hin. destruct Hin as [Hin _].
    exists cl. split; [| reflexivity].
    apply (info_loss_loop_entries df qis [] info Hinfo) with (col := col);
      [intros ? ? [] | exact Hin].
Qed.

Lemma chart_of_information_loss_witness :
  wf_df df_average = true /\
  incl ["age"; "average"] (columns df_average) /\
  exists report bars,
    calculate_information_loss df_average ["age"; "average"] = Ok report /\
    attr_loss report = Some bars /\
    keys bars =
      filter (fun c => negb (String.eqb c "average"))
             (first_seen ["age"; "average"]) /\
    (forall col q, In (col, q) bars ->
       exists cl, column_info_loss df_average col = Ok cl /\
                  q = total_loss_percentage cl).
Proof.
  assert (H1 : wf_df df_average = true) by reflexivity.
  assert (H2 : incl ["age"; "average"] (columns df_average)) by apply incl_refl.
  split; [exact H1 |]. split; [exact H2 |].
  apply (chart_of_information_loss df_average ["age"; "average"] H1 H2).
Defined.

(* ================================================================= *)
(** ** Bounds on the averages *)

Lemma Qn_S (n : nat) : (Qn (S n) == Qn n + 1)%Q.
Proof.
  replace (S n) with (n + 1) by lia. rewrite Qn_plus. reflexivity.
Qed.

Lemma qsum_fold_bounds (lo hi : Q) (l : list Q) (a : Q) :
  Forall (fun x => (lo <= x /\ x <= hi)%Q) l ->
  (a + Qn (length l) * lo <= fold_left Qplus l a /\
   fold_left Qplus l a <= a + Qn (length l) * hi)%Q.
Proof.
  intros H. revert a. induction H as [| x l [Hlo Hhi] Hl IH]; intros a.
  - simpl. unfold Qn. simpl. rewrite !Qmult_0_l, Qplus_0_r.
    split; apply Qle_refl.
  - cbn [fold_left length]. destruct (IH (a + x)%Q) as [IH1 IH2]. split.
    + eapply Qle_trans; [| exact IH1]. rewrite Qn_S.
      setoid_replace (a + (Qn (length l) + 1) * lo)%Q
        with ((a + lo) + Qn (length l) * lo)%Q by ring.
      apply Qplus_le_compat; [| apply Qle_refl].
      apply Qplus_le_compat; [apply Qle_refl | exact Hlo].
    + eapply Qle_trans; [exact IH2 |]. rewrite Qn_S.
      setoid_replace (a + (Qn (length l) + 1) * hi)%Q
        with ((a + hi) + Qn (length l) * hi)%Q by ring.
      apply Qplus_le_compat; [| apply Qle_refl].
      apply Qplus_le_compat; [apply Qle_refl | exact Hhi].
Qed.

(** The mean of a non-empty list lies between any two bounds of its
    items. *)
Lemma mean_bounds (lo hi : Q) (l : list Q) :
  l <> [] ->
  Forall (fun x => (lo <= x /\ x <= hi)%Q) l ->
  (lo <= qsum l / Qn (length l) /\ qsum l / Qn (length l) <= hi)%Q.
Proof.
  intros Hne H. destruct (qsum_fold_bounds lo hi l 0 H) as [H1 H2].
  rewrite Qplus_0_l in H1, H2.
  assert (Hp : (0 < Qn (length l))%Q).
  { apply Qn_pos. destruct l; [contradiction | simpl; lia]. }
  unfold qsum. split.
  - apply Qle_shift_div_l; [exact Hp |]. rewrite Qmult_comm. exact H1.
  - apply Qle_shift_div_r; [exact Hp |]. rewrite Qmult_comm. exact H2.
Qed.

Lemma column_info_loss_range (df : DataFrame) (col : string) (cl : column_loss) :
  column_info_loss df col = Ok cl ->
  (0 <= total_loss_percentage cl /\ total_loss_percentage cl <= 100)%Q.
Proof.
  intros H. pose proof H as H'. unfold column_info_loss in H'.
  apply bind_Ok in H'. destruct H' as [vals [Hv _]].
  rewrite (column_info_loss_Ok df col vals Hv) in H.
  inversion H; subst cl; clear H. cbn [total_loss_percentage].
  destruct (0 <? len df) eqn:E; [| split; discriminate].
  apply Nat.ltb_lt in E.
  assert (Hlen : length vals = len df).
  { unfold getitem in Hv. apply bind_Ok in Hv. destruct Hv as [j [_ Hv]].
    inversion Hv. apply length_map. }
  pose proof (filter_and_length eq_star (fun v => contains "**" (str v)) vals).
  apply percent_range; lia.
Qed.

(** X13.  The aggregate stored under ['average'] is the mean of the total
    losses of the distinct quasi-identifier columns, and it lies between 0
    and 100 (it is 0 when there is no quasi-identifier). *)
Theorem average_loss_range (df : DataFrame) (qis : list string) :
  wf_df df = true ->
  incl qis (columns df) ->
  exists report a,
    calculate_information_loss df qis = Ok report /\
    dict_get String.eqb "average" report = Some (AverageLoss a) /\
    (0 <= a /\ a <= 100)%Q /\
    (qis = [] -> a = 0%Q).
Proof.
  intros _ Hincl.
  destruct (calculate_information_loss_total df qis Hincl)
    as [info [avg [Hinfo [Hnd [Hkeys [Havg Hres]]]]]].
  eexists. exists avg. split; [exact Hres |].
  split; [apply dict_get_set_same; apply string_eqb_eq |].
  assert (Hrange : Forall (fun x => (0 <= x /\ x <= 100)%Q)
                     (map total_loss_percentage (values info))).
  { apply Forall_forall. intros x Hx. apply in_map_iff in Hx.
    destruct Hx as [cl [<- Hcl]]. unfold values in Hcl.
    apply in_map_iff in Hcl. destruct Hcl as [[k cl'] [Heq Hin]].
    simpl in Heq. subst cl'.
    destruct (info_loss_loop_entries df qis [] info Hinfo) with (col := k) (cl := cl)
      as [Hok _]; [intros ? ? [] | exact Hin |].
    apply (column_info_loss_range df k cl Hok). }
  split.
  - rewrite Havg. destruct info as [| e info']; [split; discriminate |].
    replace (length (e :: info'))
      with (length (map total_loss_percentage (values (e :: info'))))
      by (unfold values; rewrite !length_map; reflexivity).
    apply mean_bounds; [discriminate | exact Hrange].
  - intros ->. simpl in Hinfo. inversion Hinfo; subst info. exact Havg.
Qed.

Lemma average_loss_range_witness :
  wf_df df_average = true /\
  incl ["age"; "average"] (columns df_average) /\
  exists report a,
    calculate_information_loss df_average ["age"; "average"] = Ok report /\
    dict_get String.eqb "average" report = Some (AverageLoss a) /\
    (0 <= a /\ a <= 100)%Q /\
    (["age"; "average"] = [] -> a = 0%Q).
Proof.
  assert (H1 : wf_df df_average = true) by reflexivity.
  assert (H2 : incl ["age"; "average"] (columns df_average)) by apply incl_refl.
  split; [exact H1 |]. split; [exact H2 |].
  apply (average_loss_range df_average ["age"; "average"] H1 H2).
Defined.

(* ================================================================= *)
(** ** Suppression, the classifier and the classes *)

Lemma Qn_lt (a b : nat) : a < b -> (Qn a < Qn b)%Q.
Proof.
  intros H. unfold Qn. rewrite <- Zlt_Qlt. lia.
Qed.

Lemma percent_below_100 (a n : nat) : a < n -> (Qn a / Qn n * 100 < 100)%Q.
Proof.
  intros H. assert (Hp : (0 < Qn n)%Q) by (apply Qn_pos; lia).
  apply (Qlt_le_trans _ (1 * 100)); [| apply Qle_refl].
  apply Qmult_lt_compat_r; [reflexivity |].
  apply Qlt_shift_div_r; [exact Hp |]. rewrite Qmult_1_l. apply Qn_lt, H.
Qed.

Lemma percent_full (n : nat) : 1 <= n -> (Qn n / Qn n * 100 == 100)%Q.
Proof.
  intros H. field. intros H0. pose proof (Qn_pos n H) as Hp.
  rewrite H0 in Hp. revert Hp. apply Qlt_irrefl.
Qed.

Lemma forallb_filter_length {A : Type} (p : A -> bool) (l : list A) :
  forallb p l = true <-> length (filter p l) = length l.
Proof.
  induction l as [| a l IH]; simpl.
  - split; reflexivity.
  - pose proof (filter_length_le p l) as Hle.
    destruct (p a); simpl.
    + rewrite IH. split; [intros ->; reflexivity | intros H; lia].
    + split; [discriminate | intros H; lia].
Qed.

(** X15.  In the report of an evaluation, every per-column record of the
    information loss belongs to a column the classifier kept, and its
    [asterisk_percentage] is below 100: a column that is suppressed in
    every record is never reported. *)
Theorem reported_columns_are_not_fully_suppressed (df : DataFrame) (k : Q) :
  wf_df df = true ->
  exists r,
    evaluate_k_anonymity df k = Ok r /\
    forall col cl, In (col, ColumnLoss cl) (information_loss r) ->
      In col (quasi_identifiers r) /\
      column_info_loss df col = Ok cl /\
      (asterisk_percentage cl < 100)%Q.
Proof.
  intros _.
  destruct (evaluate_k_anonymity_total df k)
    as [qis [c [g [rk [m [il [sr [Hq [_ [_ [_ [Hil [_ Hev]]]]]]]]]]]]].
  eexists. split; [exact Hev |]. cbn [information_loss quasi_identifiers].
  intros col cl Hin.
  pose proof (identify_quasi_identifiers_incl df qis Hq) as Hincl.
  destruct (calculate_information_loss_total df qis Hincl)
    as [info [avg [Hinfo [_ [_ [_ Hres]]]]]].
  rewrite Hres in Hil. inversion Hil; subst il; clear Hil.
  apply dict_set_In_key in Hin. destruct Hin as [[_ Habs] | Hin];
    [discriminate Habs |].
  apply in_map_iff in Hin. destruct Hin as [[k' cl'] [Heq Hin]].
  simpl in Heq. inversion Heq; subst k' cl'; clear Heq.
  destruct (info_loss_loop_entries df qis [] info Hinfo) with (col := col) (cl := cl)
    as [Hok Hk]; [intros ? ? [] | exact Hin |].
  destruct Hk as [[] | Hk]. split; [exact Hk |]. split; [exact Hok |].
  rewrite identify_quasi_identifiers_filter in Hq. inversion Hq; subst qis.
  apply filter_In in Hk. destruct Hk as [Hcol Htest].
  unfold qi_test in Htest.
  destruct (getitem_In df col Hcol) as [vals [Hv Hlen]]. rewrite Hv in Htest.
  rewrite (column_info_loss_Ok df col vals Hv) in Hok.
  inversion Hok; subst cl; clear Hok. cbn [asterisk_percentage].
  apply negb_true_iff in Htest.
  assert (Hlt : length (filter eq_star vals) < length vals).
  { pose proof (filter_length_le eq_star vals) as Hle.
    destruct (Nat.eq_dec (length (filter eq_star vals)) (length vals)) as [E | E];
      [| lia].
    apply forallb_filter_length in E. congruence. }
  rewrite Hlen in Hlt.
  destruct (0 <? len df) eqn:E; [| reflexivity].
  apply percent_below_100. exact Hlt.
Qed.

Lemma reported_columns_are_not_fully_suppressed_witness :
  wf_df df_aabbb = true /\
  exists r,
    evaluate_k_anonymity df_aabbb 2 = Ok r /\
    forall col cl, In (col, ColumnLoss cl) (information_loss r) ->
      In col (quasi_identifiers r) /\
      column_info_loss df_aabbb col = Ok cl /\
      (asterisk_percentage cl < 100)%Q.
Proof.
  split; [reflexivity |].
  apply (reported_columns_are_not_fully_suppressed df_aabbb 2). reflexivity.
Defined.

Lemma list_sum_full (n : nat) (l : list nat) :
  Forall (fun x => x <= n) l ->
  (list_sum l = length l * n <-> Forall (fun x => x = n) l).
Proof.
  induction 1 as [| x l Hx Hl IH]; simpl.
  - split; [constructor | reflexivity].
  - assert (Hb : list_sum l <= length l * n).
    { clear IH. induction Hl; simpl; lia. }
    split.
    + intros Heq. assert (x = n) by lia. subst x.
      constructor; [reflexivity |]. apply IH. lia.
    + intros Hall. inversion Hall; subst. apply IH in H2. lia.
Qed.

Lemma filter_nil_iff {A : Type} (p : A -> bool) (l : list A) :
  filter p l = [] <-> forall x, In x l -> p x = false.
Proof.
  induction l as [| a l IH]; simpl.
  - split; [intros _ x [] | reflexivity].
  - destruct (p a) eqn:E.
    + split; [discriminate |]. intros H.
      specialize (H a (or_introl eq_refl)). congruence.
    + rewrite IH. split.
      * intros H x [<- | Hx]; [exact E | apply H, Hx].
      * intros H x Hx. apply H. right. exact Hx.
Qed.

Lemma column_stars_le (rs : list (list cell)) (j : nat) :
  column_stars rs j <= length rs.
Proof.
  unfold column_stars.
  pose proof (filter_length_le eq_star (map (iloc j) rs)) as H.
  rewrite length_map in H. exact H.
Qed.

Lemma qi_test_column_stars (df : DataFrame) (j : nat) :
  wf_df df = true -> j < length (columns df) ->
  qi_test df (nth j (columns df) "") = false <->
  column_stars (rows df) j = len df.
Proof.
  intros Hwf Hj. unfold qi_test, getitem.
  rewrite (get_loc_nth (columns df) j _ (wf_df_distinct df Hwf))
    by (apply nth_error_nth'; exact Hj).
  cbn [bind]. rewrite negb_false_iff, forallb_filter_length.
  unfold column_stars, len. rewrite length_map. reflexivity.
Qed.

(** X16.  The suppression rate lies between 0 and 100.  On a table with at
    least one cell it is 100 exactly when the classifier finds no
    quasi-identifier, that is, when every column is suppressed in every
    record. *)
Theorem suppression_rate_range (df : DataFrame) :
  wf_df df = true ->
  exists q,
    calculate_suppression_rate df = Ok q /\
    (0 <= q /\ q <= 100)%Q /\
    (0 < size df ->
     ((q == 100)%Q <-> identify_quasi_identifiers df = Ok [])).
Proof.
  intros Hwf. unfold calculate_suppression_rate.
  rewrite (star_counts_Ok df Hwf). cbn [bind].
  set (stars := map (column_stars (rows df)) (seq 0 (length (columns df)))).
  assert (Hle : Forall (fun x => x <= len df) stars).
  { apply Forall_forall. intros x Hx. unfold stars in Hx.
    apply in_map_iff in Hx. destruct Hx as [j [<- _]]. apply column_stars_le. }
  assert (Hlen : length stars = length (columns df))
    by (unfold stars; rewrite length_map, length_seq; reflexivity).
  assert (Hsum : list_sum stars <= size df).
  { unfold size. rewrite <- Hlen, Nat.mul_comm. clear - Hle.
    induction Hle; simpl; lia. }
  destruct (0 <? size df) eqn:E.
  - apply Nat.ltb_lt in E. rewrite pydiv_Ok by lia. cbn [bind].
    eexists. split; [reflexivity |].
    split; [apply percent_range; lia |]. intros _.
    rewrite identify_quasi_identifiers_filter.
    assert (Hfull : list_sum stars = size df <->
                    filter (qi_test df) (columns df) = []).
    { unfold size. rewrite <- Hlen, Nat.mul_comm, (list_sum_full _ _ Hle).
      unfold stars. rewrite Forall_map, Forall_forall, filter_nil_iff. split.
      - intros Hall col Hcol.
        destruct (In_nth _ _ "" Hcol) as [j [Hj Hnth]]. rewrite <- Hnth.
        apply (qi_test_column_stars df j Hwf Hj). apply Hall.
        apply in_seq. lia.
      - intros Hnil j Hj. apply in_seq in Hj.
        apply (qi_test_column_stars df j Hwf); [lia |].
        apply Hnil. apply nth_In. lia. }
    split.
    + intros Hq. f_equal. apply Hfull.
      destruct (Nat.eq_dec (list_sum stars) (size df)) as [Heq | Hne];
        [exact Heq | exfalso].
      assert (Hlt : list_sum stars < size df) by lia.
      apply percent_below_100 in Hlt. apply Qlt_not_eq in Hlt. contradiction.
    + intros Hq. inversion Hq as [Hq']. apply Hfull in Hq'. rewrite Hq'.
      apply percent_full. lia.
  - eexists. split; [reflexivity |]. split; [split; discriminate |].
    intros H. apply Nat.ltb_ge in E. lia.
Qed.

Lemma suppression_rate_range_witness :
  wf_df df_one_star = true /\
  exists q,
    calculate_suppression_rate df_one_star = Ok q /\
    (0 <= q /\ q <= 100)%Q /\
    (0 < size df_one_star ->
     ((q == 100)%Q <-> identify_quasi_identifiers df_one_star = Ok [])).
Proof.
  split; [reflexivity |].
  apply (suppression_rate_range df_one_star). reflexivity.
Defined.

(* ================================================================= *)
(** ** No quasi-identifier *)

Lemma counter_constant (n c : nat) (k : string) :
  fold_left (counter_step String.eqb) (repeat k n) [(k, c)] = [(k, c + n)].
Proof.
  revert c. induction n as [| n IH]; intros c; simpl.
  - rewrite Nat.add_0_r. reflexivity.
  - unfold counter_step at 2, dict_getd. simpl. rewrite String.eqb_refl.
    rewrite IH. f_equal. f_equal. lia.
Qed.

Lemma groups_constant (n s : nat) (k : string) (m : list nat) :
  fold_left group_step (combine (seq s n) (repeat k n)) [(k, m)] =
  [(k, m ++ seq s n)].
Proof.
  revert s m. induction n as [| n IH]; intros s m; simpl.
  - rewrite app_nil_r. reflexivity.
  - unfold group_step at 2, dict_getd. simpl. rewrite String.eqb_refl.
    rewrite IH, <- app_assoc. reflexivity.
Qed.

Lemma getitems_nil (df : DataFrame) :
  getitems df [] = Ok (repeat [] (len df)).
Proof.
  unfold getitems, len. simpl. f_equal.
  induction (rows df) as [| r rs IH]; simpl; [reflexivity | rewrite IH; reflexivity].
Qed.

(** X17.  With an empty list of quasi-identifiers every record gets the
    empty composite key: on a data set with [n >= 1] records the builder
    returns the single class [''] of size [n] whose members are all the
    records, in order. *)
Theorem no_quasi_identifier_one_class (df : DataFrame) :
  0 < len df ->
  compute_equivalence_classes df [] =
  Ok ([("", len df)], [("", seq 0 (len df))]).
Proof.
  intros Hpos. unfold compute_equivalence_classes.
  rewrite getitems_nil. cbn [bind].
  assert (Hkeys : forall n, map ec_key (repeat [] n) = repeat "" n).
  { induction n as [| n IH]; simpl; [reflexivity | rewrite IH; reflexivity]. }
  rewrite Hkeys. unfold Counter, enumerate. rewrite repeat_length.
  destruct (len df) as [| n]; [lia |]. simpl.
  unfold counter_step at 2, group_step at 2, dict_getd. simpl.
  rewrite counter_constant, groups_constant. reflexivity.
Qed.

Lemma no_quasi_identifier_one_class_witness :
  0 < len df_one_star /\
  compute_equivalence_classes df_one_star [] =
  Ok ([("", len df_one_star)], [("", seq 0 (len df_one_star))]).
Proof.
  assert (H : 0 < len df_one_star) by (vm_compute; lia).
  split; [exact H |].
  apply (no_quasi_identifier_one_class df_one_star H).
Defined.

(* ================================================================= *)
(** ** The threshold *)

(** X18.  Evaluating one data set for two thresholds gives reports that
    differ only in [k_value] and in the verdict, and the verdict is
    monotone: a data set that satisfies k-anonymity for a threshold
    satisfies it for every smaller one. *)
Theorem verdict_is_monotone_in_k (df : DataFrame) (k1 k2 : Q) :
  wf_df df = true ->
  exists r1 r2,
    evaluate_k_anonymity df k1 = Ok r1 /\
    evaluate_k_anonymity df k2 = Ok r2 /\
    quasi_identifiers r1 = quasi_identifiers r2 /\
    num_records r1 = num_records r2 /\
    risks_report r1 = risks_report r2 /\
    equivalence_class_metrics r1 = equivalence_class_metrics r2 /\
    information_loss r1 = information_loss r2 /\
    suppression_rate r1 = suppression_rate r2 /\
    discernibility r1 = discernibility r2 /\
    ((k1 <= k2)%Q -> satisfies_k_anonymity r2 = true ->
     satisfies_k_anonymity r1 = true).
Proof.
  intros _.
  destruct (evaluate_k_anonymity_total df k1)
    as [qis [c [g [rk [m [il [sr [Hq [Hc [Hrk [Hm [Hil [Hsr Hev]]]]]]]]]]]]].
  destruct (evaluate_k_anonymity_total df k2)
    as [qis' [c' [g' [rk' [m' [il' [sr' [Hq' [Hc' [Hrk' [Hm' [Hil' [Hsr' Hev']]]]]]]]]]]]].
  assert (qis' = qis) by congruence. subst qis'.
  assert (Hcg : (c', g') = (c, g)) by congruence. inversion Hcg; subst c' g'.
  assert (rk' = rk) by congruence. assert (m' = m) by congruence.
  assert (il' = il) by congruence. assert (sr' = sr) by congruence.
  subst rk' m' il' sr'.
  eexists. eexists. split; [exact Hev |]. split; [exact Hev' |]. cbn.
  repeat (split; [reflexivity |]).
  intros Hk Hs. apply Qle_bool_iff. apply Qle_bool_iff in Hs.
  apply (Qle_trans _ k2); assumption.
Qed.

Lemma verdict_is_monotone_in_k_witness :
  wf_df df_aabbb = true /\
  exists r1 r2,
    evaluate_k_anonymity df_aabbb 2 = Ok r1 /\
    evaluate_k_anonymity df_aabbb 3 = Ok r2 /\
    quasi_identifiers r1 = quasi_identifiers r2 /\
    num_records r1 = num_records r2 /\
    risks_report r1 = risks_report r2 /\
    equivalence_class_metrics r1 = equivalence_class_metrics r2 /\
    information_loss r1 = information_loss r2 /\
    suppression_rate r1 = suppression_rate r2 /\
    discernibility r1 = discernibility r2 /\
    ((2 <= 3)%Q -> satisfies_k_anonymity r2 = true ->
     satisfies_k_anonymity r1 = true).
Proof.
  split; [reflexivity |].
  apply (verdict_is_monotone_in_k df_aabbb 2 3). reflexivity.
Defined.

(* ================================================================= *)
(** ** The script [code/evaluate.py] and the class builder *)

Lemma cell_same_eq (a b : cell) : cell_same a b = true <-> a = b.
Proof.
  destruct a, b; simpl; try (split; [discriminate | congruence]).
  - rewrite String.eqb_eq. split; congruence.
  - rewrite Z.eqb_eq. split; congruence.
  - split; reflexivity.
Qed.

Lemma tuple_eqb_eq (r1 r2 : list cell) : tuple_eqb r1 r2 = true <-> r1 = r2.
Proof.
  revert r2. induction r1 as [| a r1 IH]; intros [| b r2]; simpl;
    try (split; [discriminate | congruence]).
  - split; reflexivity.
  - rewrite andb_true_iff, cell_same_eq, IH. split.
    + intros [-> ->]. reflexivity.
    + intros H. inversion H. split; reflexivity.
Qed.

Lemma Counter_nonempty {K : Type} (eqb : K -> K -> bool) (l : list K) :
  (forall a b, eqb a b = true <-> a = b) ->
  l <> [] -> 1 <= length (Counter eqb l).
Proof.
  intros Heq Hne. destruct l as [| a l]; [contradiction |].
  assert (Hin : In a (keys (Counter eqb (a :: l)))).
  { unfold Counter. apply (counter_fold_keys eqb Heq). right. left. reflexivity. }
  unfold keys in Hin. destruct (Counter eqb (a :: l)); [contradiction | simpl; lia].
Qed.

Lemma Counter_length_le {K : Type} (eqb : K -> K -> bool) (l : list K) :
  (forall a b, eqb a b = true <-> a = b) ->
  length (Counter eqb l) <= length l.
Proof.
  intros Heq.
  pose proof (counter_fold_sum eqb l []) as Hsum.
  pose proof (counter_fold_positive eqb l [] (Forall_nil _)) as Hpos.
  fold (Counter eqb l) in Hsum, Hpos. simpl in Hsum.
  rewrite <- Hsum. unfold values in *.
  clear Hsum. induction (Counter eqb l) as [| e c IH]; simpl; [lia |].
  inversion Hpos; subst. specialize (IH H2). simpl in *. lia.
Qed.

Section CounterLookup.
Context {K : Type}.
Variable eqb : K -> K -> bool.
Hypothesis eqb_eq : forall a b, eqb a b = true <-> a = b.

Lemma Counter_lookup (l : list K) (k : K) :
  dict_getd eqb 0 k (Counter eqb l) = length (filter (eqb k) l).
Proof.
  unfold Counter. rewrite (counter_fold_get eqb eqb_eq). reflexivity.
Qed.

Lemma Counter_member (l : list K) (k : K) :
  In k l -> In (k, length (filter (eqb k) l)) (Counter eqb l).
Proof.
  intros Hin.
  assert (Hk : In k (keys (Counter eqb l)))
    by (apply (counter_fold_keys eqb eqb_eq); right; exact Hin).
  destruct (dict_get eqb k (Counter eqb l)) as [n |] eqn:Hget.
  - pose proof (Counter_lookup l k) as Hc.
    unfold dict_getd in Hc. rewrite Hget in Hc. subst n.
    apply (dict_get_In eqb eqb_eq). exact Hget.
  - apply (dict_get_None eqb eqb_eq) in Hget. contradiction.
Qed.

Lemma Counter_entries (l : list K) (k : K) (n : nat) :
  In (k, n) (Counter eqb l) -> n = length (filter (eqb k) l) /\ In k l.
Proof.
  intros Hin.
  assert (Hnd : NoDup (keys (Counter eqb l)))
    by (apply (counter_fold_NoDup eqb eqb_eq); constructor).
  pose proof (In_dict_get eqb eqb_eq k n _ Hnd Hin) as Hget.
  pose proof (Counter_lookup l k) as Hc.
  unfold dict_getd in Hc. rewrite Hget in Hc. split; [exact Hc |].
  assert (Hk : In k (keys (Counter eqb l))).
  { unfold keys. change k with (fst (k, n)). apply in_map. exact Hin. }
  apply (counter_fold_keys eqb eqb_eq) in Hk. destruct Hk as [[] | Hk]. exact Hk.
Qed.

Lemma filter_self_positive (l : list K) (k : K) :
  In k l -> 1 <= length (filter (eqb k) l).
Proof.
  intros Hin. apply (filter_nonempty (eqb k) l). exists k.
  split; [exact Hin | apply eqb_eq; reflexivity].
Qed.
End CounterLookup.

Lemma run_cases (df : DataFrame) :
  (~ incl evaluate_py.quasi_identifiers (columns df) /\
   evaluate_py.run df = Raise KeyError) \/
  (incl evaluate_py.quasi_identifiers (columns df) /\ len df = 0 /\
   evaluate_py.run df = Raise ZeroDivisionError) \/
  (incl evaluate_py.quasi_identifiers (columns df) /\ 0 < len df /\
   exists eq_class,
     getitems df evaluate_py.quasi_identifiers = Ok eq_class /\
     length eq_class = len df /\
     evaluate_py.run df =
     Ok {| evaluate_py.k_value :=
             map (fun t => dict_getd tuple_eqb 0 t (Counter tuple_eqb eq_class))
                 eq_class;
           evaluate_py.total_records := len df;
           evaluate_py.num_eq_classes := length (Counter tuple_eqb eq_class);
           evaluate_py.AECS :=
             (Qn (len df) / Qn (length (Counter tuple_eqb eq_class)))%Q;
           evaluate_py.ECSV := np_var (values (Counter tuple_eqb eq_class));
           evaluate_py.suppression_rate :=
             Qdiv (Qn (list_sum (map (fun kv => if kv =? 1 then 1 else 0)
                        (map (fun t => dict_getd tuple_eqb 0 t
                                         (Counter tuple_eqb eq_class)) eq_class))))
                  (Qn (len df)) |}).
Proof.
  unfold evaluate_py.run.
  destruct (getitems_cases df evaluate_py.quasi_identifiers)
    as [[Hincl [sub Hsub]] | [Hn Hr]].
  - pose proof (getitems_length df _ sub Hsub) as Hlen.
    rewrite Hsub. cbn [bind].
    destruct (len df) as [| n] eqn:En.
    + right. left. split; [exact Hincl |]. split; [reflexivity |].
      destruct sub; [reflexivity | discriminate Hlen].
    + right. right. split; [exact Hincl |]. split; [lia |].
      exists sub. split; [reflexivity |]. split; [exact Hlen |].
      assert (Hne : sub <> []) by (intros ->; discriminate Hlen).
      rewrite (pydiv_Ok _ (length (Counter tuple_eqb sub)))
        by (apply Counter_nonempty; [apply tuple_eqb_eq | exact Hne]).
      cbn [bind]. rewrite (pydiv_Ok _ (S n)) by lia. reflexivity.
  - left. split; [exact Hn |]. rewrite Hr. reflexivity.
Qed.

(** X19.  The outcome of the script [evaluate.py].  It fails with a
    [KeyError] exactly when one of its four quasi-identifier columns is
    missing from the data; it fails with a [ZeroDivisionError], at the
    average class size, exactly when the columns are there and the data
    set has no record; and it produces its metrics exactly when the
    columns are there and there is at least one record. *)
Theorem script_outcome (df : DataFrame) :
  (evaluate_py.run df = Raise KeyError <->
   ~ incl evaluate_py.quasi_identifiers (columns df)) /\
  (evaluate_py.run df = Raise ZeroDivisionError <->
   incl evaluate_py.quasi_identifiers (columns df) /\ len df = 0) /\
  ((exists rep, evaluate_py.run df = Ok rep) <->
   incl evaluate_py.quasi_identifiers (columns df) /\ 0 < len df).
Proof.
  destruct (run_cases df)
    as [[Hn Hr] | [[Hincl [Hz Hr]] | [Hincl [Hpos [sub [_ [_ Hr]]]]]]];
    rewrite Hr.
  - split; [split; [intros _; exact Hn | reflexivity] |].
    split; split.
    + discriminate.
    + intros [H _]. contradiction.
    + intros [rep H]. discriminate H.
    + intros [H _]. contradiction.
  - split; [split; [discriminate | intros H; contradiction] |].
    split; split.
    + intros _. split; assumption.
    + reflexivity.
    + intros [rep H]. discriminate H.
    + intros [_ H]. lia.
  - split; [split; [discriminate | intros H; contradiction] |].
    split; split.
    + discriminate.
    + intros [_ H]. lia.
    + intros _. split; assumption.
    + intros _. eexists. reflexivity.
Qed.

Lemma script_outcome_example :
  exists rep, evaluate_py.run df_places = Ok rep /\
              py_min (evaluate_py.k_value rep) = Some 1 /\
              evaluate_py.num_eq_classes rep = 2.
Proof.
  eexists. split; [reflexivity |]. split; reflexivity.
Qed.

Lemma count_tuple_le_count_key (sub : list (list cell)) (t : list cell) :
  length (filter (tuple_eqb t) sub) <=
  length (filter (String.eqb (ec_key t)) (map ec_key sub)).
Proof.
  induction sub as [| r sub IH]; simpl; [lia |].
  destruct (tuple_eqb t r) eqn:E.
  - apply tuple_eqb_eq in E. subst r. rewrite String.eqb_refl. simpl. lia.
  - destruct (String.eqb (ec_key t) (ec_key r)); simpl; lia.
Qed.

Lemma k_value_entries (sub : list (list cell)) (n : nat) :
  In n (map (fun t => dict_getd tuple_eqb 0 t (Counter tuple_eqb sub)) sub) <->
  exists t, In t sub /\ n = length (filter (tuple_eqb t) sub).
Proof.
  rewrite in_map_iff. split.
  - intros [t [Ht Hin]]. exists t. split; [exact Hin |].
    rewrite <- Ht. apply Counter_lookup. apply tuple_eqb_eq.
  - intros [t [Hin Ht]]. exists t. split; [| exact Hin].
    rewrite Ht. apply Counter_lookup. apply tuple_eqb_eq.
Qed.

(** X20.  The script and the class builder on the same quasi-identifiers.
    The script groups by tuple, the builder by joined key, and equal tuples
    have equal keys: the builder never finds more classes than the script,
    and the anonymity level the script prints, [min(df['k_value'])], never
    exceeds the builder's [min_ec_size].  The level is at least 1. *)
Theorem builder_is_coarser_than_script (df : DataFrame) :
  incl evaluate_py.quasi_identifiers (columns df) ->
  0 < len df ->
  exists rep ec_counts ec_groups m level,
    evaluate_py.run df = Ok rep /\
    compute_equivalence_classes df evaluate_py.quasi_identifiers =
      Ok (ec_counts, ec_groups) /\
    calculate_equivalence_class_metrics ec_counts (len df) = Ok m /\
    py_min (evaluate_py.k_value rep) = Some level /\
    num_equivalence_classes m <= evaluate_py.num_eq_classes rep /\
    1 <= level /\
    level <= min_ec_size m.
Proof.
  intros Hincl Hpos.
  destruct (run_cases df)
    as [[Hn _] | [[_ [Hz _]] | [_ [_ [sub [Hsub [Hlen Hr]]]]]]];
    [contradiction | lia |].
  destruct (compute_equivalence_classes_total df _ Hincl) as [c [g Hc]].
  destruct (compute_equivalence_classes_Ok _ _ _ _ Hc)
    as [sub' [Hsub' [_ [Hcc _]]]].
  assert (sub' = sub) by congruence. subst sub'.
  pose proof (calculate_equivalence_class_metrics_Ok c (len df)) as Hm.
  assert (Hne : sub <> []) by (intros ->; simpl in Hlen; lia).
  destruct sub as [| t0 sub0] eqn:Esub; [contradiction |]. rewrite <- Esub in *.
  set (kv := map (fun t => dict_getd tuple_eqb 0 t (Counter tuple_eqb sub)) sub)
    in *.
  assert (Hkv : exists x xs, kv = x :: xs).
  { unfold kv. rewrite Esub. simpl. eexists. eexists. reflexivity. }
  destruct Hkv as [x [xs Hkv]].
  eexists. exists c, g. eexists. exists (nmin x xs).
  split; [exact Hr |]. split; [exact Hc |]. split; [exact Hm |].
  cbn [evaluate_py.k_value evaluate_py.num_eq_classes
       num_equivalence_classes min_ec_size].
  split; [rewrite Hkv; reflexivity |].
  destruct (nmin_spec x xs) as [Hlev_in Hlev_low]. rewrite <- Hkv in *.
  split; [| split].
  - assert (Hnd : NoDup (keys c)).
    { rewrite Hcc. apply counter_fold_NoDup; [apply string_eqb_eq | constructor]. }
    assert (Hsubset : incl (keys c) (map ec_key (keys (Counter tuple_eqb sub)))).
    { intros k Hk. rewrite Hcc in Hk.
      apply (counter_fold_keys String.eqb string_eqb_eq) in Hk.
      destruct Hk as [[] | Hk]. apply in_map_iff in Hk.
      destruct Hk as [t [<- Ht]]. apply in_map.
      apply (counter_fold_keys tuple_eqb tuple_eqb_eq). right. exact Ht. }
    pose proof (NoDup_incl_length Hnd Hsubset) as Hle.
    unfold keys in Hle. rewrite !length_map in Hle. exact Hle.
  - apply k_value_entries in Hlev_in. destruct Hlev_in as [t [Ht ->]].
    apply (filter_self_positive tuple_eqb tuple_eqb_eq). exact Ht.
  - assert (Hcne : c <> []).
    { rewrite Hcc. intros H0.
      pose proof (Counter_has (map ec_key sub) (ec_key t0)) as Hh.
      rewrite H0 in Hh. apply Hh. rewrite Esub. left. reflexivity. }
    destruct c as [| [k1 n1] c1]; [contradiction |]. cbn [values map snd].
    destruct (nmin_spec n1 (map snd c1)) as [Hmin_in _].
    change (n1 :: map snd c1) with (map snd ((k1, n1) :: c1)) in Hmin_in.
    apply in_map_iff in Hmin_in. destruct Hmin_in as [[k' n'] [Hn' Hin']].
    simpl in Hn'. rewrite Hcc in Hin'. apply Counter_entry in Hin'.
    destruct Hin' as [Hcount Hk']. apply in_map_iff in Hk'.
    destruct Hk' as [t [Hkey Ht]].
    rewrite <- Hn', Hcount, <- Hkey.
    eapply Nat.le_trans; [| apply count_tuple_le_count_key].
    rewrite Forall_forall in Hlev_low. apply Hlev_low.
    apply k_value_entries. exists t. split; [exact Ht | reflexivity].
Qed.

Lemma builder_is_coarser_than_script_witness :
  incl evaluate_py.quasi_identifiers (columns df_places) /\
  0 < len df_places /\
  exists rep ec_counts ec_groups m level,
    evaluate_py.run df_places = Ok rep /\
    compute_equivalence_classes df_places evaluate_py.quasi_identifiers =
      Ok (ec_counts, ec_groups) /\
    calculate_equivalence_class_metrics ec_counts (len df_places) = Ok m /\
    py_min (evaluate_py.k_value rep) = Some level /\
    num_equivalence_classes m <= evaluate_py.num_eq_classes rep /\
    1 <= level /\
    level <= min_ec_size m.
Proof.
  assert (H1 : incl evaluate_py.quasi_identifiers (columns df_places))
    by apply incl_refl.
  assert (H2 : 0 < len df_places) by (vm_compute; lia).
  split; [exact H1 |]. split; [exact H2 |].
  apply (builder_is_coarser_than_script df_places H1 H2).
Defined.

Lemma Qsquare_nonneg (x : Q) : (0 <= x * x)%Q.
Proof.
  unfold Qle, Qmult. simpl. rewrite Z.mul_1_r. apply Z.square_nonneg.
Qed.

Lemma qsum_nonneg (l : list Q) (a : Q) :
  Forall (fun x => (0 <= x)%Q) l -> (0 <= a)%Q -> (0 <= fold_left Qplus l a)%Q.
Proof.
  intros H. revert a. induction H as [| x l Hx Hl IH]; intros a Ha; simpl.
  - exact Ha.
  - apply IH. rewrite <- (Qplus_0_r 0). apply Qplus_le_compat; assumption.
Qed.

Lemma count_ones_le (l : list nat) :
  list_sum (map (fun kv => if kv =? 1 then 1 else 0) l) <= length l.
Proof.
  induction l as [| a l IH]; simpl; [lia |]. destruct (a =? 1); lia.
Qed.

(** X21.  The metrics of the script are consistent.  Whenever it produces
    them on data whose quasi-identifier columns have no missing value:
    every record has a [k_value] between 1 and the number of records, which
    is the number of records with the same tuple of quasi-identifier
    values; the average class size is at least 1 and at least the printed
    level [min(df['k_value'])]; the variance of the class sizes is a number
    and not negative; and the share of records that are alone in their
    class lies between 0 and 1. *)
Theorem script_metrics_consistent (df : DataFrame) (rep : evaluate_py.metrics)
    (eq_class : list (list cell)) :
  getitems df evaluate_py.quasi_identifiers = Ok eq_class ->
  forallb (forallb notna) eq_class = true ->
  evaluate_py.run df = Ok rep ->
  exists level v,
    evaluate_py.k_value rep =
      map (fun t => length (filter (tuple_eqb t) eq_class)) eq_class /\
    Forall (fun kv => 1 <= kv <= evaluate_py.total_records rep)
           (evaluate_py.k_value rep) /\
    py_min (evaluate_py.k_value rep) = Some level /\
    (Qn level <= evaluate_py.AECS rep)%Q /\
    (1 <= evaluate_py.AECS rep)%Q /\
    evaluate_py.ECSV rep = Some v /\ (0 <= v)%Q /\
    (0 <= evaluate_py.suppression_rate rep <= 1)%Q.
Proof.
  intros Hget _ Hrun.
  destruct (run_cases df)
    as [[_ Hr] | [[_ [_ Hr]] | [_ [Hpos [sub [Hsub [Hlen Hr]]]]]]];
    try congruence.
  assert (sub = eq_class) by congruence. subst sub.
  rename eq_class into sub.
  rewrite Hr in Hrun. inversion Hrun; subst rep; clear Hrun Hr.
  cbn [evaluate_py.k_value evaluate_py.total_records evaluate_py.AECS
       evaluate_py.ECSV evaluate_py.suppression_rate].
  set (counts := Counter tuple_eqb sub).
  set (kv := map (fun t => dict_getd tuple_eqb 0 t counts) sub).
  assert (Hkv : kv = map (fun t => length (filter (tuple_eqb t) sub)) sub).
  { unfold kv. apply map_ext. intros t. apply Counter_lookup, tuple_eqb_eq. }
  assert (Hne : sub <> []) by (intros ->; simpl in Hlen; lia).
  assert (Hcpos : Forall (fun n => 1 <= n) (values counts))
    by (apply counter_fold_positive; constructor).
  assert (Hcsum : list_sum (values counts) = len df).
  { unfold counts, Counter. rewrite counter_fold_sum. simpl. exact Hlen. }
  assert (HL : 1 <= length counts)
    by (apply Counter_nonempty; [apply tuple_eqb_eq | exact Hne]).
  assert (HLn : length counts <= len df).
  { rewrite <- Hlen. apply Counter_length_le, tuple_eqb_eq. }
  assert (Hrange : Forall (fun x => 1 <= x <= len df) kv).
  { rewrite Hkv. apply Forall_forall. intros x Hx. apply in_map_iff in Hx.
    destruct Hx as [t [<- Ht]]. split.
    - apply (filter_self_positive tuple_eqb tuple_eqb_eq). exact Ht.
    - rewrite <- Hlen. apply filter_length_le. }
  destruct kv as [| x xs] eqn:Ekv.
  { exfalso. destruct sub; [contradiction | discriminate Hkv]. }
  rewrite <- Ekv in *.
  destruct (nmin_spec x xs) as [Hlev_in Hlev_low]. rewrite <- Ekv in *.
  assert (Hlev_counts : Forall (fun n => nmin x xs <= n /\ n <= len df)
                               (values counts)).
  { apply Forall_forall. intros n Hn. unfold values in Hn.
    apply in_map_iff in Hn. destruct Hn as [[t n'] [Hn' Hin]]. simpl in Hn'.
    subst n'. pose proof (Counter_entries tuple_eqb tuple_eqb_eq sub t n Hin)
      as [Hcount Ht].
    split.
    - rewrite Forall_forall in Hlev_low. apply Hlev_low. rewrite Hkv.
      apply in_map_iff. exists t. split; [symmetry; exact Hcount | exact Ht].
    - rewrite Hcount, <- Hlen. apply filter_length_le. }
  destruct (list_sum_bounds _ _ _ Hlev_counts) as [Hlo _].
  unfold values in Hlo. rewrite length_map in Hlo.
  fold (values counts) in Hlo. rewrite Hcsum in Hlo.
  exists (nmin x xs).
  destruct (values counts) as [| s ss] eqn:Ev.
  { exfalso. unfold values in Ev. destruct counts; [simpl in HL; lia | discriminate Ev]. }
  eexists.
  split; [exact Hkv |]. split; [exact Hrange |].
  split; [rewrite Ekv; reflexivity |].
  destruct (Qdiv_between (nmin x xs) (len df) (len df) (length counts) HL)
    as [Hav1 _]; [lia | nia |].
  destruct (Qdiv_between 1 (len df) (len df) (length counts) HL)
    as [Hav2 _]; [lia | nia |].
  split; [exact Hav1 |]. split; [exact Hav2 |].
  split; [reflexivity |]. split.
  - apply Qle_shift_div_l; [apply Qn_pos; simpl; lia |]. rewrite Qmult_0_l.
    unfold qsum. apply qsum_nonneg; [| apply Qle_refl].
    apply Forall_forall. intros q Hq. apply in_map_iff in Hq.
    destruct Hq as [n [<- _]]. apply Qsquare_nonneg.
  - pose proof (count_ones_le kv) as Hones.
    assert (Hkvlen : length kv = len df).
    { rewrite Hkv, length_map. exact Hlen. }
    rewrite Hkvlen in Hones.
    apply (Qdiv_between 0 1 _ (len df)); lia.
Qed.

Lemma script_metrics_consistent_witness :
  exists rep eq_class,
    getitems df_places evaluate_py.quasi_identifiers = Ok eq_class /\
    forallb (forallb notna) eq_class = true /\
    evaluate_py.run df_places = Ok rep /\
    exists level v,
      evaluate_py.k_value rep =
        map (fun t => length (filter (tuple_eqb t) eq_class)) eq_class /\
      Forall (fun kv => 1 <= kv <= evaluate_py.total_records rep)
             (evaluate_py.k_value rep) /\
      py_min (evaluate_py.k_value rep) = Some level /\
      (Qn level <= evaluate_py.AECS rep)%Q /\
      (1 <= evaluate_py.AECS rep)%Q /\
      evaluate_py.ECSV rep = Some v /\ (0 <= v)%Q /\
      (0 <= evaluate_py.suppression_rate rep <= 1)%Q.
Proof.
  eexists. eexists.
  split; [reflexivity |]. split; [reflexivity |]. split; [reflexivity |].
  apply (script_metrics_consistent df_places _ _ eq_refl eq_refl eq_refl).
Defined.

(* ================================================================= *)
(** ** The average risk *)

Lemma sum_terms_at_most_length (l : list Q) :
  Forall (fun x => (x <= 1)%Q) l ->
  (sum_terms l <= Qn (length l))%Q /\
  ((sum_terms l == Qn (length l))%Q <-> Forall (fun x => (x == 1)%Q) l).
Proof.
  induction 1 as [| x l Hx Hl [IHle IHeq]].
  - simpl. split; [apply Qle_refl |]. split; [constructor | reflexivity].
  - cbn [sum_terms length]. pose proof (Qn_S (length l)) as HS. split.
    + lra.
    + split.
      * intros Heq. constructor; [lra |]. apply IHeq. lra.
      * intros Hall. inversion Hall as [| y t Hy Ht]; subst.
        apply IHeq in Ht. lra.
Qed.

Lemma mean_is_one (l : list Q) :
  l <> [] ->
  Forall (fun x => (x <= 1)%Q) l ->
  ((qsum l / Qn (length l) == 1)%Q <-> Forall (fun x => (x == 1)%Q) l).
Proof.
  intros Hne Hle.
  destruct (sum_terms_at_most_length l Hle) as [_ Heq].
  rewrite <- Heq, qsum_sum_terms.
  assert (Hp : (0 < Qn (length l))%Q).
  { apply Qn_pos. destruct l; [contradiction | simpl; lia]. }
  assert (Hnz : ~ (Qn (length l) == 0)%Q) by lra.
  split.
  - intros H.
    setoid_replace (sum_terms l)
      with (sum_terms l / Qn (length l) * Qn (length l))%Q
      by (field; exact Hnz).
    rewrite H. ring.
  - intros H. rewrite H. field. exact Hnz.
Qed.

Lemma risk_is_one (s : nat) : 1 <= s -> ((1 / Qn s == 1)%Q <-> s = 1).
Proof.
  intros Hs. split.
  - intros H. destruct (Nat.eq_dec s 1) as [E | E]; [exact E | exfalso].
    assert (Hle : (1 / Qn s <= 1 / Qn 2)%Q)
      by (apply inv_antitone; [reflexivity | apply Qn_le; lia]).
    rewrite H in Hle. revert Hle. apply Qlt_not_le. reflexivity.
  - intros ->. reflexivity.
Qed.

(** X14.  On a data set with at least one record, [avg_risk] and
    [max_risk] are greater than 0 and at most 1, and [avg_risk] is 1
    exactly when every class has a single record, that is, when
    [unique_records] equals the number of classes. *)
Theorem average_risk_range (df : DataFrame) (k : Q) :
  wf_df df = true ->
  0 < len df ->
  exists r,
    evaluate_k_anonymity df k = Ok r /\
    (0 < avg_risk (risks_report r))%Q /\
    (avg_risk (risks_report r) <= 1)%Q /\
    (0 < max_risk (risks_report r))%Q /\
    (max_risk (risks_report r) <= 1)%Q /\
    ((avg_risk (risks_report r) == 1)%Q <->
     unique_records (equivalence_class_metrics r) =
     num_equivalence_classes (equivalence_class_metrics r)).
Proof.
  intros _ Hpos.
  destruct (evaluate_k_anonymity_parts df k)
    as [r [c [Hev [Hc [Hsum [Hrk [Hm [_ _]]]]]]]].
  exists r. split; [exact Hev |].
  rewrite (calculate_reidentification_risks_Ok c Hc) in Hrk.
  rewrite calculate_equivalence_class_metrics_Ok in Hm.
  inversion Hrk as [Hrk']. inversion Hm as [Hm']. clear Hrk Hm Hrk' Hm'.
  cbn [max_risk avg_risk unique_records num_equivalence_classes].
  destruct c as [| [k0 s] c]; [simpl in Hsum; lia |].
  cbn [values map snd] in *.
  set (sizes := s :: map snd c) in *.
  destruct (nmax_spec s (map snd c)) as [Hmax_in Hmax]. fold sizes in Hmax_in, Hmax.
  destruct (max_risk_of_min_size s (map snd c) Hc) as [Heq Hmin].
  assert (Hmx1 : 1 <= nmax s (map snd c))
    by (rewrite Forall_forall in Hc; apply Hc, Hmax_in).
  assert (Hb : Forall (fun x => (1 / Qn (nmax s (map snd c)) <= x /\ x <= 1)%Q)
                      (map (fun n => (1 / Qn n)%Q) sizes)).
  { rewrite Forall_forall in *. intros x Hx.
    apply in_map_iff in Hx. destruct Hx as [t [<- Ht]]. split.
    - apply inv_antitone; [apply Qn_pos, Hc, Ht | apply Qn_le, Hmax, Ht].
    - apply risk_range, Hc, Ht. }
  assert (Hlen : length ((k0, s) :: c) =
                 length (map (fun n => (1 / Qn n)%Q) sizes))
    by (unfold sizes; simpl; rewrite !length_map; reflexivity).
  rewrite Hlen.
  assert (Hne : map (fun n => (1 / Qn n)%Q) sizes <> [])
    by (unfold sizes; simpl; discriminate).
  destruct (mean_bounds _ _ _ Hne Hb) as [Hlo Hhi].
  split; [eapply Qlt_le_trans; [| exact Hlo]; apply risk_range; exact Hmx1 |].
  split; [exact Hhi |].
  split; [rewrite Heq; apply risk_range; exact Hmin |].
  split; [rewrite Heq; apply risk_range; exact Hmin |].
  assert (Hle1 : Forall (fun x => (x <= 1)%Q) (map (fun n => (1 / Qn n)%Q) sizes)).
  { revert Hb. apply Forall_impl. intros x [_ H]. exact H. }
  eapply iff_trans; [exact (mean_is_one _ Hne Hle1) |].
  rewrite <- Hlen. cbn [length]. rewrite <- (length_map snd c).
  change (S (length (map snd c))) with (length sizes).
  rewrite <- forallb_filter_length, forallb_forall, Forall_map, Forall_forall.
  rewrite Forall_forall in Hc.
  split.
  - intros H x Hx. apply Nat.eqb_eq. apply risk_is_one; [apply Hc, Hx | apply H, Hx].
  - intros H x Hx. apply risk_is_one; [apply Hc, Hx | apply Nat.eqb_eq, H, Hx].
Qed.

Lemma average_risk_range_witness :
  wf_df df_aabbb = true /\
  0 < len df_aabbb /\
  exists r,
    evaluate_k_anonymity df_aabbb 2 = Ok r /\
    (0 < avg_risk (risks_report r))%Q /\
    (avg_risk (risks_report r) <= 1)%Q /\
    (0 < max_risk (risks_report r))%Q /\
    (max_risk (risks_report r) <= 1)%Q /\
    ((avg_risk (risks_report r) == 1)%Q <->
     unique_records (equivalence_class_metrics r) =
     num_equivalence_classes (equivalence_class_metrics r)).
Proof.
  assert (H1 : wf_df df_aabbb = true) by reflexivity.
  assert (H2 : 0 < len df_aabbb) by (vm_compute; lia).
  split; [exact H1 |]. split; [exact H2 |].
  apply (average_risk_range df_aabbb 2 H1 H2).
Defined.
